(** * A two-party chat backend: routing, delivery tracking and message lifecycle

    Shallow embedding of the Socket.IO handler ([src/socket/socket.handler.ts]),
    the REST message and conversation controllers
    ([src/controllers/message.controller.ts],
    [src/controllers/conversation.controller.ts]) and the entities they act on
    ([src/entities/*.ts]).

    The database is an explicit store threaded through every operation: each
    table is a finite map from the primary key to the row.  Socket handlers
    return the new store together with the list of emissions they performed;
    REST controllers return the new store together with the HTTP response.

    Outside the model: token verification (a connection or request arrives
    with its verified user id), failures of the database connection (the
    [catch] blocks, except where a query is refused for its arguments),
    the statements that the database refuses for a value that a column
    cannot hold (module [Db] says which values it holds), and the refresh of
    [updatedAt] that the ORM performs on the rows it rewrites (no handler
    reads that column of a message or a user). *)

From Stdlib Require Import ZArith String Ascii.
From stdpp Require Import gmap list strings sorting.

Local Open Scope Z_scope.

(** ** JavaScript strings

    A JavaScript string is a sequence of UTF-16 code units. *)

Module Js.

Definition jsstring := list N.

(** An ASCII literal of the source as a JavaScript string. *)
Definition lit (s : string) : jsstring :=
  N_of_ascii <$> list_ascii_of_string s.

(** ECMAScript [WhiteSpace] and [LineTerminator] code units: the ones
    [String.prototype.trim] strips. *)
Definition isWhiteSpace (c : N) : bool :=
  ((9 <=? c) && (c <=? 13) || (c =? 32) || (c =? 160) || (c =? 5760)
   || (8192 <=? c) && (c <=? 8202) || (c =? 8232) || (c =? 8233)
   || (c =? 8239) || (c =? 8287) || (c =? 12288) || (c =? 65279))%N.

Fixpoint trimStart (s : jsstring) : jsstring :=
  match s with
  | c :: s' => if isWhiteSpace c then trimStart s' else s
  | [] => []
  end.

Definition trimEnd (s : jsstring) : jsstring :=
  reverse (trimStart (reverse s)).

(** [s.trim()] *)
Definition trim (s : jsstring) : jsstring := trimEnd (trimStart s).

(** Truthiness of a string: [!s] holds exactly for the empty string. *)
Definition falsy (s : jsstring) : bool :=
  match s with [] => true | _ => false end.

(** Truthiness of an optional number, as in [if (conversationId)]: an
    absent property and [0] are both false. *)
Definition truthyNumber (n : option Z) : option Z :=
  match n with
  | Some z => if decide (z = 0%Z) then None else Some z
  | None => None
  end.

End Js.

Abbreviation jsstring := Js.jsstring.

(** Timestamps ([Date]) are milliseconds since the epoch. *)
Abbreviation Date := Z (only parsing).

(** ** Entities *)

(** [src/entities/User.ts] *)
Module User.
Record t := mk {
  id : Z;
  username : jsstring;
  email : jsstring;
  password : jsstring;
  avatarUrl : option jsstring;
  status : jsstring;
  lastSeen : option Date;
  createdAt : Date;
  updatedAt : Date;
}.

(** The projection [select: ['id', 'username', 'email', 'avatarUrl',
    'status', 'lastSeen']] used by the controllers. *)
Record view := mkView {
  v_id : Z;
  v_username : jsstring;
  v_email : jsstring;
  v_avatarUrl : option jsstring;
  v_status : jsstring;
  v_lastSeen : option Date;
}.

Definition select (u : t) : view :=
  mkView (id u) (username u) (email u) (avatarUrl u) (status u) (lastSeen u).

Definition set_presence (s : jsstring) (seen : Date) (u : t) : t :=
  mk (id u) (username u) (email u) (password u) (avatarUrl u) s (Some seen)
     (createdAt u) (updatedAt u).
End User.

(** [Conversation] entity *)
Module Conversation.
Record t := mk {
  id : Z;
  user1Id : Z;
  user2Id : Z;
  createdAt : Date;
  updatedAt : Date;
}.

Definition set_updatedAt (d : Date) (c : t) : t :=
  mk (id c) (user1Id c) (user2Id c) (createdAt c) d.
End Conversation.

(** One element of [Message.editHistory]: [{ content, editedAt }]. *)
Record EditEntry := mkEdit {
  entry_content : jsstring;
  entry_editedAt : Date;
}.

(** [src/entities/Message.ts].  The two nullable backup columns are options;
    so are the nullable timestamps. *)
Module Message.
Record t := mk {
  id : Z;
  content : jsstring;
  originalContent : option jsstring;
  editHistory : option (list EditEntry);
  senderId : Z;
  receiverId : Z;
  conversationId : Z;
  isRead : bool;
  isDelivered : bool;
  isDeleted : bool;
  deletedAt : option Date;
  isEdited : bool;
  editedAt : option Date;
  createdAt : Date;
  updatedAt : Date;
}.

Definition set_content (v : jsstring) (m : t) : t :=
  mk (id m) v (originalContent m) (editHistory m) (senderId m) (receiverId m)
     (conversationId m) (isRead m) (isDelivered m) (isDeleted m) (deletedAt m)
     (isEdited m) (editedAt m) (createdAt m) (updatedAt m).

Definition set_originalContent (v : option jsstring) (m : t) : t :=
  mk (id m) (content m) v (editHistory m) (senderId m) (receiverId m)
     (conversationId m) (isRead m) (isDelivered m) (isDeleted m) (deletedAt m)
     (isEdited m) (editedAt m) (createdAt m) (updatedAt m).

Definition set_editHistory (v : option (list EditEntry)) (m : t) : t :=
  mk (id m) (content m) (originalContent m) v (senderId m) (receiverId m)
     (conversationId m) (isRead m) (isDelivered m) (isDeleted m) (deletedAt m)
     (isEdited m) (editedAt m) (createdAt m) (updatedAt m).

Definition set_isRead (v : bool) (m : t) : t :=
  mk (id m) (content m) (originalContent m) (editHistory m) (senderId m)
     (receiverId m) (conversationId m) v (isDelivered m) (isDeleted m)
     (deletedAt m) (isEdited m) (editedAt m) (createdAt m) (updatedAt m).

Definition set_isDelivered (v : bool) (m : t) : t :=
  mk (id m) (content m) (originalContent m) (editHistory m) (senderId m)
     (receiverId m) (conversationId m) (isRead m) v (isDeleted m)
     (deletedAt m) (isEdited m) (editedAt m) (createdAt m) (updatedAt m).

Definition set_isDeleted (v : bool) (m : t) : t :=
  mk (id m) (content m) (originalContent m) (editHistory m) (senderId m)
     (receiverId m) (conversationId m) (isRead m) (isDelivered m) v
     (deletedAt m) (isEdited m) (editedAt m) (createdAt m) (updatedAt m).

Definition set_deletedAt (v : option Date) (m : t) : t :=
  mk (id m) (content m) (originalContent m) (editHistory m) (senderId m)
     (receiverId m) (conversationId m) (isRead m) (isDelivered m)
     (isDeleted m) v (isEdited m) (editedAt m) (createdAt m) (updatedAt m).

Definition set_isEdited (v : bool) (m : t) : t :=
  mk (id m) (content m) (originalContent m) (editHistory m) (senderId m)
     (receiverId m) (conversationId m) (isRead m) (isDelivered m)
     (isDeleted m) (deletedAt m) v (editedAt m) (createdAt m) (updatedAt m).

Definition set_editedAt (v : option Date) (m : t) : t :=
  mk (id m) (content m) (originalContent m) (editHistory m) (senderId m)
     (receiverId m) (conversationId m) (isRead m) (isDelivered m)
     (isDeleted m) (deletedAt m) (isEdited m) v (createdAt m) (updatedAt m).

(** [message.editHistory || []] *)
Definition historyOrEmpty (m : t) : list EditEntry :=
  default [] (editHistory m).
End Message.

(** ** Objects sent to clients

    [sanitizeMessage] takes the entity as a plain object ([message: any]) and
    removes two of its properties by rest destructuring, so the serialised
    view of an entity is a finite map from property names to values. *)

Inductive Value :=
  | VNull
  | VBool (b : bool)
  | VNum (z : Z)
  | VStr (s : jsstring)
  | VDate (d : Date)
  | VEdits (h : list EditEntry).

#[global] Instance EditEntry_eq_dec : EqDecision EditEntry.
Proof. solve_decision. Defined.

#[global] Instance Value_eq_dec : EqDecision Value.
Proof. solve_decision. Defined.

Abbreviation JsObject := (gmap string Value) (only parsing).

Definition optValue {A} (f : A → Value) (o : option A) : Value :=
  from_option f VNull o.

(** The own properties of a [Message] entity: its columns. *)
Definition messageObject (m : Message.t) : JsObject :=
  list_to_map
    [ ("id", VNum (Message.id m));
      ("content", VStr (Message.content m));
      ("originalContent", optValue VStr (Message.originalContent m));
      ("editHistory", optValue VEdits (Message.editHistory m));
      ("senderId", VNum (Message.senderId m));
      ("receiverId", VNum (Message.receiverId m));
      ("conversationId", VNum (Message.conversationId m));
      ("isRead", VBool (Message.isRead m));
      ("isDelivered", VBool (Message.isDelivered m));
      ("isDeleted", VBool (Message.isDeleted m));
      ("deletedAt", optValue VDate (Message.deletedAt m));
      ("isEdited", VBool (Message.isEdited m));
      ("editedAt", optValue VDate (Message.editedAt m));
      ("createdAt", VDate (Message.createdAt m));
      ("updatedAt", VDate (Message.updatedAt m)) ].

(** [const { originalContent, editHistory, ...sanitized } = message;
     return sanitized;]  The same body appears in the socket handler and in
    both controllers. *)
Definition stripBackupFields (message : JsObject) : JsObject :=
  delete "originalContent" (delete "editHistory" message).

(** ** The store

    The three tables of the database, the two id sequences behind
    [@PrimaryGeneratedColumn] and the handler's [userSockets] map
    (user id to socket id). *)

Record State := mkState {
  users : gmap Z User.t;
  conversations : gmap Z Conversation.t;
  messages : gmap Z Message.t;
  conversationSeq : Z;
  messageSeq : Z;
  userSockets : gmap Z string;
}.

Definition with_users (v : gmap Z User.t) (st : State) : State :=
  mkState v (conversations st) (messages st) (conversationSeq st)
          (messageSeq st) (userSockets st).

Definition with_conversations (v : gmap Z Conversation.t) (st : State) : State :=
  mkState (users st) v (messages st) (conversationSeq st) (messageSeq st)
          (userSockets st).

Definition with_messages (v : gmap Z Message.t) (st : State) : State :=
  mkState (users st) (conversations st) v (conversationSeq st) (messageSeq st)
          (userSockets st).

Definition with_userSockets (v : gmap Z string) (st : State) : State :=
  mkState (users st) (conversations st) (messages st) (conversationSeq st)
          (messageSeq st) v.

(** The rows of a table, in the order the table enumerates them (a query
    without [ORDER BY] returns them in that order). *)
Definition rows {A} (table : gmap Z A) : list A := (map_to_list table).*2.

(** ** Repository operations *)

Module Repo.

(** [userRepository.findOne({ where: { id } })] *)
Definition findUser (k : Z) (st : State) : option User.t := users st !! k.

(** [userRepository.save(user)] on a loaded entity. *)
Definition saveUser (u : User.t) (st : State) : State :=
  with_users (<[User.id u := u]> (users st)) st.

(** [conversationRepository.findOne({ where: { id } })] *)
Definition findConversation (k : Z) (st : State) : option Conversation.t :=
  conversations st !! k.

(** The [where] clause
    [[{ user1Id: a, user2Id: b }, { user1Id: b, user2Id: a }]]. *)
Definition betweenUsers (a b : Z) (c : Conversation.t) : Prop :=
  (Conversation.user1Id c = a ∧ Conversation.user2Id c = b)
  ∨ (Conversation.user1Id c = b ∧ Conversation.user2Id c = a).

#[global] Instance betweenUsers_dec a b c : Decision (betweenUsers a b c).
Proof. unfold betweenUsers. apply _. Defined.

(** [conversationRepository.findOne({ where: [...] })] with that clause:
    the first matching row. *)
Definition findConversationBetween (a b : Z) (st : State)
  : option Conversation.t :=
  head (filter (betweenUsers a b) (rows (conversations st))).

(** [create({ user1Id, user2Id })] followed by [save]: an insertion.  The id
    comes from the sequence, both timestamps from the clock. *)
Definition insertConversation (u1 u2 : Z) (now : Date) (st : State)
  : Conversation.t * State :=
  let c := Conversation.mk (conversationSeq st) u1 u2 now now in
  (c, mkState (users st) (<[Conversation.id c := c]> (conversations st))
              (messages st) (conversationSeq st + 1) (messageSeq st)
              (userSockets st)).

(** The find-or-create block that [handleSendMessage] and
    [createConversation] both contain:
    [let conversation = await findOne({ where: [...] });
     if (!conversation) { conversation = create({ user1Id: a, user2Id: b });
                          await save(conversation); }] *)
Definition findOrCreateConversation (a b : Z) (now : Date) (st : State)
  : Conversation.t * State :=
  match findConversationBetween a b st with
  | Some conversation => (conversation, st)
  | None => insertConversation a b now st
  end.

(** [conversationRepository.save(conversation)] on a loaded entity. *)
Definition saveConversation (c : Conversation.t) (st : State) : State :=
  with_conversations (<[Conversation.id c := c]> (conversations st)) st.

(** [messageRepository.findOne({ where: { id } })] *)
Definition findMessage (k : Z) (st : State) : option Message.t :=
  messages st !! k.

(** [messageRepository.find({ where })] *)
Definition findMessages (P : Message.t → Prop) `{!∀ m, Decision (P m)}
    (st : State) : list Message.t :=
  filter P (rows (messages st)).

(** [create({ content, originalContent, senderId, receiverId,
    conversationId, isDelivered, isRead, editHistory })] followed by [save]:
    an insertion.  The id comes from the sequence, [createdAt] and
    [updatedAt] from the clock, the other columns take their defaults. *)
Definition insertMessage (content : jsstring)
    (originalContent : option jsstring) (senderId receiverId conversationId : Z)
    (isDelivered isRead : bool) (editHistory : option (list EditEntry))
    (now : Date) (st : State) : Message.t * State :=
  let m := Message.mk (messageSeq st) content originalContent editHistory
             senderId receiverId conversationId isRead isDelivered
             false None false None now now in
  (m, mkState (users st) (conversations st)
              (<[Message.id m := m]> (messages st))
              (conversationSeq st) (messageSeq st + 1) (userSockets st)).

(** [messageRepository.save(message)] on a loaded entity: the row with the
    entity's primary key is rewritten. *)
Definition saveMessage (m : Message.t) (st : State) : State :=
  with_messages (<[Message.id m := m]> (messages st)) st.

End Repo.

(** ** What the database accepts

    The id columns of the entities are PostgreSQL [integer]s and [content]
    is a [text] column.  A statement that carries an id outside the range of
    [integer], or a text that holds U+0000, is refused by the database: the
    handler's [catch] then answers in place of the code modelled here
    ("Failed to ..." on the socket, 500 over REST), after whatever the
    handler had already saved.  A lone surrogate is not stored as sent.
    [LIMIT] and [OFFSET] are [bigint]s, and JavaScript computes the offset
    of a page exactly up to [Number.MAX_SAFE_INTEGER].  The model covers the
    requests that the database accepts; the properties that depend on it
    state these conditions. *)

Module Db.

(** The range of an [integer] column. *)
Definition int4 (n : Z) : Prop := - 2 ^ 31 ≤ n < 2 ^ 31.

Definition isHighSurrogate (c : N) : bool := (0xD800 <=? c)%N && (c <=? 0xDBFF)%N.
Definition isLowSurrogate (c : N) : bool := (0xDC00 <=? c)%N && (c <=? 0xDFFF)%N.

(** [String.prototype.isWellFormed]: no surrogate stands alone. *)
Fixpoint isWellFormed (s : jsstring) : bool :=
  match s with
  | [] => true
  | c :: s' =>
    if isHighSurrogate c then
      match s' with
      | d :: s'' => isLowSurrogate d && isWellFormed s''
      | [] => false
      end
    else negb (isLowSurrogate c) && isWellFormed s'
  end.

(** A string that a [text] column stores as it was sent. *)
Definition text (s : jsstring) : Prop :=
  Forall (λ c, c ≠ 0%N) s ∧ isWellFormed s = true.

(** A page size or offset that reaches the database as computed and that
    the database accepts. *)
Definition count (n : Z) : Prop := 0 ≤ n ≤ 2 ^ 53 - 1.

End Db.

(** ** Sockets, rooms and emissions *)

(** An authenticated connection: [socket.id] and the [socket.userId] that
    [authenticateSocket] took from the verified token. *)
Record AuthSocket := mkSocket {
  socketId : string;
  userId : Z;
}.

(** Where an emission goes: [socket.emit] reaches that one connection,
    [io.to(`user_${id}`).emit] reaches the personal room of user [id] (the
    only room a connection ever joins is the one of its own [userId]), and
    [io.emit] reaches every connection. *)
Inductive Target :=
  | ToSocket (socket : AuthSocket)
  | ToRoom (user : Z)
  | ToAll.

Inductive Event :=
  | newMessage (message : JsObject)
  | messageDelivered (messageId conversationId : Z)
  | messageRead (messageId conversationId : Z)
  | messageUpdated (message : JsObject)
  | messageDeleted (message : JsObject)
  | typing (user conversationId : Z)
  | error (message : string)
  | userStatusChange (user : Z) (status : jsstring) (lastSeen : Date).

Record Emission := emit {
  target : Target;
  event : Event;
}.

(** The user whose channel a target is; [None] for a broadcast. *)
Definition channelOwner (t : Target) : option Z :=
  match t with
  | ToSocket socket => Some (userId socket)
  | ToRoom user => Some user
  | ToAll => None
  end.

(** The events a client can send ([socket.on] registrations). *)
Inductive Inbound :=
  | sendMessage (receiverId : Z) (content : jsstring)
  | markAsRead (messageId : Z) (conversationId : option Z)
  | typingIn (conversationId : Z)
  | updateMessage (messageId : Z) (content : jsstring)
  | deleteMessage (messageId : Z).

(** The placeholder that replaces the content of a deleted message. *)
Definition deletedPlaceholder : jsstring := Js.lit "This message was deleted".

(** ** [SocketHandler] ([src/socket/socket.handler.ts])

    Every handler takes the connection, the payload, the clock reading [now]
    of the invocation and the store. *)

Module SocketHandler.

Definition sanitizeMessage (message : JsObject) : JsObject :=
  stripBackupFields message.

(** The [where] clause of the conversation form of [markAsRead]. *)
Definition unreadIn (conversationId user : Z) (m : Message.t) : Prop :=
  Message.conversationId m = conversationId
  ∧ Message.receiverId m = user
  ∧ Message.isRead m = false.

#[global] Instance unreadIn_dec c u m : Decision (unreadIn c u m).
Proof. unfold unreadIn. apply _. Defined.

(** The [where] clause of the delivery sweep. *)
Definition undeliveredTo (user : Z) (m : Message.t) : Prop :=
  Message.receiverId m = user ∧ Message.isDelivered m = false.

#[global] Instance undeliveredTo_dec u m : Decision (undeliveredTo u m).
Proof. unfold undeliveredTo. apply _. Defined.

Definition handleSendMessage (socket : AuthSocket) (receiverId : Z)
    (content : jsstring) (now : Date) (st : State) : State * list Emission :=
  let senderId := userId socket in
  if decide (senderId = receiverId) then
    (st, [emit (ToSocket socket) (error "Cannot send message to yourself")])
  else
    match Repo.findUser receiverId st with
    | None => (st, [emit (ToSocket socket) (error "Receiver not found")])
    | Some receiver =>
      let '(conversation, st) :=
        Repo.findOrCreateConversation senderId receiverId now st in
      if decide (Conversation.user1Id conversation ≠ senderId
                 ∧ Conversation.user2Id conversation ≠ senderId) then
        (st, [emit (ToSocket socket) (error "Invalid conversation access")])
      else
        let '(message, st) :=
          Repo.insertMessage content (Some content) senderId receiverId
            (Conversation.id conversation) false false (Some []) now st in
        let conversation := Conversation.set_updatedAt now conversation in
        let st := Repo.saveConversation conversation st in
        let messageToSend := sanitizeMessage (messageObject message) in
        let out := [emit (ToSocket socket) (newMessage messageToSend)] in
        match userSockets st !! receiverId with
        | Some (String _ _) =>
          let message := Message.set_isDelivered true message in
          let st := Repo.saveMessage message st in
          (st, out ++
             [emit (ToRoom receiverId)
                   (newMessage (sanitizeMessage (messageObject message)));
              emit (ToSocket socket)
                   (messageDelivered (Message.id message)
                                     (Conversation.id conversation))])
        | _ => (st, out)
        end
    end.

(** One iteration of the loop of the conversation form. *)
Definition markOneAsRead (conversationId : Z)
    (acc : State * list Emission) (message : Message.t)
  : State * list Emission :=
  let message := Message.set_isDelivered true (Message.set_isRead true message) in
  (Repo.saveMessage message acc.1,
   acc.2 ++ [emit (ToRoom (Message.senderId message))
                  (messageRead (Message.id message) conversationId)]).

Definition handleMarkAsRead (socket : AuthSocket) (messageId : Z)
    (conversationId : option Z) (st : State) : State * list Emission :=
  let user := userId socket in
  match Js.truthyNumber conversationId with
  | Some conversationId =>
    let found := Repo.findMessages (unreadIn conversationId user) st in
    foldl (markOneAsRead conversationId) (st, []) found
  | None =>
    match Repo.findMessage messageId st with
    | None => (st, [])
    | Some message =>
      if decide (Message.receiverId message ≠ user) then (st, [])
      else
        let message :=
          Message.set_isDelivered true (Message.set_isRead true message) in
        (Repo.saveMessage message st,
         [emit (ToRoom (Message.senderId message))
               (messageRead (Message.id message)
                            (Message.conversationId message))])
    end
  end.

Definition handleTyping (socket : AuthSocket) (conversationId : Z)
    (st : State) : State * list Emission :=
  let user := userId socket in
  match Repo.findConversation conversationId st with
  | None => (st, [])
  | Some conversation =>
    if decide (Conversation.user1Id conversation ≠ user
               ∧ Conversation.user2Id conversation ≠ user) then (st, [])
    else
      let otherUserId :=
        if decide (Conversation.user1Id conversation = user)
        then Conversation.user2Id conversation
        else Conversation.user1Id conversation in
      (st, [emit (ToRoom otherUserId) (typing user conversationId)])
  end.

Definition handleUpdateMessage (socket : AuthSocket) (messageId : Z)
    (content : jsstring) (now : Date) (st : State) : State * list Emission :=
  let user := userId socket in
  if Js.falsy content || Js.falsy (Js.trim content) then
    (st, [emit (ToSocket socket) (error "Content is required")])
  else
    match Repo.findMessage messageId st with
    | None => (st, [emit (ToSocket socket) (error "Message not found")])
    | Some message =>
      if decide (Message.senderId message ≠ user) then
        (st, [emit (ToSocket socket) (error "Access denied")])
      else if Message.isDeleted message then
        (st, [emit (ToSocket socket) (error "Cannot update deleted message")])
      else
        let editHistory :=
          Message.historyOrEmpty message
            ++ [mkEdit (Message.content message) now] in
        let message := Message.set_editHistory (Some editHistory) message in
        let message := Message.set_content (Js.trim content) message in
        let message := Message.set_isEdited true message in
        let message := Message.set_editedAt (Some now) message in
        let st := Repo.saveMessage message st in
        let messageToSend := sanitizeMessage (messageObject message) in
        (st, [emit (ToSocket socket) (messageUpdated messageToSend);
              emit (ToRoom (Message.receiverId message))
                   (messageUpdated messageToSend)])
    end.

Definition handleDeleteMessage (socket : AuthSocket) (messageId : Z)
    (now : Date) (st : State) : State * list Emission :=
  let user := userId socket in
  match Repo.findMessage messageId st with
  | None => (st, [emit (ToSocket socket) (error "Message not found")])
  | Some message =>
    if decide (Message.senderId message ≠ user) then
      (st, [emit (ToSocket socket) (error "Access denied")])
    else
      let message := Message.set_isDeleted true message in
      let message := Message.set_deletedAt (Some now) message in
      let message := Message.set_content deletedPlaceholder message in
      let st := Repo.saveMessage message st in
      let messageToSend := sanitizeMessage (messageObject message) in
      (st, [emit (ToSocket socket) (messageDeleted messageToSend);
            emit (ToRoom (Message.receiverId message))
                 (messageDeleted messageToSend)])
  end.

(** [updateUserStatus(userId, status, lastSeen)] *)
Definition updateUserStatus (user : Z) (status : jsstring) (lastSeen : Date)
    (st : State) : State :=
  match Repo.findUser user st with
  | Some u => Repo.saveUser (User.set_presence status lastSeen u) st
  | None => st
  end.

(** One iteration of the delivery sweep. *)
Definition deliverOne (acc : State * list Emission) (message : Message.t)
  : State * list Emission :=
  let message := Message.set_isDelivered true message in
  (Repo.saveMessage message acc.1,
   acc.2 ++ [emit (ToRoom (Message.senderId message))
                  (messageDelivered (Message.id message)
                                    (Message.conversationId message))]).

Definition markPendingMessagesAsDelivered (user : Z) (st : State)
  : State * list Emission :=
  foldl deliverOne (st, []) (Repo.findMessages (undeliveredTo user) st).

(** The body of the [connection] callback, up to the registrations: the
    connection joins its personal room, is recorded in [userSockets], the
    user is set online, the pending messages are swept and the status
    change is broadcast.  The callback does not await [updateUserStatus] and
    [markPendingMessagesAsDelivered]; here they run to completion in call
    order, and the broadcast, which the callback performs before either
    resumes, comes first in the output. *)
Definition onConnection (socket : AuthSocket) (now : Date) (st : State)
  : State * list Emission :=
  if decide (userId socket = 0) then (st, [])
  else
    let st :=
      with_userSockets (<[userId socket := socketId socket]> (userSockets st))
                       st in
    let st := updateUserStatus (userId socket) (Js.lit "online") now st in
    let '(st, out) := markPendingMessagesAsDelivered (userId socket) st in
    (st, emit ToAll (userStatusChange (userId socket) (Js.lit "online") now)
         :: out).

(** The [disconnect] callback. *)
Definition onDisconnect (socket : AuthSocket) (now : Date) (st : State)
  : State * list Emission :=
  if decide (userId socket = 0) then (st, [])
  else
    let st :=
      with_userSockets (delete (userId socket) (userSockets st)) st in
    let st := updateUserStatus (userId socket) (Js.lit "offline") now st in
    (st, [emit ToAll (userStatusChange (userId socket) (Js.lit "offline") now)]).

(** The five [socket.on] registrations. *)
Definition dispatch (socket : AuthSocket) (ev : Inbound) (now : Date)
    (st : State) : State * list Emission :=
  match ev with
  | sendMessage receiverId content =>
      handleSendMessage socket receiverId content now st
  | markAsRead messageId conversationId =>
      handleMarkAsRead socket messageId conversationId st
  | typingIn conversationId => handleTyping socket conversationId st
  | updateMessage messageId content =>
      handleUpdateMessage socket messageId content now st
  | deleteMessage messageId => handleDeleteMessage socket messageId now st
  end.

End SocketHandler.

(** ** HTTP responses *)

(** The body of [getMessageHistory]. *)
Module History.
Record t := mk {
  originalContent : option jsstring;
  currentContent : jsstring;
  editHistory : list EditEntry;
  isDeleted : bool;
  deletedAt : option Date;
  isEdited : bool;
  editedAt : option Date;
}.
End History.

(** One conversation as the conversation controller returns it. *)
Module ConversationView.
Record t := mk {
  id : Z;
  participant : User.view;
  lastMessage : option JsObject;
  unreadCount : Z;
  updatedAt : Date;
}.
End ConversationView.

Inductive Json :=
  | JMessage (message : string)
  | JObject (o : JsObject)
  | JList (l : list JsObject)
  | JHistory (h : History.t)
  | JConversation (c : ConversationView.t)
  | JConversations (l : list ConversationView.t).

Record Response := respond {
  status : Z;
  body : Json;
}.

(** [ORDER BY key DESC], as a stable insertion sort. *)
Fixpoint insertDesc {A} (key : A → Z) (x : A) (l : list A) : list A :=
  match l with
  | [] => [x]
  | y :: l' =>
    if decide (key y ≤ key x) then x :: l else y :: insertDesc key x l'
  end.

Definition orderByDesc {A} (key : A → Z) (l : list A) : list A :=
  foldr (insertDesc key) [] l.

(** [parseInt(q) || d] on a query parameter: [None] stands for [NaN]. *)
Definition parseIntOr (d : Z) (q : option Z) : Z :=
  match q with
  | Some z => if decide (z = 0) then d else z
  | None => d
  end.

(** ** [MessageController] ([src/controllers/message.controller.ts])

    [user] is the [req.userId] set by the authentication middleware; the
    route parameters are taken after [parseInt]. *)

Module MessageController.

Definition sanitizeMessage (message : JsObject) : JsObject :=
  stripBackupFields message.

Definition sanitizeMessages (messages : list JsObject) : list JsObject :=
  sanitizeMessage <$> messages.

(** The [where] clauses of the [getMessages] query. *)
Definition inConversationOf (conversationId user : Z) (m : Message.t) : Prop :=
  Message.conversationId m = conversationId
  ∧ (Message.senderId m = user ∨ Message.receiverId m = user).

#[global] Instance inConversationOf_dec c u m :
  Decision (inConversationOf c u m).
Proof. unfold inConversationOf. apply _. Defined.

(** A negative [LIMIT] or [OFFSET] is refused by the database; the handler's
    [catch] answers 500. *)
Definition getMessages (user conversationId : Z) (page limit : option Z)
    (st : State) : State * Response :=
  let page := parseIntOr 1 page in
  let limit := parseIntOr 50 limit in
  match Repo.findConversation conversationId st with
  | None => (st, respond 404 (JMessage "Conversation not found"))
  | Some conversation =>
    if decide (Conversation.user1Id conversation ≠ user
               ∧ Conversation.user2Id conversation ≠ user) then
      (st, respond 403 (JMessage "Access denied"))
    else if decide (limit < 0 ∨ (page - 1) * limit < 0) then
      (st, respond 500 (JMessage "Internal server error"))
    else
      let messages :=
        take (Z.to_nat limit)
          (drop (Z.to_nat ((page - 1) * limit))
             (orderByDesc Message.createdAt
                (Repo.findMessages (inConversationOf conversationId user) st))) in
      (st, respond 200 (JList (sanitizeMessages (messageObject <$> messages))))
  end.

Definition markAsRead (user messageId : Z) (st : State) : State * Response :=
  match Repo.findMessage messageId st with
  | None => (st, respond 404 (JMessage "Message not found"))
  | Some message =>
    if decide (Message.receiverId message ≠ user) then
      (st, respond 403 (JMessage "Access denied"))
    else
      let message := Message.set_isRead true message in
      (Repo.saveMessage message st,
       respond 200 (JMessage "Message marked as read"))
  end.

Definition updateMessage (user messageId : Z) (content : jsstring)
    (now : Date) (st : State) : State * Response :=
  if Js.falsy content || Js.falsy (Js.trim content) then
    (st, respond 400 (JMessage "Content is required"))
  else
    match Repo.findMessage messageId st with
    | None => (st, respond 404 (JMessage "Message not found"))
    | Some message =>
      if decide (Message.senderId message ≠ user) then
        (st, respond 403 (JMessage "Access denied"))
      else if Message.isDeleted message then
        (st, respond 400 (JMessage "Cannot update deleted message"))
      else
        let editHistory :=
          Message.historyOrEmpty message
            ++ [mkEdit (Message.content message) now] in
        let message := Message.set_editHistory (Some editHistory) message in
        let message := Message.set_content (Js.trim content) message in
        let message := Message.set_isEdited true message in
        let message := Message.set_editedAt (Some now) message in
        (Repo.saveMessage message st,
         respond 200 (JObject (sanitizeMessage (messageObject message))))
    end.

Definition deleteMessage (user messageId : Z) (now : Date) (st : State)
  : State * Response :=
  match Repo.findMessage messageId st with
  | None => (st, respond 404 (JMessage "Message not found"))
  | Some message =>
    if decide (Message.senderId message ≠ user) then
      (st, respond 403 (JMessage "Access denied"))
    else
      let message := Message.set_isDeleted true message in
      let message := Message.set_deletedAt (Some now) message in
      let message := Message.set_content deletedPlaceholder message in
      (Repo.saveMessage message st,
       respond 200 (JMessage "Message deleted successfully"))
  end.

Definition getMessageHistory (user messageId : Z) (st : State)
  : State * Response :=
  match Repo.findMessage messageId st with
  | None => (st, respond 404 (JMessage "Message not found"))
  | Some message =>
    if decide (Message.senderId message ≠ user
               ∧ Message.receiverId message ≠ user) then
      (st, respond 403 (JMessage "Access denied"))
    else
      let history :=
        History.mk (Message.originalContent message)
                   (Message.content message)
                   (Message.historyOrEmpty message)
                   (Message.isDeleted message)
                   (Message.deletedAt message)
                   (Message.isEdited message)
                   (Message.editedAt message) in
      (st, respond 200 (JHistory history))
  end.

End MessageController.

(** ** [ConversationController] ([src/controllers/conversation.controller.ts]) *)

Module ConversationController.

(** [if (!message) return message;] then the same destructuring. *)
Definition sanitizeMessage (message : option JsObject) : option JsObject :=
  match message with
  | None => None
  | Some message => Some (stripBackupFields message)
  end.

Definition involves (user : Z) (c : Conversation.t) : Prop :=
  Conversation.user1Id c = user ∨ Conversation.user2Id c = user.

#[global] Instance involves_dec u c : Decision (involves u c).
Proof. unfold involves. apply _. Defined.

(** [conv.user1Id === userId ? conv.user2Id : conv.user1Id] *)
Definition otherParticipant (user : Z) (conv : Conversation.t) : Z :=
  if decide (Conversation.user1Id conv = user)
  then Conversation.user2Id conv
  else Conversation.user1Id conv.

(** [message.conversationId IN (:...ids) AND
    (message.senderId = :userId OR message.receiverId = :userId)] *)
Definition visibleIn (ids : list Z) (user : Z) (m : Message.t) : Prop :=
  Message.conversationId m ∈ ids
  ∧ (Message.senderId m = user ∨ Message.receiverId m = user).

#[global] Instance visibleIn_dec ids u m : Decision (visibleIn ids u m).
Proof. unfold visibleIn. apply _. Defined.

(** [message.conversationId IN (:...ids) AND message.receiverId = :userId
    AND message.isRead = false] *)
Definition unreadFor (ids : list Z) (user : Z) (m : Message.t) : Prop :=
  Message.conversationId m ∈ ids
  ∧ Message.receiverId m = user
  ∧ Message.isRead m = false.

#[global] Instance unreadFor_dec ids u m : Decision (unreadFor ids u m).
Proof. unfold unreadFor. apply _. Defined.

Definition maxZ (l : list Z) : option Z :=
  match l with
  | [] => None
  | x :: l' => Some (foldr Z.max x l')
  end.

(** The groups of [GROUP BY "conversationId"]. *)
Definition groups (l : list Message.t) : list Z :=
  remove_dups (Message.conversationId <$> l).

Definition inGroup (g : Z) (m : Message.t) : Prop :=
  Message.conversationId m = g.

#[global] Instance inGroup_dec g m : Decision (inGroup g m).
Proof. unfold inGroup. apply _. Defined.

(** [SELECT MAX(id) ... GROUP BY "conversationId"] *)
Definition maxIdPerGroup (l : list Message.t) : list Z :=
  omap (λ g, maxZ (Message.id <$> filter (inGroup g) l)) (groups l).

(** [SELECT conversationId, COUNT( * ) ... GROUP BY conversationId] *)
Definition countPerGroup (l : list Message.t) : list (Z * Z) :=
  (λ g, (g, Z.of_nat (length (filter (inGroup g) l)))) <$> groups l.

(** The body of the [map] callback that formats one conversation; [None]
    is a conversation that the final [filter] drops. *)
Definition formatConversation (user : Z) (participants : list User.view)
    (lastMessages : list Message.t) (unreadCounts : list (Z * Z))
    (conv : Conversation.t) : option ConversationView.t :=
  let participantId := otherParticipant user conv in
  let participant :=
    List.find (λ p, bool_decide (User.v_id p = participantId)) participants in
  let lastMessage :=
    List.find (λ m, bool_decide (Message.conversationId m = Conversation.id conv))
              lastMessages in
  let unreadCount :=
    from_option snd 0
      (List.find (λ u, bool_decide (u.1 = Conversation.id conv)) unreadCounts) in
  let messageInvolvesUser :=
    match lastMessage with
    | Some m =>
      bool_decide ((Message.senderId m = user ∨ Message.receiverId m = user)
                   ∧ (Message.senderId m = participantId
                      ∨ Message.receiverId m = participantId))
    | None => true
    end in
  if messageInvolvesUser then
    match participant with
    | Some participant =>
      Some (ConversationView.mk (Conversation.id conv) participant
              (sanitizeMessage (messageObject <$> lastMessage))
              unreadCount (Conversation.updatedAt conv))
    | None => None
    end
  else None.

(** With no conversation the two query-builder clauses [IN (:...ids)]
    receive an empty list, the database refuses the statement and the
    handler's [catch] answers 500. *)
Definition getConversations (user : Z) (st : State) : State * Response :=
  let conversations :=
    orderByDesc Conversation.updatedAt
      (filter (involves user) (rows (conversations st))) in
  let participantIds := otherParticipant user <$> conversations in
  let participants :=
    User.select
      <$> filter (λ u, User.id u ∈ participantIds) (rows (users st)) in
  let conversationIds := Conversation.id <$> conversations in
  match conversationIds with
  | [] => (st, respond 500 (JMessage "Internal server error"))
  | _ =>
    let visible :=
      filter (visibleIn conversationIds user) (rows (messages st)) in
    let lastMessages :=
      filter (λ m, Message.id m ∈ maxIdPerGroup visible) visible in
    let unreadCounts :=
      countPerGroup
        (filter (unreadFor conversationIds user) (rows (messages st))) in
    (st, respond 200
           (JConversations
              (omap (formatConversation user participants lastMessages
                                        unreadCounts)
                    conversations)))
  end.

Definition createConversation (user participantId : Z) (now : Date)
    (st : State) : State * Response :=
  if decide (participantId = 0) then
    (st, respond 400 (JMessage "Participant ID is required"))
  else
    match Repo.findUser participantId st with
    | None => (st, respond 404 (JMessage "User not found"))
    | Some participant =>
      let '(conversation, st) :=
        Repo.findOrCreateConversation user participantId now st in
      (st, respond 200
             (JConversation
                (ConversationView.mk (Conversation.id conversation)
                   (User.select participant) None 0
                   (Conversation.updatedAt conversation))))
    end.

End ConversationController.

(** ** Sample data *)

Module Sample.

Definition user (k : Z) (name : string) : User.t :=
  User.mk k (Js.lit name) (Js.lit name) (Js.lit "hash") None
          (Js.lit "offline") None 0 0.

Definition alice : AuthSocket := mkSocket "socket-a" 1.
Definition bob : AuthSocket := mkSocket "socket-b" 2.

(** "hi" from user 1 to user 2, neither delivered nor read. *)
Definition hi : Message.t :=
  Message.mk 1 (Js.lit "hi") (Some (Js.lit "hi")) (Some []) 1 2 1
             false false false None false None 10 10.

Definition people : gmap Z User.t :=
  <[1 := user 1 "alice"]> (<[2 := user 2 "bob"]> (<[3 := user 3 "carol"]> ∅)).

(** Three users and nothing else. *)
Definition empty : State := mkState people ∅ ∅ 1 1 ∅.

(** Users 1 and 2 share conversation 1, which holds [hi]. *)
Definition chatting : State :=
  mkState people (<[1 := Conversation.mk 1 1 2 10 10]> ∅) (<[1 := hi]> ∅)
          2 2 ∅.

(** From [empty]: user 1 connects at time 5 and, at time 10, sends "hi" to
    user 2, who has no connection. *)
Definition hiSent : State :=
  (SocketHandler.handleSendMessage alice 2 (Js.lit "hi") 10
     (SocketHandler.onConnection alice 5 empty).1).1.

(** [chatting] with other backup columns on message 1. *)
Definition chattingRevised : State :=
  mkState people (<[1 := Conversation.mk 1 1 2 10 10]> ∅)
          (<[1 := Message.set_originalContent (Some (Js.lit "hello"))
                    (Message.set_editHistory (Some [mkEdit (Js.lit "hello") 5]) hi)]> ∅)
          2 2 ∅.

End Sample.

(** ** Vocabulary of the properties *)

(** Rewriting a list of rows into a table, one [save] after the other. *)
Definition saveAll {A} (key : A → Z) (g : A → A) (l : list A)
    (table : gmap Z A) : gmap Z A :=
  foldl (λ t x, <[key (g x) := g x]> t) table l.

(** Every row of the message table is stored under its own id. *)
Definition messagesKeyed (st : State) : Prop :=
  map_Forall (λ k m, Message.id m = k) (messages st).

#[global] Instance messagesKeyed_dec st : Decision (messagesKeyed st).
Proof. unfold messagesKeyed. apply _. Defined.

(** What both forms of the socket [markAsRead] write back. *)
Definition markRead (m : Message.t) : Message.t :=
  Message.set_isDelivered true (Message.set_isRead true m).

(** The [messageRead] notice to the sender's room. *)
Definition readNotice (conversationId : Z) (m : Message.t) : Emission :=
  emit (ToRoom (Message.senderId m)) (messageRead (Message.id m) conversationId).

(** The [messageDelivered] notice of the delivery sweep. *)
Definition deliveryNotice (m : Message.t) : Emission :=
  emit (ToRoom (Message.senderId m))
       (messageDelivered (Message.id m) (Message.conversationId m)).

(** The emission goes to the channel of user [a] or of user [b]. *)
Definition toParty (e : Emission) (a b : Z) : Prop :=
  channelOwner (target e) = Some a ∨ channelOwner (target e) = Some b.

(** A message event goes to the sender or the receiver of its message: the
    one in the payload for the events that carry the message, the stored one
    for the events that carry its id; a [typing] event goes to a participant
    of its conversation. *)
Definition addressedToParty (st : State) (e : Emission) : Prop :=
  match event e with
  | newMessage o | messageUpdated o | messageDeleted o =>
    ∃ s r, o !! "senderId" = Some (VNum s) ∧ o !! "receiverId" = Some (VNum r)
           ∧ toParty e s r
  | messageDelivered messageId _ | messageRead messageId _ =>
    ∃ m, messages st !! messageId = Some m
         ∧ toParty e (Message.senderId m) (Message.receiverId m)
  | typing _ conversationId =>
    ∃ c, conversations st !! conversationId = Some c
         ∧ toParty e (Conversation.user1Id c) (Conversation.user2Id c)
  | error _ | userStatusChange _ _ _ => True
  end.

(** The message invariant [isRead ⇒ isDelivered], over the whole table. *)
Definition readImpliesDelivered (st : State) : Prop :=
  map_Forall (λ _ m, Message.isRead m = true → Message.isDelivered m = true)
             (messages st).

#[global] Instance readImpliesDelivered_dec st : Decision (readImpliesDelivered st).
Proof. unfold readImpliesDelivered. apply _. Defined.

(** [h.length] of a nullable history. *)
Definition historyLength (m : Message.t) : nat :=
  length (Message.historyOrEmpty m).

(** What [getMessageHistory] answers for a stored message. *)
Definition historyOf (m : Message.t) : History.t :=
  History.mk (Message.originalContent m) (Message.content m)
             (Message.historyOrEmpty m) (Message.isDeleted m)
             (Message.deletedAt m) (Message.isEdited m) (Message.editedAt m).

(** The entity that both delete paths write back. *)
Definition softDeleted (now : Date) (m : Message.t) : Message.t :=
  Message.set_content deletedPlaceholder
    (Message.set_deletedAt (Some now) (Message.set_isDeleted true m)).

(** Running [markAsRead] twice in a row gives the state of one run, and the
    second run emits no [messageRead]. *)
Definition markAsReadIdempotent (socket : AuthSocket) (messageId : Z)
    (conversationId : option Z) (st : State) : Prop :=
  let once := SocketHandler.handleMarkAsRead socket messageId conversationId st in
  let twice :=
    SocketHandler.handleMarkAsRead socket messageId conversationId once.1 in
  twice.1 = once.1
  ∧ Forall (λ e, ∀ messageId conversationId,
                event e ≠ messageRead messageId conversationId) twice.2.

(** ** Everything a client can observe, except [getMessageHistory] *)

Inductive Operation :=
  | socketEvent (socket : AuthSocket) (ev : Inbound)
  | socketConnect (socket : AuthSocket)
  | socketDisconnect (socket : AuthSocket)
  | restGetMessages (user conversationId : Z) (page limit : option Z)
  | restMarkAsRead (user messageId : Z)
  | restUpdateMessage (user messageId : Z) (content : jsstring)
  | restDeleteMessage (user messageId : Z)
  | restGetConversations (user : Z)
  | restCreateConversation (user participantId : Z).

Inductive Output :=
  | Emitted (out : list Emission)
  | Responded (response : Response).

Definition run (op : Operation) (now : Date) (st : State) : State * Output :=
  match op with
  | socketEvent socket ev =>
    prod_map id Emitted (SocketHandler.dispatch socket ev now st)
  | socketConnect socket =>
    prod_map id Emitted (SocketHandler.onConnection socket now st)
  | socketDisconnect socket =>
    prod_map id Emitted (SocketHandler.onDisconnect socket now st)
  | restGetMessages user conversationId page limit =>
    prod_map id Responded
      (MessageController.getMessages user conversationId page limit st)
  | restMarkAsRead user messageId =>
    prod_map id Responded (MessageController.markAsRead user messageId st)
  | restUpdateMessage user messageId content =>
    prod_map id Responded
      (MessageController.updateMessage user messageId content now st)
  | restDeleteMessage user messageId =>
    prod_map id Responded (MessageController.deleteMessage user messageId now st)
  | restGetConversations user =>
    prod_map id Responded (ConversationController.getConversations user st)
  | restCreateConversation user participantId =>
    prod_map id Responded
      (ConversationController.createConversation user participantId now st)
  end.

(** The stores the system can be in when operations run one at a time: an
    empty database, then any sequence of operations, each run to its end
    before the next one starts (account creation, which only adds a user
    row, included; [getMessageHistory] changes nothing).  Two handlers
    interleaved at their awaits are not a step of this relation. *)
Inductive reachable : State → Prop :=
  | reachable_empty : reachable (mkState ∅ ∅ ∅ 1 1 ∅)
  | reachable_register u st : reachable st → reachable (Repo.saveUser u st)
  | reachable_run op now st : reachable st → reachable (run op now st).1.

(** The message objects carried by an output. *)
Definition eventObjects (ev : Event) : list JsObject :=
  match ev with
  | newMessage o | messageUpdated o | messageDeleted o => [o]
  | _ => []
  end.

Definition bodyObjects (body : Json) : list JsObject :=
  match body with
  | JObject o => [o]
  | JList l => l
  | JConversation c => option_list (ConversationView.lastMessage c)
  | JConversations l =>
    l ≫= (λ c, option_list (ConversationView.lastMessage c))
  | JMessage _ | JHistory _ => []
  end.

Definition outputObjects (o : Output) : list JsObject :=
  match o with
  | Emitted out => out ≫= (λ e, eventObjects (event e))
  | Responded response => bodyObjects (body response)
  end.

(** The object has neither backup property. *)
Definition withoutBackupFields (o : JsObject) : Prop :=
  o !! "originalContent" = None ∧ o !! "editHistory" = None.

(** A message with its two backup columns blanked, and a store with every
    message so blanked: two stores with the same redaction differ only in
    [originalContent] and [editHistory] of their messages. *)
Definition redact (m : Message.t) : Message.t :=
  Message.set_originalContent None (Message.set_editHistory None m).

Definition redactState (st : State) : State :=
  with_messages (redact <$> messages st) st.

Definition sameButBackup (st1 st2 : State) : Prop :=
  redactState st1 = redactState st2.

(** An operation is erasable when, on the redacted store, it produces the
    same output and a store with the same redaction. *)
Definition erasable {O} (h : State → State * O) : Prop :=
  ∀ st, (h (redactState st)).2 = (h st).2
        ∧ redactState (h (redactState st)).1 = redactState (h st).1.


(** Every conversation is stored under its own id, and no two stored
    conversations join the same unordered pair of users. *)
Definition conversationsKeyed (st : State) : Prop :=
  map_Forall (λ k c, Conversation.id c = k) (conversations st).

Definition conversationsUnique (st : State) : Prop :=
  ∀ k1 k2 c1 c2,
    conversations st !! k1 = Some c1 → conversations st !! k2 = Some c2 →
    Repo.betweenUsers (Conversation.user1Id c1) (Conversation.user2Id c1) c2 →
    k1 = k2.

Definition deduplicated (st : State) : Prop :=
  conversationsKeyed st ∧ conversationsUnique st.

(** ** Further vocabulary *)

(** What a pass over the rows selected by [P] leaves in the table: the rows
    that satisfy [P] rewritten by [g], the others as they were. *)
Definition rewriteWhere (P : Message.t → Prop) `{!∀ m, Decision (P m)}
    (g : Message.t → Message.t) (table : gmap Z Message.t) : gmap Z Message.t :=
  (λ m, if decide (P m) then g m else m) <$> table.

(** The receiver has a live connection on record: [userSockets.get(id)] is a
    non-empty socket id. *)
Definition isOnline (user : Z) (st : State) : bool :=
  match userSockets st !! user with
  | Some (String _ _) => true
  | _ => false
  end.

(** A string made of whitespace only (the empty string included). *)
Definition blank (s : jsstring) : Prop :=
  Forall (λ c, Js.isWhiteSpace c = true) s.

(** The handler reported a failure: some emission is an [error]. *)
Definition reportsError (out : list Emission) : Prop :=
  Exists (λ e, ∃ message, event e = error message) out.

(** Ids handed out so far lie below the sequence. *)
Definition messagesFresh (st : State) : Prop :=
  map_Forall (λ k _, k < messageSeq st) (messages st).

#[global] Instance messagesFresh_dec st : Decision (messagesFresh st).
Proof. unfold messagesFresh. apply _. Defined.

(** The entity that both edit paths write back. *)
Definition editedWith (content : jsstring) (now : Date) (m : Message.t)
  : Message.t :=
  Message.set_editedAt (Some now)
    (Message.set_isEdited true
       (Message.set_content (Js.trim content)
          (Message.set_editHistory
             (Some (Message.historyOrEmpty m ++ [mkEdit (Message.content m) now]))
             m))).

(** The rewrites of a stored message that the handlers perform. *)
Inductive rewritten (m : Message.t) : Message.t → Prop :=
  | rewritten_same : rewritten m m
  | rewritten_delivered : rewritten m (Message.set_isDelivered true m)
  | rewritten_read : rewritten m (markRead m)
  | rewritten_read_only : rewritten m (Message.set_isRead true m)
  | rewritten_edited content now :
      Message.isDeleted m = false → Js.trim content ≠ [] →
      rewritten m (editedWith content now m)
  | rewritten_deleted now : rewritten m (softDeleted now m).

(** The columns of a message that identify it, and its backup. *)
Definition sameIdentity (m m' : Message.t) : Prop :=
  Message.id m' = Message.id m
  ∧ Message.senderId m' = Message.senderId m
  ∧ Message.receiverId m' = Message.receiverId m
  ∧ Message.conversationId m' = Message.conversationId m
  ∧ Message.createdAt m' = Message.createdAt m
  ∧ Message.originalContent m' = Message.originalContent m
  ∧ Message.historyOrEmpty m `prefix_of` Message.historyOrEmpty m'.

(** No flag of [m] that is set is cleared in [m']. *)
Definition flagsKept (m m' : Message.t) : Prop :=
  (Message.isDelivered m = true → Message.isDelivered m' = true)
  ∧ (Message.isRead m = true → Message.isRead m' = true)
  ∧ (Message.isEdited m = true → Message.isEdited m' = true)
  ∧ (Message.isDeleted m = true → Message.isDeleted m' = true).

(** The message that an accepted [sendMessage] inserts. *)
Definition sentMessage (socket : AuthSocket) (receiverId : Z)
    (content : jsstring) (now : Date) (delivered : bool) (st : State)
  : Message.t :=
  Message.mk (messageSeq st) content (Some content) (Some []) (userId socket)
    receiverId
    (Conversation.id
       (Repo.findOrCreateConversation (userId socket) receiverId now st).1)
    false delivered false None false None now now.

(** [originalContent] holds the first version of the message: the content of
    the first history entry when there is one, else the current content of a
    message that is not deleted.  A message is flagged edited exactly when
    its history is not empty, and a deleted message shows the placeholder and
    has its deletion time. *)
Definition versionsConsistent (m : Message.t) : Prop :=
  match Message.historyOrEmpty m with
  | first :: _ => Message.originalContent m = Some (entry_content first)
  | [] => Message.isDeleted m = false →
          Message.originalContent m = Some (Message.content m)
  end
  ∧ (Message.isEdited m = true ↔ Message.historyOrEmpty m ≠ [])
  ∧ (Message.isDeleted m = true →
     Message.content m = deletedPlaceholder ∧ is_Some (Message.deletedAt m)).

Definition conversationsFresh (st : State) : Prop :=
  map_Forall (λ k _, k < conversationSeq st) (conversations st).

#[global] Instance conversationsFresh_dec st : Decision (conversationsFresh st).
Proof. unfold conversationsFresh. apply _. Defined.

(** The same conversation, up to its [updatedAt]. *)
Definition sameConversation (c c' : Conversation.t) : Prop :=
  Conversation.id c' = Conversation.id c
  ∧ Conversation.user1Id c' = Conversation.user1Id c
  ∧ Conversation.user2Id c' = Conversation.user2Id c
  ∧ Conversation.createdAt c' = Conversation.createdAt c.

(** A message is between two different users and lies in a stored
    conversation that joins those two. *)
Definition inItsConversation (st : State) (m : Message.t) : Prop :=
  Message.senderId m ≠ Message.receiverId m
  ∧ ∃ c, conversations st !! Message.conversationId m = Some c
         ∧ Repo.betweenUsers (Message.senderId m) (Message.receiverId m) c.

(** An operation other than the REST mark-as-read endpoint. *)
Definition notRestMarkAsRead (op : Operation) : Prop :=
  match op with
  | restMarkAsRead _ _ => False
  | _ => True
  end.

(** Newest first: the order of [ORDER BY createdAt DESC]. *)
Definition newerFirst (a b : Message.t) : Prop :=
  Message.createdAt b ≤ Message.createdAt a.

(** The unread messages of a conversation that are addressed to a user. *)
Definition unreadOf (conversationId user : Z) (m : Message.t) : Prop :=
  Message.conversationId m = conversationId
  ∧ Message.receiverId m = user
  ∧ Message.isRead m = false.

#[global] Instance unreadOf_dec c u m : Decision (unreadOf c u m).
Proof. unfold unreadOf. apply _. Defined.

(** What the preview of a conversation shows as its last message: nothing
    when no stored message of the conversation involves the user, else the
    sanitized object of the one with the greatest id among them. *)
Definition showsNewest (st : State) (user : Z) (conv : Conversation.t)
    (shown : option JsObject) : Prop :=
  match shown with
  | Some o =>
    ∃ m, o = stripBackupFields (messageObject m)
         ∧ m ∈ rows (messages st)
         ∧ MessageController.inConversationOf (Conversation.id conv) user m
         ∧ ∀ m', m' ∈ rows (messages st) →
                 MessageController.inConversationOf (Conversation.id conv) user m' →
                 Message.id m' ≤ Message.id m
  | None =>
    ∀ m, m ∈ rows (messages st) →
         ¬ MessageController.inConversationOf (Conversation.id conv) user m
  end.

(** What user 2 sees of conversation 1 in [Sample.chatting]. *)
Definition samplePreview : ConversationView.t :=
  ConversationView.mk 1 (User.select (Sample.user 1 "alice"))
    (Some (stripBackupFields (messageObject Sample.hi))) 1 10.

(** ** [UserController] ([src/controllers/user.controller.ts])

    The database's [LIKE] operator is a parameter of the search:
    [like pattern text] tells whether [text] matches [pattern].  The query
    has no [order], the rows are taken in the order of the table.  A pattern
    that the database refuses is outside the model. *)

Module UserController.


(** [`%${q}%`] *)
Definition pattern (q : jsstring) : jsstring := Js.lit "%" ++ q ++ Js.lit "%".

(** The [where] clause
    [[{ username: Like(pattern) }, { email: Like(pattern) }]]. *)
Definition matches (like : jsstring → jsstring → bool) (q : jsstring)
    (u : User.t) : Prop :=
  like (pattern q) (User.username u) = true
  ∨ like (pattern q) (User.email u) = true.

#[global] Instance matches_dec like q u : Decision (matches like q u).
Proof. unfold matches. apply _. Defined.


End UserController.
(** * Properties *)

(** ** Tables and queries *)

Section Tables.
Context {A : Type}.
Implicit Types (table : gmap Z A) (x : A).

Lemma elem_of_rows table x : x ∈ rows table ↔ ∃ k, table !! k = Some x.
Proof.
  unfold rows. rewrite list_elem_of_fmap. split.
  - intros [[k y] [-> Hin]]. exists k. by apply elem_of_map_to_list.
  - intros [k Hk]. exists (k, x). split; [done|]. by apply elem_of_map_to_list.
Qed.

Lemma firstMatch_None (P : A → Prop) `{!∀ x, Decision (P x)} (l : list A) :
  head (filter P l) = None ↔ ∀ x, x ∈ l → ¬ P x.
Proof.
  rewrite head_None. split.
  - intros Hnil x Hx HP. by eapply filter_nil_not_elem_of.
  - induction l as [|y l IH]; intros Hall; [done|].
    rewrite filter_cons_False by (apply Hall; by left).
    apply IH. intros x Hx. apply Hall. by right.
Qed.

Lemma firstMatch_Some (P : A → Prop) `{!∀ x, Decision (P x)} (l : list A) x :
  head (filter P l) = Some x → x ∈ l ∧ P x.
Proof.
  intros Hhd. apply head_Some_elem_of in Hhd.
  apply list_elem_of_filter in Hhd. tauto.
Qed.

Lemma firstMatch_unique (P : A → Prop) `{!∀ x, Decision (P x)} (l : list A) x :
  x ∈ l → P x → (∀ y, y ∈ l → P y → y = x) → head (filter P l) = Some x.
Proof.
  intros Hin HP Huniq.
  destruct (head (filter P l)) as [y|] eqn:Hhd.
  - apply firstMatch_Some in Hhd as [Hy HPy]. f_equal. by apply Huniq.
  - exfalso. by eapply (proj1 (firstMatch_None P l)).
Qed.


Lemma saveAll_lookup key g l table k y :
  saveAll key g l table !! k = Some y →
  (∃ x, x ∈ l ∧ key (g x) = k ∧ y = g x)
  ∨ (table !! k = Some y ∧ ∀ x, x ∈ l → key (g x) ≠ k).
Proof.
  unfold saveAll. revert table.
  induction l as [|x l IH]; intros table; simpl.
  - intros Hk. right. split; [done|]. intros x Hx. by apply not_elem_of_nil in Hx.
  - intros Hk. destruct (IH _ Hk) as [(x' & Hin & Hkey & ->)|[Hlook Hfresh]].
    + left. exists x'. split; [by right|done].
    + destruct (decide (key (g x) = k)) as [<-|Hne].
      * rewrite lookup_insert_eq in Hlook. left. exists x.
        split; [by left|]. split; congruence.
      * rewrite lookup_insert_ne in Hlook by done. right. split; [done|].
        intros x' [->|Hin]%elem_of_cons; [done|by apply Hfresh].
Qed.

Lemma saveAll_is_Some key g l table k :
  is_Some (table !! k) → is_Some (saveAll key g l table !! k).
Proof.
  unfold saveAll. revert table.
  induction l as [|x l IH]; intros table Hk; simpl; [done|].
  apply IH. destruct (decide (key (g x) = k)) as [<-|Hne].
  - rewrite lookup_insert_eq. by eexists.
  - by rewrite lookup_insert_ne.
Qed.

End Tables.


Lemma keyed_rows st m :
  messagesKeyed st → m ∈ rows (messages st) → messages st !! Message.id m = Some m.
Proof.
  intros Hkey [k Hk]%elem_of_rows. by rewrite (Hkey _ _ Hk).
Qed.

(** ** The loops of the socket handler *)



Lemma markOneAsRead_foldl cid found acc :
  foldl (SocketHandler.markOneAsRead cid) acc found
  = (with_messages (saveAll Message.id markRead found (messages acc.1)) acc.1,
     acc.2 ++ (readNotice cid <$> found)).
Proof.
  revert acc. induction found as [|m found IH]; intros [st out]; simpl.
  - rewrite app_nil_r. by destruct st.
  - rewrite IH. simpl. rewrite <-app_assoc. done.
Qed.


Lemma deliverOne_foldl found acc :
  foldl SocketHandler.deliverOne acc found
  = (with_messages
       (saveAll Message.id (Message.set_isDelivered true) found (messages acc.1))
       acc.1,
     acc.2 ++ (deliveryNotice <$> found)).
Proof.
  revert acc. induction found as [|m found IH]; intros [st out]; simpl.
  - rewrite app_nil_r. by destruct st.
  - rewrite IH. simpl. rewrite <-app_assoc. done.
Qed.

Lemma sanitized_senderId m :
  stripBackupFields (messageObject m) !! "senderId" = Some (VNum (Message.senderId m)).
Proof. reflexivity. Qed.

Lemma sanitized_receiverId m :
  stripBackupFields (messageObject m) !! "receiverId"
  = Some (VNum (Message.receiverId m)).
Proof. reflexivity. Qed.



Ltac emitted H :=
  repeat (apply elem_of_cons in H as [->|H]); [..|by apply not_elem_of_nil in H].

Lemma send_ok socket receiverId content now st e :
  e ∈ (SocketHandler.handleSendMessage socket receiverId content now st).2 →
  addressedToParty (SocketHandler.handleSendMessage socket receiverId content now st).1 e.
Proof.
  unfold SocketHandler.handleSendMessage.
  case_decide as Hself; [by intros ->%list_elem_of_singleton|].
  destruct (Repo.findUser receiverId st) as [receiver|];
    [|by intros ->%list_elem_of_singleton].
  destruct (Repo.findOrCreateConversation _ _ _ _) as [conversation st1].
  case_decide as Hacc; [by intros ->%list_elem_of_singleton|].
  simpl.
  destruct (userSockets st1 !! receiverId) as [[|? ?]|]; simpl; intros He;
    emitted He; unfold addressedToParty, toParty; simpl.
  all: try (eexists _, _; split; [apply sanitized_senderId|];
            split; [apply sanitized_receiverId|]; simpl; auto).
  eexists. split; [apply lookup_insert_eq|]. simpl. auto.
Qed.

Lemma markAsRead_ok socket messageId conversationId st e :
  messagesKeyed st →
  e ∈ (SocketHandler.handleMarkAsRead socket messageId conversationId st).2 →
  addressedToParty (SocketHandler.handleMarkAsRead socket messageId conversationId st).1 e.
Proof.
  intros Hkey. unfold SocketHandler.handleMarkAsRead.
  destruct (Js.truthyNumber conversationId) as [cid|].
  - rewrite markOneAsRead_foldl. simpl.
    intros (m & -> & Hm)%list_elem_of_fmap.
    unfold Repo.findMessages in Hm. apply list_elem_of_filter in Hm as [_ Hm].
    unfold addressedToParty, toParty. simpl.
    apply (keyed_rows _ _ Hkey) in Hm.
    destruct (saveAll_is_Some Message.id markRead
                (filter (SocketHandler.unreadIn cid (userId socket)) (rows (messages st)))
                (messages st) (Message.id m)) as [y Hy]; [by eexists|].
    exists y. split; [done|].
    apply saveAll_lookup in Hy as [(x & Hx & Hid & ->)|[Hy _]].
    + apply list_elem_of_filter in Hx as [_ Hx].
      apply (keyed_rows _ _ Hkey) in Hx. simpl in Hid.
      rewrite Hid, Hm in Hx. injection Hx as <-. simpl. auto.
    + rewrite Hm in Hy. injection Hy as <-. auto.
  - destruct (Repo.findMessage messageId st) as [message|] eqn:Hfind;
      [|by intros ?%not_elem_of_nil].
    case_decide; [by intros ?%not_elem_of_nil|].
    simpl. intros ->%list_elem_of_singleton.
    unfold addressedToParty, toParty. simpl.
    eexists. split; [apply lookup_insert_eq|]. simpl. auto.
Qed.

Lemma typing_ok socket conversationId st e :
  e ∈ (SocketHandler.handleTyping socket conversationId st).2 →
  addressedToParty (SocketHandler.handleTyping socket conversationId st).1 e.
Proof.
  unfold SocketHandler.handleTyping.
  destruct (Repo.findConversation conversationId st) as [c|] eqn:Hfind;
    [|by intros ?%not_elem_of_nil].
  case_decide; [by intros ?%not_elem_of_nil|].
  simpl. intros ->%list_elem_of_singleton.
  unfold addressedToParty, toParty. simpl.
  exists c. split; [done|]. case_decide; auto.
Qed.

Lemma update_ok socket messageId content now st e :
  e ∈ (SocketHandler.handleUpdateMessage socket messageId content now st).2 →
  addressedToParty (SocketHandler.handleUpdateMessage socket messageId content now st).1 e.
Proof.
  unfold SocketHandler.handleUpdateMessage.
  destruct (_ || _); [by intros ->%list_elem_of_singleton|].
  destruct (Repo.findMessage messageId st) as [message|];
    [|by intros ->%list_elem_of_singleton].
  case_decide as Hsender; [by intros ->%list_elem_of_singleton|].
  destruct (Message.isDeleted message); [by intros ->%list_elem_of_singleton|].
  simpl. intros He. emitted He; unfold addressedToParty, toParty; simpl.
  all: eexists _, _; split; [apply sanitized_senderId|];
       split; [apply sanitized_receiverId|]; simpl; rewrite ?Hsender; auto.
Qed.

Lemma delete_ok socket messageId now st e :
  e ∈ (SocketHandler.handleDeleteMessage socket messageId now st).2 →
  addressedToParty (SocketHandler.handleDeleteMessage socket messageId now st).1 e.
Proof.
  unfold SocketHandler.handleDeleteMessage.
  destruct (Repo.findMessage messageId st) as [message|];
    [|by intros ->%list_elem_of_singleton].
  case_decide as Hsender; [by intros ->%list_elem_of_singleton|].
  simpl. intros He. emitted He; unfold addressedToParty, toParty; simpl.
  all: eexists _, _; split; [apply sanitized_senderId|];
       split; [apply sanitized_receiverId|]; simpl; rewrite ?Hsender; auto.
Qed.

(** C1.  Whatever inbound event a connection sends ([sendMessage],
    [markAsRead], [typing], [updateMessage], [deleteMessage]) and whatever the
    store, every [newMessage], [messageDelivered], [messageRead],
    [messageUpdated], [messageDeleted] or [typing] emission of the handler
    goes to the connection or room of the sender or the receiver of the
    message it is about (for [typing]: of one of the two participants of the
    conversation), never to a broadcast or to a third user. *)
Theorem emissions_only_to_parties socket ev now st e :
  messagesKeyed st →
  e ∈ (SocketHandler.dispatch socket ev now st).2 →
  addressedToParty (SocketHandler.dispatch socket ev now st).1 e.
Proof.
  intros Hkey. destruct ev; simpl.
  - apply send_ok.
  - by apply markAsRead_ok.
  - apply typing_ok.
  - apply update_ok.
  - apply delete_ok.
Qed.

Lemma emissions_only_to_parties_witness :
  messagesKeyed Sample.chatting
  ∧ readNotice 1 Sample.hi
      ∈ (SocketHandler.dispatch Sample.bob (markAsRead 0 (Some 1)) 20 Sample.chatting).2
  ∧ addressedToParty
      (SocketHandler.dispatch Sample.bob (markAsRead 0 (Some 1)) 20 Sample.chatting).1
      (readNotice 1 Sample.hi).
Proof.
  assert (messagesKeyed Sample.chatting) as Hkey.
  { compute_done. }
  assert (readNotice 1 Sample.hi
      ∈ (SocketHandler.dispatch Sample.bob (markAsRead 0 (Some 1)) 20 Sample.chatting).2) as Hin.
  { vm_compute. left. }
  split; [exact Hkey|]. split; [exact Hin|].
  exact (emissions_only_to_parties _ _ _ _ _ Hkey Hin).
Defined.

(** ** Conversation resolution *)

Lemma betweenUsers_sym a b c : Repo.betweenUsers a b c ↔ Repo.betweenUsers b a c.
Proof. unfold Repo.betweenUsers. tauto. Qed.

Lemma findConversationBetween_sym a b st :
  Repo.findConversationBetween a b st = Repo.findConversationBetween b a st.
Proof.
  unfold Repo.findConversationBetween. f_equal.
  apply list_filter_iff. intros c. apply betweenUsers_sym.
Qed.

Lemma findConversationBetween_inserted a b now st :
  Repo.findConversationBetween a b st = None →
  Repo.findConversationBetween a b (Repo.insertConversation a b now st).2
  = Some (Repo.insertConversation a b now st).1.
Proof.
  intros Hnone. unfold Repo.findConversationBetween in *. simpl.
  pose proof (proj1 (firstMatch_None _ _) Hnone) as Hfresh.
  apply firstMatch_unique.
  - apply elem_of_rows. eexists. apply lookup_insert_eq.
  - left. done.
  - intros y [k Hk]%elem_of_rows Hy.
    destruct (decide (conversationSeq st = k)) as [<-|Hne].
    + rewrite lookup_insert_eq in Hk. congruence.
    + rewrite lookup_insert_ne in Hk by done.
      exfalso. apply (Hfresh y); [|done]. apply elem_of_rows. eauto.
Qed.

Lemma findOrCreateConversation_again a b now now' st :
  Repo.findOrCreateConversation b a now'
    (Repo.findOrCreateConversation a b now st).2
  = Repo.findOrCreateConversation a b now st.
Proof.
  unfold Repo.findOrCreateConversation at 2 3.
  destruct (Repo.findConversationBetween a b st) as [c|] eqn:Hfind.
  - unfold Repo.findOrCreateConversation. simpl.
    by rewrite <-(findConversationBetween_sym a b), Hfind.
  - unfold Repo.findOrCreateConversation.
    rewrite <-(findConversationBetween_sym a b).
    rewrite findConversationBetween_inserted by done.
    by destruct (Repo.insertConversation a b now st).
Qed.

Lemma findOrCreateConversation_between a b now st :
  Repo.betweenUsers a b (Repo.findOrCreateConversation a b now st).1.
Proof.
  unfold Repo.findOrCreateConversation.
  destruct (Repo.findConversationBetween a b st) as [c|] eqn:Hfind.
  - by apply firstMatch_Some in Hfind as [_ ?].
  - left. done.
Qed.

(** C2.  For distinct users [a] and [b], resolving the conversation for
    [(a, b)] and then for [(b, a)], one after the other, gives the same
    conversation and creates nothing the second time.  The conversation
    returned is between the two users and is a row of the table after the
    call, where a lookup by either order finds it.  If a row between the two
    was already stored, in either participant order, the call leaves the
    store as it is and returns a row that was stored (the row, when the
    table holds one conversation per pair), and so does the resolve in the
    other order.  If none was stored, the call inserts one row, with the
    next id of the sequence, [a] as [user1Id] and [b] as [user2Id]. *)
Theorem resolve_symmetric a b now now' st :
  a ≠ b →
  let first := Repo.findOrCreateConversation a b now st in
  let second := Repo.findOrCreateConversation b a now' first.2 in
  second = first
  ∧ Repo.betweenUsers a b first.1
  ∧ first.1 ∈ rows (conversations first.2)
  ∧ Repo.findConversationBetween a b first.2 = Some first.1
  ∧ Repo.findConversationBetween b a first.2 = Some first.1
  ∧ (∀ k c, conversations st !! k = Some c → Repo.betweenUsers a b c →
       first.2 = st
       ∧ first.1 ∈ rows (conversations st)
       ∧ (conversationsUnique st → first.1 = c)
       ∧ Repo.findOrCreateConversation b a now' st = first)
  ∧ ((∀ c, c ∈ rows (conversations st) → ¬ Repo.betweenUsers a b c) →
       first.1 = Conversation.mk (conversationSeq st) a b now now
       ∧ conversations first.2
         = <[conversationSeq st := first.1]> (conversations st)).
Proof.
  intros _. cbv zeta.
  assert (Repo.findConversationBetween a b
            (Repo.findOrCreateConversation a b now st).2
          = Some (Repo.findOrCreateConversation a b now st).1) as Hfound.
  { unfold Repo.findOrCreateConversation.
    destruct (Repo.findConversationBetween a b st) as [c|] eqn:Hfind; [done|].
    by apply findConversationBetween_inserted. }
  split; [apply findOrCreateConversation_again|].
  split; [apply findOrCreateConversation_between|].
  split; [by apply firstMatch_Some in Hfound as [? _]|].
  split; [done|].
  split; [by rewrite <-(findConversationBetween_sym a b)|].
  split.
  - intros k c Hk Hc. unfold Repo.findOrCreateConversation.
    rewrite <-(findConversationBetween_sym a b).
    destruct (Repo.findConversationBetween a b st) as [c'|] eqn:Hfind.
    + simpl. apply firstMatch_Some in Hfind as [Hin Hc'].
      split; [done|]. split; [done|]. split; [|done].
      intros Huniq. apply elem_of_rows in Hin as [k' Hk'].
      assert (k = k') as <-; [|congruence].
      apply (Huniq k k' c c' Hk Hk').
      unfold Repo.betweenUsers in *. destruct Hc as [[-> ->]|[-> ->]]; tauto.
    + exfalso. unfold Repo.findConversationBetween in Hfind.
      apply (proj1 (firstMatch_None _ _) Hfind c); [|done].
      apply elem_of_rows. eauto.
  - intros Hnone. unfold Repo.findOrCreateConversation.
    destruct (Repo.findConversationBetween a b st) as [c'|] eqn:Hfind; [|done].
    apply firstMatch_Some in Hfind as [Hin Hc']. by destruct (Hnone c').
Qed.

Lemma resolve_symmetric_witness :
  (1 ≠ 2)
  ∧ Repo.findOrCreateConversation 2 1 30
      (Repo.findOrCreateConversation 1 2 20 Sample.empty).2
    = Repo.findOrCreateConversation 1 2 20 Sample.empty.
Proof.
  assert (1 ≠ 2) as Hne by lia.
  split; [exact Hne|].
  exact (proj1 (resolve_symmetric 1 2 20 30 Sample.empty Hne)).
Defined.

(** The lookup and the insert are two statements, and the table has no
    unique constraint on the pair: when two requests for the same pair both
    look up before either inserts, each inserts, and the table holds two
    conversations for the pair. *)
Lemma interleaved_resolves_duplicate a b now now' st :
  let st1 := (Repo.insertConversation a b now st).2 in
  let st2 := (Repo.insertConversation b a now' st1).2 in
  ¬ conversationsUnique st2.
Proof.
  simpl. intros Huniq.
  specialize (Huniq (conversationSeq st) (conversationSeq st + 1)
                (Conversation.mk (conversationSeq st) a b now now)
                (Conversation.mk (conversationSeq st + 1) b a now' now')).
  simpl in Huniq.
  rewrite lookup_insert_ne, !lookup_insert_eq in Huniq by lia.
  specialize (Huniq eq_refl eq_refl). unfold Repo.betweenUsers in Huniq.
  simpl in Huniq. lia.
Qed.

(** ** Edits *)

Lemma content_accepted content :
  Js.trim content ≠ [] → Js.falsy content || Js.falsy (Js.trim content) = false.
Proof.
  intros Hne. destruct content as [|c content]; [done|]. simpl.
  by destruct (Js.trim (c :: content)).
Qed.

(** C4.  A successful edit by the sender of a non-deleted message, with
    content that is non-empty after trimming, appends exactly one history
    entry holding the content before the edit, sets the content to the
    trimmed new content and sets [isEdited]; this holds for the socket
    handler and for the REST controller alike. *)
Theorem edit_appends_prior_content socket messageId content now st m :
  messagesKeyed st →
  Repo.findMessage messageId st = Some m →
  Message.senderId m = userId socket →
  Message.isDeleted m = false →
  Js.trim content ≠ [] →
  let edited :=
    Message.set_editedAt (Some now)
      (Message.set_isEdited true
         (Message.set_content (Js.trim content)
            (Message.set_editHistory
               (Some (Message.historyOrEmpty m ++ [mkEdit (Message.content m) now]))
               m))) in
  let viaSocket := SocketHandler.handleUpdateMessage socket messageId content now st in
  let viaRest :=
    MessageController.updateMessage (userId socket) messageId content now st in
  historyLength edited = S (historyLength m)
  ∧ last (Message.historyOrEmpty edited) = Some (mkEdit (Message.content m) now)
  ∧ Message.content edited = Js.trim content
  ∧ Message.isEdited edited = true
  ∧ Repo.findMessage messageId viaSocket.1 = Some edited
  ∧ viaSocket.2
    = [emit (ToSocket socket)
            (messageUpdated (stripBackupFields (messageObject edited)));
       emit (ToRoom (Message.receiverId m))
            (messageUpdated (stripBackupFields (messageObject edited)))]
  ∧ Repo.findMessage messageId viaRest.1 = Some edited
  ∧ viaRest.2 = respond 200 (JObject (stripBackupFields (messageObject edited))).
Proof.
  intros Hkey Hfind Hsender Hlive Hcontent. simpl.
  pose proof (Hkey _ _ Hfind) as Hid. simpl in Hid.
  unfold SocketHandler.handleUpdateMessage, MessageController.updateMessage.
  rewrite (content_accepted _ Hcontent), Hfind, Hlive.
  rewrite !decide_False by (intros Hne; by apply Hne).
  unfold historyLength, Repo.findMessage, Repo.saveMessage. simpl.
  rewrite Hid, lookup_insert_eq.
  split; [|split].
  - change (length (Message.historyOrEmpty m ++ [mkEdit (Message.content m) now])
            = S (length (Message.historyOrEmpty m))).
    rewrite length_app. simpl. lia.
  - change (last (Message.historyOrEmpty m ++ [mkEdit (Message.content m) now])
            = Some (mkEdit (Message.content m) now)).
    apply last_snoc.
  - repeat split; reflexivity.
Qed.

Lemma edit_appends_prior_content_witness :
  historyLength
    (default Sample.hi
       (Repo.findMessage 1
          (SocketHandler.handleUpdateMessage Sample.alice 1 (Js.lit " yo ") 20
             Sample.chatting).1))
  = 1%nat.
Proof.
  assert (messagesKeyed Sample.chatting) as Hkey by compute_done.
  assert (Repo.findMessage 1 Sample.chatting = Some Sample.hi) as Hfind
    by reflexivity.
  assert (Message.senderId Sample.hi = userId Sample.alice) as Hsender
    by reflexivity.
  assert (Message.isDeleted Sample.hi = false) as Hlive by reflexivity.
  assert (Js.trim (Js.lit " yo ") ≠ []) as Hcontent by (vm_compute; discriminate).
  destruct (edit_appends_prior_content Sample.alice 1 (Js.lit " yo ") 20
              Sample.chatting Sample.hi Hkey Hfind Hsender Hlive Hcontent)
    as (Hlen & _ & _ & _ & Hsaved & _).
  rewrite Hsaved. exact Hlen.
Defined.

(** ** Soft delete *)

Lemma delete_by_sender socket messageId now st m :
  messagesKeyed st →
  Repo.findMessage messageId st = Some m →
  Message.senderId m = userId socket →
  SocketHandler.handleDeleteMessage socket messageId now st
  = (with_messages (<[messageId := softDeleted now m]> (messages st)) st,
     [emit (ToSocket socket)
           (messageDeleted (stripBackupFields (messageObject (softDeleted now m))));
      emit (ToRoom (Message.receiverId m))
           (messageDeleted (stripBackupFields (messageObject (softDeleted now m))))])
  ∧ MessageController.deleteMessage (userId socket) messageId now st
    = (with_messages (<[messageId := softDeleted now m]> (messages st)) st,
       respond 200 (JMessage "Message deleted successfully")).
Proof.
  intros Hkey Hfind Hsender.
  pose proof (Hkey _ _ Hfind) as Hid. simpl in Hid.
  unfold SocketHandler.handleDeleteMessage, MessageController.deleteMessage.
  rewrite Hfind, !decide_False by (intros Hne; by apply Hne).
  unfold Repo.saveMessage. simpl. rewrite Hid. done.
Qed.

Lemma history_after_delete reader messageId now st m :
  reader = Message.senderId m ∨ reader = Message.receiverId m →
  MessageController.getMessageHistory reader messageId
    (with_messages (<[messageId := softDeleted now m]> (messages st)) st)
  = (with_messages (<[messageId := softDeleted now m]> (messages st)) st,
     respond 200 (JHistory (historyOf (softDeleted now m)))).
Proof.
  intros Hreader. unfold MessageController.getMessageHistory, Repo.findMessage.
  simpl. rewrite lookup_insert_eq.
  rewrite decide_False; [done|]. simpl. intros [? ?]. destruct Hreader; congruence.
Qed.

(** C5.  A successful delete by the sender (socket or REST) marks the message
    deleted and replaces its content by the placeholder, leaving
    [originalContent] and [editHistory] as they were; [getMessageHistory],
    called afterwards by the sender or the receiver, answers with the original
    content, the whole edit history and the deletion metadata. *)
Theorem delete_retains_backup socket reader messageId now st m :
  messagesKeyed st →
  Repo.findMessage messageId st = Some m →
  Message.senderId m = userId socket →
  reader = Message.senderId m ∨ reader = Message.receiverId m →
  ∀ after,
    after = (SocketHandler.handleDeleteMessage socket messageId now st).1
    ∨ after = (MessageController.deleteMessage (userId socket) messageId now st).1 →
    ∃ m',
      Repo.findMessage messageId after = Some m'
      ∧ Message.isDeleted m' = true
      ∧ Message.content m' = deletedPlaceholder
      ∧ Message.originalContent m' = Message.originalContent m
      ∧ Message.editHistory m' = Message.editHistory m
      ∧ (MessageController.getMessageHistory reader messageId after).2
        = respond 200
            (JHistory
               (History.mk (Message.originalContent m) deletedPlaceholder
                           (Message.historyOrEmpty m) true (Some now)
                           (Message.isEdited m) (Message.editedAt m))).
Proof.
  intros Hkey Hfind Hsender Hreader after Hafter.
  destruct (delete_by_sender socket messageId now st m Hkey Hfind Hsender)
    as [Hsocket Hrest].
  assert (after = with_messages (<[messageId := softDeleted now m]> (messages st)) st)
    as ->.
  { destruct Hafter as [->| ->]; [by rewrite Hsocket|by rewrite Hrest]. }
  exists (softDeleted now m).
  split; [apply lookup_insert_eq|].
  rewrite history_after_delete by done. done.
Qed.

Lemma delete_retains_backup_witness :
  (MessageController.getMessageHistory 2 1
     (SocketHandler.handleDeleteMessage Sample.alice 1 20 Sample.chatting).1).2
  = respond 200
      (JHistory
         (History.mk (Some (Js.lit "hi")) deletedPlaceholder [] true (Some 20)
                     false None)).
Proof.
  assert (messagesKeyed Sample.chatting) as Hkey by compute_done.
  assert (Repo.findMessage 1 Sample.chatting = Some Sample.hi) as Hfind
    by reflexivity.
  assert (Message.senderId Sample.hi = userId Sample.alice) as Hsender
    by reflexivity.
  assert (2 = Message.senderId Sample.hi ∨ 2 = Message.receiverId Sample.hi)
    as Hreader by (right; reflexivity).
  destruct (delete_retains_backup Sample.alice 2 1 20 Sample.chatting Sample.hi
              Hkey Hfind Hsender Hreader _ (or_introl eq_refl))
    as (m' & _ & _ & _ & _ & _ & Hhistory).
  exact Hhistory.
Defined.

(** C10.  Deleting a message that is already deleted is accepted: the
    sender's second delete rewrites the row with [isDeleted] still set, the
    placeholder as content and the new time in [deletedAt]; the socket
    handler emits [messageDeleted] to the sender's connection and to the
    receiver's room again, the REST controller answers 200. *)
Theorem delete_again_accepted socket messageId now st m :
  messagesKeyed st →
  Repo.findMessage messageId st = Some m →
  Message.senderId m = userId socket →
  Message.isDeleted m = true →
  ∃ m',
    Message.isDeleted m' = true
    ∧ Message.content m' = deletedPlaceholder
    ∧ Message.deletedAt m' = Some now
    ∧ Repo.findMessage messageId
        (SocketHandler.handleDeleteMessage socket messageId now st).1 = Some m'
    ∧ (SocketHandler.handleDeleteMessage socket messageId now st).2
      = [emit (ToSocket socket)
              (messageDeleted (stripBackupFields (messageObject m')));
         emit (ToRoom (Message.receiverId m))
              (messageDeleted (stripBackupFields (messageObject m')))]
    ∧ Repo.findMessage messageId
        (MessageController.deleteMessage (userId socket) messageId now st).1
      = Some m'
    ∧ (MessageController.deleteMessage (userId socket) messageId now st).2
      = respond 200 (JMessage "Message deleted successfully").
Proof.
  intros Hkey Hfind Hsender _.
  destruct (delete_by_sender socket messageId now st m Hkey Hfind Hsender)
    as [-> ->].
  exists (softDeleted now m). unfold Repo.findMessage. simpl.
  rewrite lookup_insert_eq. done.
Qed.

Lemma delete_again_accepted_witness :
  let once := (SocketHandler.handleDeleteMessage Sample.alice 1 20 Sample.chatting).1 in
  ∃ m',
    Message.isDeleted m' = true
    ∧ Message.deletedAt m' = Some 30
    ∧ Repo.findMessage 1 (SocketHandler.handleDeleteMessage Sample.alice 1 30 once).1
      = Some m'.
Proof.
  simpl.
  set (once := (SocketHandler.handleDeleteMessage Sample.alice 1 20 Sample.chatting).1).
  assert (messagesKeyed once) as Hkey by compute_done.
  assert (Repo.findMessage 1 once = Some (softDeleted 20 Sample.hi)) as Hfind
    by reflexivity.
  assert (Message.senderId (softDeleted 20 Sample.hi) = userId Sample.alice)
    as Hsender by reflexivity.
  assert (Message.isDeleted (softDeleted 20 Sample.hi) = true) as Hdeleted
    by reflexivity.
  destruct (delete_again_accepted Sample.alice 1 30 once _ Hkey Hfind Hsender Hdeleted)
    as (m' & H1 & _ & H3 & H4 & _).
  exists m'. auto.
Defined.

(** ** The invariant [isRead ⇒ isDelivered] *)

Lemma saveAll_Forall {A} (P : A → Prop) key (g : A → A) l (table : gmap Z A) :
  (∀ x, x ∈ l → P (g x)) →
  map_Forall (λ _, P) table → map_Forall (λ _, P) (saveAll key g l table).
Proof.
  intros Hg Htable k y Hk.
  apply saveAll_lookup in Hk as [(x & Hx & _ & ->)|[Hk _]]; [by apply Hg|].
  by apply (Htable k).
Qed.

Lemma saveMessage_readImpliesDelivered m st :
  (Message.isRead m = true → Message.isDelivered m = true) →
  readImpliesDelivered st → readImpliesDelivered (Repo.saveMessage m st).
Proof. intros Hm Hst. by apply map_Forall_insert_2. Qed.

(** Every socket handler keeps the invariant. *)
Lemma socket_keeps_readImpliesDelivered socket ev now st :
  readImpliesDelivered st →
  readImpliesDelivered (SocketHandler.dispatch socket ev now st).1.
Proof.
  intros Hst. destruct ev; simpl.
  - unfold SocketHandler.handleSendMessage.
    case_decide; [done|]. destruct (Repo.findUser _ _); [|done].
    assert (readImpliesDelivered
              (Repo.findOrCreateConversation (userId socket) receiverId now st).2)
      as Hst1.
    { unfold Repo.findOrCreateConversation.
      by destruct (Repo.findConversationBetween _ _ _). }
    destruct (Repo.findOrCreateConversation _ _ _ _) as [conversation st1].
    simpl in Hst1. case_decide; [done|]. simpl.
    destruct (userSockets st1 !! receiverId) as [[|? ?]|]; simpl.
    1,3: by apply map_Forall_insert_2.
    apply map_Forall_insert_2; [done|]. by apply map_Forall_insert_2.
  - unfold SocketHandler.handleMarkAsRead.
    destruct (Js.truthyNumber conversationId).
    + rewrite markOneAsRead_foldl. simpl. by apply saveAll_Forall.
    + destruct (Repo.findMessage _ _); [|done]. case_decide; [done|].
      by apply saveMessage_readImpliesDelivered.
  - unfold SocketHandler.handleTyping.
    destruct (Repo.findConversation _ _); [|done]. by case_decide.
  - unfold SocketHandler.handleUpdateMessage.
    destruct (_ || _); [done|].
    destruct (Repo.findMessage _ _) as [m|] eqn:Hm; [|done].
    case_decide; [done|]. destruct (Message.isDeleted m); [done|].
    apply saveMessage_readImpliesDelivered; [|done]. simpl. by apply (Hst _ _ Hm).
  - unfold SocketHandler.handleDeleteMessage.
    destruct (Repo.findMessage _ _) as [m|] eqn:Hm; [|done].
    case_decide; [done|].
    apply saveMessage_readImpliesDelivered; [|done]. simpl. by apply (Hst _ _ Hm).
Qed.

(** The delivery sweep keeps it too. *)
Lemma sweep_keeps_readImpliesDelivered user st :
  readImpliesDelivered st →
  readImpliesDelivered (SocketHandler.markPendingMessagesAsDelivered user st).1.
Proof.
  intros Hst. unfold SocketHandler.markPendingMessagesAsDelivered.
  rewrite deliverOne_foldl. simpl. by apply saveAll_Forall.
Qed.

(** C3.  The REST endpoint sets [isRead] without touching [isDelivered]:
    after user 1 has sent "hi" to user 2, who has no live connection, user 2
    marks message 1 as read over REST and the stored row is then read but
    not delivered. *)
Theorem rest_markAsRead_leaves_undelivered :
  let after := MessageController.markAsRead 2 1 Sample.hiSent in
  readImpliesDelivered Sample.hiSent
  ∧ Message.isDelivered <$> Repo.findMessage 1 Sample.hiSent = Some false
  ∧ after.2 = respond 200 (JMessage "Message marked as read")
  ∧ Message.isRead <$> Repo.findMessage 1 after.1 = Some true
  ∧ Message.isDelivered <$> Repo.findMessage 1 after.1 = Some false
  ∧ ¬ readImpliesDelivered after.1.
Proof.
  simpl. split; [compute_done|]. repeat split.
  intros Hinv. specialize (Hinv 1 _ eq_refl). simpl in Hinv.
  by specialize (Hinv eq_refl).
Qed.

(** ** Rejections of [sendMessage] *)

Lemma send_rejects_self socket content now st :
  SocketHandler.handleSendMessage socket (userId socket) content now st
  = (st, [emit (ToSocket socket) (error "Cannot send message to yourself")]).
Proof. unfold SocketHandler.handleSendMessage. by rewrite decide_True. Qed.

Lemma send_rejects_unknown_receiver socket receiverId content now st :
  userId socket ≠ receiverId →
  Repo.findUser receiverId st = None →
  SocketHandler.handleSendMessage socket receiverId content now st
  = (st, [emit (ToSocket socket) (error "Receiver not found")]).
Proof.
  intros Hne Hnone. unfold SocketHandler.handleSendMessage.
  by rewrite decide_False, Hnone.
Qed.

(** C7.  [handleSendMessage] never inspects the content: a message made of
    three spaces from user 1 to the existing user 2 is stored as message 2
    and echoed to the sender; no [error] is emitted. *)
Theorem send_accepts_blank_content :
  let blank := Js.lit "   " in
  let stored :=
    Message.mk 2 blank (Some blank) (Some []) 1 2 1 false false false None
               false None 20 20 in
  let after := SocketHandler.handleSendMessage Sample.alice 2 blank 20 Sample.chatting in
  Js.trim blank = []
  ∧ Repo.findMessage 2 Sample.chatting = None
  ∧ Repo.findMessage 2 after.1 = Some stored
  ∧ after.2
    = [emit (ToSocket Sample.alice)
            (newMessage (stripBackupFields (messageObject stored)))].
Proof. simpl. repeat split. Qed.

(** ** Self-conversations *)

(** C8.  The REST endpoint has no check that the participant differs from
    the caller: user 1 asking for a conversation with user 1 gets a 200 and
    the row (1, 1) is created. *)
Theorem createConversation_accepts_self :
  let after := ConversationController.createConversation 1 1 20 Sample.empty in
  conversations Sample.empty = ∅
  ∧ after.2
    = respond 200
        (JConversation
           (ConversationView.mk 1 (User.select (Sample.user 1 "alice")) None 0 20))
  ∧ Repo.findConversation 1 after.1 = Some (Conversation.mk 1 1 1 20 20).
Proof. simpl. repeat split. Qed.

(** ** Repeating [markAsRead] *)

Lemma filter_none {A} (P : A → Prop) `{!∀ x, Decision (P x)} (l : list A) :
  (∀ x, x ∈ l → ¬ P x) → filter P l = [].
Proof. intros Hall. by apply head_None, firstMatch_None. Qed.

Lemma nothing_unread_after_marking c user st :
  messagesKeyed st →
  Repo.findMessages (SocketHandler.unreadIn c user)
    (with_messages
       (saveAll Message.id markRead
          (Repo.findMessages (SocketHandler.unreadIn c user) st) (messages st))
       st)
  = [].
Proof.
  intros Hkey. unfold Repo.findMessages at 1. simpl.
  apply filter_none. intros y [k Hk]%elem_of_rows Hunread.
  apply saveAll_lookup in Hk as [(x & _ & _ & ->)|[Hk Hfresh]].
  - by destruct Hunread as (_ & _ & ?).
  - apply (Hfresh y).
    + apply list_elem_of_filter. split; [done|]. apply elem_of_rows. eauto.
    + simpl. by apply (Hkey k).
Qed.

(** What does hold of [markAsRead] run twice.  In both forms the second run
    leaves the state of the first one.  In the conversation form the second
    run emits nothing.  In the single-message form, for a message that does
    not exist or whose receiver is not the caller, nothing changes and
    nothing is emitted; a second run by the receiver emits what the first
    one did. *)
Theorem markAsRead_twice socket messageId conversationId st :
  messagesKeyed st →
  let once := SocketHandler.handleMarkAsRead socket messageId conversationId st in
  let twice :=
    SocketHandler.handleMarkAsRead socket messageId conversationId once.1 in
  twice.1 = once.1
  ∧ (is_Some (Js.truthyNumber conversationId) → twice.2 = [])
  ∧ (Js.truthyNumber conversationId = None →
     match Repo.findMessage messageId st with
     | None => once = (st, [])
     | Some m =>
       if decide (Message.receiverId m = userId socket)
       then once.2 = [readNotice (Message.conversationId m) m] ∧ twice.2 = once.2
       else once = (st, [])
     end).
Proof.
  intros Hkey. simpl. unfold SocketHandler.handleMarkAsRead.
  destruct (Js.truthyNumber conversationId) as [c|].
  - rewrite (markOneAsRead_foldl c (Repo.findMessages _ st)). simpl.
    rewrite nothing_unread_after_marking by done. simpl.
    split; [done|]. split; [done|]. intros [=].
  - destruct (Repo.findMessage messageId st) as [m|] eqn:Hfind.
    + pose proof (Hkey _ _ Hfind) as Hid. simpl in Hid. subst messageId.
      destruct (decide (Message.receiverId m = userId socket)) as [Hrecv|Hrecv].
      * rewrite decide_False by (intros Hne; by apply Hne).
        unfold Repo.findMessage, Repo.saveMessage. simpl.
        rewrite lookup_insert_eq. simpl.
        rewrite decide_False by (intros Hne; by apply Hne). simpl.
        rewrite insert_insert_eq.
        split; [done|]. split; [by intros [? [=]]|]. done.
      * rewrite decide_True by done. simpl. rewrite Hfind.
        rewrite decide_True by done.
        split; [done|]. split; [by intros [? [=]]|]. done.
    + simpl. rewrite Hfind. split; [done|]. split; [by intros [? [=]]|]. done.
Qed.

Lemma markAsRead_twice_witness :
  let once := SocketHandler.handleMarkAsRead Sample.bob 0 (Some 1) Sample.chatting in
  (SocketHandler.handleMarkAsRead Sample.bob 0 (Some 1) once.1).1 = once.1
  ∧ (SocketHandler.handleMarkAsRead Sample.bob 0 (Some 1) once.1).2 = [].
Proof.
  assert (messagesKeyed Sample.chatting) as Hkey by compute_done.
  destruct (markAsRead_twice Sample.bob 0 (Some 1) Sample.chatting Hkey)
    as (Hstate & Hquiet & _).
  split; [exact Hstate|]. apply Hquiet. by eexists.
Defined.

(** C6.  The single-message form does not look at [isRead], as the
    conversation form does.  In the store where user 1 has sent message 1 to
    user 2, user 2 marks message 1 as read twice: the second run leaves the
    store of the first one and notifies user 1 with [messageRead] once more,
    so [markAsRead] is not idempotent there. *)
Theorem markAsRead_single_notifies_again :
  let once := SocketHandler.handleMarkAsRead Sample.bob 1 None Sample.hiSent in
  let twice := SocketHandler.handleMarkAsRead Sample.bob 1 None once.1 in
  once.2 = [emit (ToRoom 1) (messageRead 1 1)]
  ∧ twice.1 = once.1
  ∧ twice.2 = [emit (ToRoom 1) (messageRead 1 1)]
  ∧ ¬ markAsReadIdempotent Sample.bob 1 None Sample.hiSent.
Proof.
  cbv zeta. split; [by vm_compute|]. split; [by vm_compute|].
  split; [by vm_compute|].
  intros [_ Hquiet]. vm_compute in Hquiet.
  inversion Hquiet as [|e out Hne _]. by apply (Hne 1 1).
Qed.

(** ** Confinement of the backup fields *)

Section Commute.
Context {A B : Type} (f : A → B).

Lemma filter_fmap_respects (P : A → Prop) (Q : B → Prop)
    `{!∀ x, Decision (P x)} `{!∀ y, Decision (Q y)} (l : list A) :
  (∀ x, Q (f x) ↔ P x) → filter Q (f <$> l) = f <$> filter P l.
Proof.
  intros HPQ. induction l as [|x l IH]; [done|]. rewrite fmap_cons.
  destruct (decide (P x)) as [HP|HP].
  - rewrite !filter_cons_True by (done || by apply HPQ).
    by rewrite fmap_cons, IH.
  - rewrite !filter_cons_False by (done || by rewrite HPQ). done.
Qed.

Lemma insertDesc_fmap (keyA : A → Z) (keyB : B → Z) x (l : list A) :
  (∀ x, keyB (f x) = keyA x) →
  insertDesc keyB (f x) (f <$> l) = f <$> insertDesc keyA x l.
Proof.
  intros Hkey. induction l as [|y l IH]; [done|].
  rewrite fmap_cons. simpl. rewrite !Hkey.
  case_decide; [done|]. by rewrite IH.
Qed.

Lemma orderByDesc_fmap (keyA : A → Z) (keyB : B → Z) (l : list A) :
  (∀ x, keyB (f x) = keyA x) →
  orderByDesc keyB (f <$> l) = f <$> orderByDesc keyA l.
Proof.
  intros Hkey. induction l as [|x l IH]; [done|].
  rewrite fmap_cons.
  change (insertDesc keyB (f x) (orderByDesc keyB (f <$> l))
          = f <$> insertDesc keyA x (orderByDesc keyA l)).
  rewrite IH. by apply insertDesc_fmap.
Qed.

Lemma find_fmap (p : A → bool) (q : B → bool) (l : list A) :
  (∀ x, q (f x) = p x) → List.find q (f <$> l) = f <$> List.find p l.
Proof.
  intros Hpq. induction l as [|x l IH]; [done|].
  rewrite fmap_cons. simpl. rewrite Hpq. by destruct (p x).
Qed.

Lemma rows_fmap (table : gmap Z A) : rows (f <$> table) = f <$> rows table.
Proof.
  unfold rows. rewrite map_to_list_fmap, <-!list_fmap_compose.
  apply list_fmap_ext. by intros ? [k x] ?.
Qed.

End Commute.

Lemma saveAll_fmap {A} (f g g' : A → A) key (l : list A) (table : gmap Z A) :
  (∀ x, f (g x) = g' (f x)) → (∀ x, key (f x) = key x) →
  f <$> saveAll key g l table = saveAll key g' (f <$> l) (f <$> table).
Proof.
  intros Hfg Hkey. unfold saveAll. revert table.
  induction l as [|x l IH]; intros table; [done|]. simpl.
  rewrite IH, fmap_insert, <-Hfg, Hkey. done.
Qed.

Lemma redact_table_idemp (table : gmap Z Message.t) :
  redact <$> (redact <$> table) = redact <$> table.
Proof. rewrite <-map_fmap_compose. by apply map_fmap_ext. Qed.

Lemma redactState_idemp st : redactState (redactState st) = redactState st.
Proof. unfold redactState. simpl. by rewrite redact_table_idemp. Qed.

Lemma sanitized_redact m :
  stripBackupFields (messageObject (redact m)) = stripBackupFields (messageObject m).
Proof. reflexivity. Qed.

(** The three [sanitizeMessage] functions give the same object for two
    messages that differ only in their backup columns. *)
Lemma sanitizeMessage_hides_backup m1 m2 :
  redact m1 = redact m2 →
  SocketHandler.sanitizeMessage (messageObject m1)
  = SocketHandler.sanitizeMessage (messageObject m2)
  ∧ MessageController.sanitizeMessage (messageObject m1)
    = MessageController.sanitizeMessage (messageObject m2)
  ∧ ConversationController.sanitizeMessage (Some (messageObject m1))
    = ConversationController.sanitizeMessage (Some (messageObject m2)).
Proof.
  intros Hsame. simpl.
  unfold SocketHandler.sanitizeMessage, MessageController.sanitizeMessage.
  by rewrite <-(sanitized_redact m1), <-(sanitized_redact m2), Hsame.
Qed.

Lemma sanitized_without_backup o : withoutBackupFields (stripBackupFields o).
Proof.
  split; unfold stripBackupFields.
  - apply lookup_delete_eq.
  - rewrite lookup_delete_ne by done. apply lookup_delete_eq.
Qed.

Lemma findMessage_redact k st :
  Repo.findMessage k (redactState st) = redact <$> Repo.findMessage k st.
Proof. unfold Repo.findMessage. simpl. apply lookup_fmap. Qed.

Lemma findMessages_redact (P : Message.t → Prop) `{!∀ m, Decision (P m)} st :
  (∀ m, P (redact m) ↔ P m) →
  Repo.findMessages P (redactState st) = redact <$> Repo.findMessages P st.
Proof.
  intros HP. unfold Repo.findMessages. simpl. rewrite rows_fmap.
  by apply filter_fmap_respects.
Qed.

Lemma findOrCreateConversation_redact a b now st :
  Repo.findOrCreateConversation a b now (redactState st)
  = ((Repo.findOrCreateConversation a b now st).1,
     redactState (Repo.findOrCreateConversation a b now st).2).
Proof.
  unfold Repo.findOrCreateConversation, Repo.findConversationBetween. simpl.
  by destruct (head _).
Qed.

Lemma erasable_read_only {O} (h : State → State * O) :
  (∀ st, (h st).1 = st) → (∀ st, (h (redactState st)).2 = (h st).2) →
  erasable h.
Proof. intros Hst Hout st. by rewrite !Hst, redactState_idemp. Qed.

Ltac same_redaction :=
  unfold redactState, Repo.saveMessage, Repo.saveConversation, with_messages,
    with_conversations; simpl;
  rewrite ?fmap_insert, ?redact_table_idemp; reflexivity.

Ltac unchanged := simpl; rewrite ?redactState_idemp; done.

Lemma send_erasable socket receiverId content now :
  erasable (SocketHandler.handleSendMessage socket receiverId content now).
Proof.
  intros st. unfold SocketHandler.handleSendMessage.
  case_decide; [unchanged|].
  unfold Repo.findUser. simpl (users (redactState st)).
  destruct (users st !! receiverId); [|unchanged].
  rewrite findOrCreateConversation_redact.
  destruct (Repo.findOrCreateConversation _ _ _ _) as [conversation st1]. simpl.
  case_decide; [split; [done|same_redaction]|]. simpl.
  destruct (userSockets st1 !! receiverId) as [[|? ?]|]; simpl;
    (split; [done|same_redaction]).
Qed.

Lemma redact_list_idemp (l : list Message.t) :
  redact <$> (redact <$> l) = redact <$> l.
Proof. rewrite <-list_fmap_compose. by apply list_fmap_ext. Qed.

Lemma saveAll_redact (g : Message.t → Message.t) found (table : gmap Z Message.t) :
  (∀ m, redact (g m) = g (redact m)) → (∀ m, Message.id (g m) = Message.id m) →
  redact <$> saveAll Message.id g (redact <$> found) (redact <$> table)
  = redact <$> saveAll Message.id g found table.
Proof.
  intros Hg Hid.
  rewrite !(saveAll_fmap redact g g) by done.
  by rewrite redact_list_idemp, redact_table_idemp.
Qed.

Lemma redactState_saved (table table' : gmap Z Message.t) st :
  redact <$> table = redact <$> table' →
  redactState (with_messages table (redactState st))
  = redactState (with_messages table' st).
Proof. intros Heq. unfold redactState, with_messages. simpl. by rewrite Heq. Qed.

Lemma markAsRead_erasable socket messageId conversationId :
  erasable (SocketHandler.handleMarkAsRead socket messageId conversationId).
Proof.
  intros st. unfold SocketHandler.handleMarkAsRead.
  destruct (Js.truthyNumber conversationId) as [c|].
  - rewrite !markOneAsRead_foldl, findMessages_redact by done. simpl. split.
    + rewrite <-list_fmap_compose. by apply list_fmap_ext.
    + apply redactState_saved. by apply saveAll_redact.
  - rewrite findMessage_redact.
    destruct (Repo.findMessage messageId st) as [m|]; [|unchanged]. simpl.
    case_decide; [unchanged|]. split; [done|same_redaction].
Qed.

Lemma typing_erasable socket conversationId :
  erasable (SocketHandler.handleTyping socket conversationId).
Proof.
  apply erasable_read_only; intros st; unfold SocketHandler.handleTyping.
  - destruct (Repo.findConversation _ _); [|done]. by case_decide.
  - unfold Repo.findConversation. simpl.
    destruct (conversations st !! conversationId); [|done]. by case_decide.
Qed.

Lemma update_erasable socket messageId content now :
  erasable (SocketHandler.handleUpdateMessage socket messageId content now).
Proof.
  intros st. unfold SocketHandler.handleUpdateMessage.
  destruct (_ || _); [unchanged|]. rewrite findMessage_redact.
  destruct (Repo.findMessage messageId st) as [m|]; [|unchanged]. simpl.
  case_decide; [unchanged|].
  destruct (Message.isDeleted m); [unchanged|]. split; [done|same_redaction].
Qed.

Lemma delete_erasable socket messageId now :
  erasable (SocketHandler.handleDeleteMessage socket messageId now).
Proof.
  intros st. unfold SocketHandler.handleDeleteMessage.
  rewrite findMessage_redact.
  destruct (Repo.findMessage messageId st) as [m|]; [|unchanged]. simpl.
  case_decide; [unchanged|]. split; [done|same_redaction].
Qed.

Lemma dispatch_erasable socket ev now :
  erasable (SocketHandler.dispatch socket ev now).
Proof.
  destruct ev; simpl.
  - apply send_erasable.
  - apply markAsRead_erasable.
  - apply typing_erasable.
  - apply update_erasable.
  - apply delete_erasable.
Qed.

Lemma sweep_erasable user :
  erasable (SocketHandler.markPendingMessagesAsDelivered user).
Proof.
  intros st. unfold SocketHandler.markPendingMessagesAsDelivered.
  rewrite !deliverOne_foldl, findMessages_redact by done. simpl. split.
  - rewrite <-list_fmap_compose. by apply list_fmap_ext.
  - apply redactState_saved. by apply saveAll_redact.
Qed.

Lemma updateUserStatus_redact user status seen st :
  SocketHandler.updateUserStatus user status seen (redactState st)
  = redactState (SocketHandler.updateUserStatus user status seen st).
Proof.
  unfold SocketHandler.updateUserStatus, Repo.findUser. simpl.
  by destruct (users st !! user).
Qed.

Lemma connection_erasable socket now :
  erasable (SocketHandler.onConnection socket now).
Proof.
  intros st. unfold SocketHandler.onConnection.
  case_decide; [unchanged|].
  change (with_userSockets ?s (redactState st))
    with (redactState (with_userSockets s st)).
  rewrite updateUserStatus_redact.
  destruct (sweep_erasable (userId socket)
              (SocketHandler.updateUserStatus (userId socket) (Js.lit "online") now
                 (with_userSockets
                    (<[userId socket := socketId socket]> (userSockets st)) st)))
    as [Hout Hst].
  destruct (SocketHandler.markPendingMessagesAsDelivered _ (redactState _))
    as [st1 out1].
  destruct (SocketHandler.markPendingMessagesAsDelivered _ _) as [st2 out2].
  simpl in *. by subst.
Qed.

Lemma disconnect_erasable socket now :
  erasable (SocketHandler.onDisconnect socket now).
Proof.
  intros st. unfold SocketHandler.onDisconnect.
  case_decide; [unchanged|].
  change (with_userSockets ?s (redactState st))
    with (redactState (with_userSockets s st)).
  rewrite updateUserStatus_redact. simpl. by rewrite redactState_idemp.
Qed.

Lemma sanitized_redact_list (l : list Message.t) :
  MessageController.sanitizeMessages (messageObject <$> (redact <$> l))
  = MessageController.sanitizeMessages (messageObject <$> l).
Proof.
  unfold MessageController.sanitizeMessages.
  rewrite <-!list_fmap_compose. by apply list_fmap_ext.
Qed.

Lemma getMessages_erasable user conversationId page limit :
  erasable (MessageController.getMessages user conversationId page limit).
Proof.
  apply erasable_read_only; intros st; unfold MessageController.getMessages.
  - destruct (Repo.findConversation _ _); [|done]. by repeat case_decide.
  - unfold Repo.findConversation. simpl.
    destruct (conversations st !! conversationId); [|done].
    repeat case_decide; try done. simpl. do 2 f_equal.
    rewrite findMessages_redact by done.
    rewrite (orderByDesc_fmap redact Message.createdAt Message.createdAt) by done.
    rewrite <-fmap_drop, <-fmap_take. apply sanitized_redact_list.
Qed.

Lemma rest_markAsRead_erasable user messageId :
  erasable (MessageController.markAsRead user messageId).
Proof.
  intros st. unfold MessageController.markAsRead. rewrite findMessage_redact.
  destruct (Repo.findMessage messageId st) as [m|]; [|unchanged]. simpl.
  case_decide; [unchanged|]. split; [done|same_redaction].
Qed.

Lemma rest_update_erasable user messageId content now :
  erasable (MessageController.updateMessage user messageId content now).
Proof.
  intros st. unfold MessageController.updateMessage.
  destruct (_ || _); [unchanged|]. rewrite findMessage_redact.
  destruct (Repo.findMessage messageId st) as [m|]; [|unchanged]. simpl.
  case_decide; [unchanged|].
  destruct (Message.isDeleted m); [unchanged|]. split; [done|same_redaction].
Qed.

Lemma rest_delete_erasable user messageId now :
  erasable (MessageController.deleteMessage user messageId now).
Proof.
  intros st. unfold MessageController.deleteMessage. rewrite findMessage_redact.
  destruct (Repo.findMessage messageId st) as [m|]; [|unchanged]. simpl.
  case_decide; [unchanged|]. split; [done|same_redaction].
Qed.

Lemma createConversation_erasable user participantId now :
  erasable (ConversationController.createConversation user participantId now).
Proof.
  intros st. unfold ConversationController.createConversation.
  case_decide; [unchanged|].
  unfold Repo.findUser. simpl (users (redactState st)).
  destruct (users st !! participantId); [|unchanged].
  rewrite findOrCreateConversation_redact.
  destruct (Repo.findOrCreateConversation _ _ _ _) as [conversation st1].
  unchanged.
Qed.

(** The queries of [getConversations] see the same rows, redacted. *)
Lemma groups_redact l :
  ConversationController.groups (redact <$> l) = ConversationController.groups l.
Proof.
  unfold ConversationController.groups. by rewrite <-list_fmap_compose.
Qed.

Lemma maxIdPerGroup_redact l :
  ConversationController.maxIdPerGroup (redact <$> l)
  = ConversationController.maxIdPerGroup l.
Proof.
  unfold ConversationController.maxIdPerGroup. rewrite groups_redact.
  apply list_omap_ext, Forall2_same_length_lookup_2; [done|].
  intros i g g' Hg Hg'. assert (g' = g) as -> by congruence.
  rewrite (filter_fmap_respects redact (ConversationController.inGroup g)
             (ConversationController.inGroup g)) by done.
  by rewrite <-list_fmap_compose.
Qed.

Lemma countPerGroup_redact l :
  ConversationController.countPerGroup (redact <$> l)
  = ConversationController.countPerGroup l.
Proof.
  unfold ConversationController.countPerGroup. rewrite groups_redact.
  apply list_fmap_ext. intros i g _.
  rewrite (filter_fmap_respects redact (ConversationController.inGroup g)
             (ConversationController.inGroup g)) by done.
  by rewrite length_fmap.
Qed.

Lemma formatConversation_redact user participants lastMessages unreadCounts conv :
  ConversationController.formatConversation user participants
    (redact <$> lastMessages) unreadCounts conv
  = ConversationController.formatConversation user participants
      lastMessages unreadCounts conv.
Proof.
  unfold ConversationController.formatConversation.
  rewrite (find_fmap redact
             (λ m, bool_decide (Message.conversationId m = Conversation.id conv)))
    by done.
  by destruct (List.find _ lastMessages).
Qed.

Lemma getConversations_erasable user :
  erasable (ConversationController.getConversations user).
Proof.
  apply erasable_read_only; intros st;
    unfold ConversationController.getConversations.
  - by destruct (Conversation.id <$> _).
  - simpl. destruct (Conversation.id <$> _) as [|cid cids]; [done|].
    simpl. do 2 f_equal. rewrite !rows_fmap.
    rewrite (filter_fmap_respects redact
               (ConversationController.unreadFor (cid :: cids) user)
               (ConversationController.unreadFor (cid :: cids) user)) by done.
    rewrite countPerGroup_redact.
    rewrite (filter_fmap_respects redact
               (ConversationController.visibleIn (cid :: cids) user)
               (ConversationController.visibleIn (cid :: cids) user)) by done.
    rewrite maxIdPerGroup_redact.
    rewrite (filter_fmap_respects redact
               (λ m, Message.id m ∈ ConversationController.maxIdPerGroup
                       (filter (ConversationController.visibleIn (cid :: cids) user)
                               (rows (messages st))))
               (λ m, Message.id m ∈ ConversationController.maxIdPerGroup
                       (filter (ConversationController.visibleIn (cid :: cids) user)
                               (rows (messages st))))) by done.
    apply list_omap_ext, Forall2_same_length_lookup_2; [done|].
    intros i c c' Hc Hc'. assert (c' = c) as -> by congruence.
    apply formatConversation_redact.
Qed.

Lemma erasable_map {O O'} (F : O → O') (h : State → State * O) :
  erasable h → erasable (λ st, prod_map id F (h st)).
Proof.
  intros Hh st. destruct (Hh st) as [Hout Hst].
  destruct (h (redactState st)), (h st). simpl in *. by subst.
Qed.

Lemma run_erasable op now : erasable (run op now).
Proof.
  destruct op; simpl; apply erasable_map.
  - apply dispatch_erasable.
  - apply connection_erasable.
  - apply disconnect_erasable.
  - apply getMessages_erasable.
  - apply rest_markAsRead_erasable.
  - apply rest_update_erasable.
  - apply rest_delete_erasable.
  - apply getConversations_erasable.
  - apply createConversation_erasable.
Qed.

(** No message object of an output carries a backup field. *)
Lemma notices_carry_no_object (notice : Message.t → Emission) l :
  (∀ m, eventObjects (event (notice m)) = []) →
  (notice <$> l) ≫= (λ e, eventObjects (event e)) = [].
Proof.
  intros Hnotice. induction l as [|m l IH]; [done|].
  rewrite fmap_cons, bind_cons, Hnotice, IH. done.
Qed.

Ltac sanitized :=
  simpl; repeat (apply Forall_cons; split; [apply sanitized_without_backup|]);
  apply Forall_nil_2.

Lemma dispatch_objects_sanitized socket ev now st :
  Forall withoutBackupFields
    (outputObjects (Emitted (SocketHandler.dispatch socket ev now st).2)).
Proof.
  destruct ev; simpl.
  - unfold SocketHandler.handleSendMessage.
    case_decide; [sanitized|]. destruct (Repo.findUser _ _); [|sanitized].
    destruct (Repo.findOrCreateConversation _ _ _ _) as [conversation st1].
    case_decide; [sanitized|]. simpl.
    destruct (userSockets st1 !! receiverId) as [[|? ?]|]; sanitized.
  - unfold SocketHandler.handleMarkAsRead.
    destruct (Js.truthyNumber conversationId).
    + rewrite markOneAsRead_foldl. simpl.
      by rewrite notices_carry_no_object.
    + destruct (Repo.findMessage _ _); [|sanitized]. case_decide; sanitized.
  - unfold SocketHandler.handleTyping.
    destruct (Repo.findConversation _ _); [|sanitized]. case_decide; sanitized.
  - unfold SocketHandler.handleUpdateMessage.
    destruct (_ || _); [sanitized|].
    destruct (Repo.findMessage _ _) as [m|]; [|sanitized].
    case_decide; [sanitized|]. destruct (Message.isDeleted m); sanitized.
  - unfold SocketHandler.handleDeleteMessage.
    destruct (Repo.findMessage _ _) as [m|]; [|sanitized].
    case_decide; sanitized.
Qed.

Lemma formatConversation_sanitized user participants lastMessages unreadCounts
    conv view :
  ConversationController.formatConversation user participants lastMessages
    unreadCounts conv = Some view →
  Forall withoutBackupFields (option_list (ConversationView.lastMessage view)).
Proof.
  unfold ConversationController.formatConversation.
  destruct (match List.find _ lastMessages with Some _ => _ | None => _ end);
    [|done].
  destruct (List.find _ participants); [|done]. intros [= <-]. simpl.
  destruct (List.find _ lastMessages); sanitized.
Qed.

Lemma run_objects_sanitized op now st :
  Forall withoutBackupFields (outputObjects (run op now st).2).
Proof.
  destruct op; simpl.
  - apply dispatch_objects_sanitized.
  - unfold SocketHandler.onConnection. case_decide; [sanitized|].
    unfold SocketHandler.markPendingMessagesAsDelivered.
    rewrite deliverOne_foldl. simpl. by rewrite notices_carry_no_object.
  - unfold SocketHandler.onDisconnect. case_decide; sanitized.
  - unfold MessageController.getMessages.
    destruct (Repo.findConversation _ _); [|sanitized].
    repeat case_decide; try sanitized. simpl.
    apply Forall_fmap, Forall_true. intros o. apply sanitized_without_backup.
  - unfold MessageController.markAsRead.
    destruct (Repo.findMessage _ _); [|sanitized]. case_decide; sanitized.
  - unfold MessageController.updateMessage.
    destruct (_ || _); [sanitized|].
    destruct (Repo.findMessage _ _) as [m|]; [|sanitized].
    case_decide; [sanitized|]. destruct (Message.isDeleted m); sanitized.
  - unfold MessageController.deleteMessage.
    destruct (Repo.findMessage _ _); [|sanitized]. case_decide; sanitized.
  - unfold ConversationController.getConversations.
    destruct (Conversation.id <$> _); [sanitized|]. simpl.
    apply Forall_bind, Forall_forall. intros view Hview.
    apply list_elem_of_omap in Hview as (conv & _ & Hview).
    by eapply formatConversation_sanitized.
  - unfold ConversationController.createConversation.
    case_decide; [sanitized|]. destruct (Repo.findUser _ _); [|sanitized].
    destruct (Repo.findOrCreateConversation _ _ _ _). sanitized.
Qed.

(** C9.  Two stores that differ only in the [originalContent] and
    [editHistory] of their messages give every operation other than
    [getMessageHistory] (socket events, connection and disconnection, REST
    message lists, edits, deletions and read marks, conversation previews and
    creation) the same output, and leave stores that again differ only in
    those two fields; no message object of such an output has either
    property. *)
Theorem backup_fields_confined op now st1 st2 :
  sameButBackup st1 st2 →
  (run op now st1).2 = (run op now st2).2
  ∧ sameButBackup (run op now st1).1 (run op now st2).1
  ∧ Forall withoutBackupFields (outputObjects (run op now st1).2).
Proof.
  intros Hsame. unfold sameButBackup in *.
  destruct (run_erasable op now st1) as [Hout1 Hst1].
  destruct (run_erasable op now st2) as [Hout2 Hst2].
  split; [|split].
  - by rewrite <-Hout1, <-Hout2, Hsame.
  - by rewrite <-Hst1, <-Hst2, Hsame.
  - apply run_objects_sanitized.
Qed.

Lemma backup_fields_confined_witness :
  sameButBackup Sample.chatting Sample.chattingRevised
  ∧ (run (restGetMessages 1 1 None None) 20 Sample.chatting).2
    = (run (restGetMessages 1 1 None None) 20 Sample.chattingRevised).2.
Proof.
  assert (sameButBackup Sample.chatting Sample.chattingRevised) as Hsame
    by reflexivity.
  split; [exact Hsame|].
  exact (proj1 (backup_fields_confined (restGetMessages 1 1 None None) 20 _ _ Hsame)).
Defined.

(** [getMessageHistory] does tell such stores apart. *)
Lemma history_exposes_backup :
  sameButBackup Sample.chatting Sample.chattingRevised
  ∧ (MessageController.getMessageHistory 1 1 Sample.chatting).2
    ≠ (MessageController.getMessageHistory 1 1 Sample.chattingRevised).2.
Proof. split; [reflexivity|]. vm_compute. discriminate. Qed.

(** ** Reachable stores are keyed *)

Lemma saveMessage_keyed m st :
  messagesKeyed st → messagesKeyed (Repo.saveMessage m st).
Proof. intros Hst. by apply map_Forall_insert_2. Qed.

Lemma saveAll_keyed (g : Message.t → Message.t) found st :
  messagesKeyed st →
  messagesKeyed (with_messages (saveAll Message.id g found (messages st)) st).
Proof.
  intros Hst k y Hk. simpl in Hk.
  apply saveAll_lookup in Hk as [(x & _ & Hid & ->)|[Hk _]]; [done|].
  by apply (Hst k).
Qed.

Lemma findOrCreateConversation_messages a b now st :
  messages (Repo.findOrCreateConversation a b now st).2 = messages st.
Proof.
  unfold Repo.findOrCreateConversation.
  by destruct (Repo.findConversationBetween a b st).
Qed.

Lemma updateUserStatus_messages user status seen st :
  messages (SocketHandler.updateUserStatus user status seen st) = messages st.
Proof.
  unfold SocketHandler.updateUserStatus. by destruct (Repo.findUser user st).
Qed.

Lemma run_keeps_messagesKeyed op now st :
  messagesKeyed st → messagesKeyed (run op now st).1.
Proof.
  intros Hst. destruct op as [socket [| | | |]| | | | | | | |]; simpl.
  - unfold SocketHandler.handleSendMessage.
    case_decide; [done|]. destruct (Repo.findUser _ _); [|done].
    pose proof (findOrCreateConversation_messages (userId socket) receiverId now st)
      as Hsame.
    destruct (Repo.findOrCreateConversation _ _ _ _) as [conversation st1].
    simpl in Hsame. case_decide; [simpl; unfold messagesKeyed; by rewrite Hsame|].
    simpl.
    destruct (userSockets st1 !! receiverId) as [[|? ?]|]; simpl;
      unfold messagesKeyed; simpl; rewrite Hsame;
      repeat (apply map_Forall_insert_2; [done|]); done.
  - unfold SocketHandler.handleMarkAsRead.
    destruct (Js.truthyNumber conversationId).
    + rewrite markOneAsRead_foldl. simpl. by apply saveAll_keyed.
    + destruct (Repo.findMessage _ _); [|done]. case_decide; [done|].
      by apply saveMessage_keyed.
  - unfold SocketHandler.handleTyping.
    destruct (Repo.findConversation _ _); [|done]. by case_decide.
  - unfold SocketHandler.handleUpdateMessage.
    destruct (_ || _); [done|]. destruct (Repo.findMessage _ _) as [m|]; [|done].
    case_decide; [done|]. destruct (Message.isDeleted m); [done|].
    by apply saveMessage_keyed.
  - unfold SocketHandler.handleDeleteMessage.
    destruct (Repo.findMessage _ _) as [m|]; [|done]. case_decide; [done|].
    by apply saveMessage_keyed.
  - unfold SocketHandler.onConnection. case_decide; [done|].
    unfold SocketHandler.markPendingMessagesAsDelivered.
    rewrite deliverOne_foldl. simpl. apply saveAll_keyed.
    unfold messagesKeyed. by rewrite updateUserStatus_messages.
  - unfold SocketHandler.onDisconnect. case_decide; [done|]. simpl.
    unfold messagesKeyed. by rewrite updateUserStatus_messages.
  - unfold MessageController.getMessages.
    destruct (Repo.findConversation _ _); [|done]. by repeat case_decide.
  - unfold MessageController.markAsRead.
    destruct (Repo.findMessage _ _); [|done]. case_decide; [done|].
    by apply saveMessage_keyed.
  - unfold MessageController.updateMessage.
    destruct (_ || _); [done|]. destruct (Repo.findMessage _ _) as [m|]; [|done].
    case_decide; [done|]. destruct (Message.isDeleted m); [done|].
    by apply saveMessage_keyed.
  - unfold MessageController.deleteMessage.
    destruct (Repo.findMessage _ _); [|done]. case_decide; [done|].
    by apply saveMessage_keyed.
  - unfold ConversationController.getConversations.
    by destruct (Conversation.id <$> _).
  - unfold ConversationController.createConversation.
    case_decide; [done|]. destruct (Repo.findUser _ _); [|done].
    pose proof (findOrCreateConversation_messages user participantId now st)
      as Hsame.
    destruct (Repo.findOrCreateConversation _ _ _ _) as [conversation st1].
    simpl in *. unfold messagesKeyed. by rewrite Hsame.
Qed.

Lemma reachable_messagesKeyed st : reachable st → messagesKeyed st.
Proof.
  induction 1 as [|u st _ IH|op now st _ IH].
  - apply map_Forall_empty.
  - exact IH.
  - by apply run_keeps_messagesKeyed.
Qed.

(** ** Resolution through the REST endpoint *)

Lemma findOrCreateConversation_users a b now st :
  users (Repo.findOrCreateConversation a b now st).2 = users st.
Proof.
  unfold Repo.findOrCreateConversation.
  by destruct (Repo.findConversationBetween a b st).
Qed.

Lemma createConversation_found user participantId now st participant :
  participantId ≠ 0 →
  Repo.findUser participantId st = Some participant →
  ConversationController.createConversation user participantId now st
  = let resolved := Repo.findOrCreateConversation user participantId now st in
    (resolved.2,
     respond 200
       (JConversation
          (ConversationView.mk (Conversation.id resolved.1)
             (User.select participant) None 0
             (Conversation.updatedAt resolved.1)))).
Proof.
  intros Hp Hfound. unfold ConversationController.createConversation.
  rewrite decide_False, Hfound by done.
  by destruct (Repo.findOrCreateConversation _ _ _ _).
Qed.

(** X28.  The two participants asking for their conversation, one after the
    other, get the same id, and the second request creates nothing. *)
Lemma createConversation_symmetric a b now now' st ua ub :
  a ≠ 0 → b ≠ 0 →
  Repo.findUser a st = Some ua → Repo.findUser b st = Some ub →
  let first := ConversationController.createConversation a b now st in
  let second := ConversationController.createConversation b a now' first.1 in
  second.1 = first.1
  ∧ ∃ v1 v2,
      first.2 = respond 200 (JConversation v1)
      ∧ second.2 = respond 200 (JConversation v2)
      ∧ ConversationView.id v1 = ConversationView.id v2.
Proof.
  intros Ha Hb Hua Hub. simpl.
  rewrite (createConversation_found a b now st ub) by done. simpl.
  rewrite (createConversation_found b a now' _ ua); [|done|].
  - rewrite findOrCreateConversation_again. simpl. split; [done|]. eauto.
  - unfold Repo.findUser in *. by rewrite findOrCreateConversation_users.
Qed.

(** ** One conversation per pair *)

Lemma betweenUsers_swap c1 c2 :
  Repo.betweenUsers (Conversation.user1Id c1) (Conversation.user2Id c1) c2 →
  Repo.betweenUsers (Conversation.user1Id c2) (Conversation.user2Id c2) c1.
Proof. unfold Repo.betweenUsers. intros [[? ?]|[? ?]]; auto. Qed.

Lemma findOrCreateConversation_deduplicated a b now st :
  deduplicated st →
  let resolved := Repo.findOrCreateConversation a b now st in
  deduplicated resolved.2
  ∧ conversations resolved.2 !! Conversation.id resolved.1 = Some resolved.1.
Proof.
  intros [Hkey Huniq]. simpl. unfold Repo.findOrCreateConversation.
  destruct (Repo.findConversationBetween a b st) as [c|] eqn:Hfind; simpl.
  - split; [done|].
    apply firstMatch_Some in Hfind as [[k Hk]%elem_of_rows _].
    by rewrite (Hkey _ _ Hk).
  - pose proof (proj1 (firstMatch_None _ _) Hfind) as Hfresh.
    assert (∀ k c, conversations st !! k = Some c → ¬ Repo.betweenUsers a b c)
      as Hnone.
    { intros k c Hk. apply Hfresh, elem_of_rows. eauto. }
    split; [split|apply lookup_insert_eq].
    + by apply map_Forall_insert_2.
    + intros k1 k2 c1 c2 Hk1 Hk2 Hsame. simpl in Hk1, Hk2.
      destruct (decide (conversationSeq st = k1)) as [<-|Hne1];
        destruct (decide (conversationSeq st = k2)) as [<-|Hne2]; [done|..].
      * rewrite lookup_insert_eq in Hk1. rewrite lookup_insert_ne in Hk2 by done.
        injection Hk1 as <-. by destruct (Hnone _ _ Hk2).
      * rewrite lookup_insert_eq in Hk2. rewrite lookup_insert_ne in Hk1 by done.
        injection Hk2 as <-. destruct (Hnone _ _ Hk1).
        by apply betweenUsers_swap in Hsame.
      * rewrite lookup_insert_ne in Hk1, Hk2 by done. by eapply Huniq.
Qed.

Lemma touch_deduplicated c now st :
  deduplicated st →
  conversations st !! Conversation.id c = Some c →
  deduplicated (Repo.saveConversation (Conversation.set_updatedAt now c) st).
Proof.
  intros [Hkey Huniq] Hc. split.
  - by apply map_Forall_insert_2.
  - intros k1 k2 c1 c2 Hk1 Hk2 Hsame. simpl in Hk1, Hk2.
    assert (∀ k c', <[Conversation.id c := Conversation.set_updatedAt now c]>
                      (conversations st) !! k = Some c' →
                    ∃ c0, conversations st !! k = Some c0
                          ∧ Conversation.user1Id c0 = Conversation.user1Id c'
                          ∧ Conversation.user2Id c0 = Conversation.user2Id c')
      as Hold.
    { intros k c' Hk. destruct (decide (Conversation.id c = k)) as [<-|Hne].
      - rewrite lookup_insert_eq in Hk. injection Hk as <-. eauto.
      - rewrite lookup_insert_ne in Hk by done. eauto. }
    destruct (Hold _ _ Hk1) as (c1' & Hk1' & Hu1 & Hu2).
    destruct (Hold _ _ Hk2) as (c2' & Hk2' & Hv1 & Hv2).
    apply (Huniq k1 k2 c1' c2' Hk1' Hk2').
    unfold Repo.betweenUsers in *. by rewrite Hu1, Hu2, Hv1, Hv2.
Qed.

Ltac untouched := simpl; first [done | by repeat case_decide].

(** Every operation keeps the conversations deduplicated. *)
Lemma run_keeps_deduplicated op now st :
  deduplicated st → deduplicated (run op now st).1.
Proof.
  intros Hst. destruct op as [socket [| | | |]| | | | | | | |]; simpl.
  - unfold SocketHandler.handleSendMessage.
    case_decide; [done|]. destruct (Repo.findUser _ _); [|done].
    destruct (findOrCreateConversation_deduplicated (userId socket) receiverId
                now st Hst) as [Hst1 Hc].
    destruct (Repo.findOrCreateConversation _ _ _ _) as [c st1]. simpl in *.
    case_decide; [done|]. simpl.
    pose proof (touch_deduplicated c now st1 Hst1 Hc) as Htouched.
    by destruct (userSockets st1 !! receiverId) as [[|? ?]|].
  - unfold SocketHandler.handleMarkAsRead.
    destruct (Js.truthyNumber conversationId).
    + by rewrite markOneAsRead_foldl.
    + destruct (Repo.findMessage _ _); untouched.
  - unfold SocketHandler.handleTyping.
    destruct (Repo.findConversation _ _); untouched.
  - unfold SocketHandler.handleUpdateMessage.
    destruct (_ || _); [done|]. destruct (Repo.findMessage _ _) as [m|]; [|done].
    case_decide; [done|]. by destruct (Message.isDeleted m).
  - unfold SocketHandler.handleDeleteMessage.
    destruct (Repo.findMessage _ _); untouched.
  - unfold SocketHandler.onConnection. case_decide; [done|].
    unfold SocketHandler.markPendingMessagesAsDelivered, 
      SocketHandler.updateUserStatus.
    rewrite deliverOne_foldl. simpl. by destruct (Repo.findUser _ _).
  - unfold SocketHandler.onDisconnect, SocketHandler.updateUserStatus.
    case_decide; [done|]. simpl. by destruct (Repo.findUser _ _).
  - unfold MessageController.getMessages.
    destruct (Repo.findConversation _ _); untouched.
  - unfold MessageController.markAsRead.
    destruct (Repo.findMessage _ _); untouched.
  - unfold MessageController.updateMessage.
    destruct (_ || _); [done|]. destruct (Repo.findMessage _ _) as [m|]; [|done].
    case_decide; [done|]. by destruct (Message.isDeleted m).
  - unfold MessageController.deleteMessage.
    destruct (Repo.findMessage _ _); untouched.
  - unfold ConversationController.getConversations.
    by destruct (Conversation.id <$> _).
  - unfold ConversationController.createConversation.
    case_decide; [done|]. destruct (Repo.findUser _ _); [|done].
    destruct (findOrCreateConversation_deduplicated user participantId now st Hst)
      as [Hst1 _].
    by destruct (Repo.findOrCreateConversation _ _ _ _).
Qed.

(** X26.  When the operations run one at a time, each to its end before the
    next one starts, every store reached has each conversation under its own
    id and no two conversations between the same pair of users, in either
    order.  ([reachable] has no step for two handlers interleaved at their
    awaits; [interleaved_resolves_duplicate] shows what that gives.) *)
Lemma reachable_deduplicated st : reachable st → deduplicated st.
Proof.
  induction 1 as [|u st _ IH|op now st _ IH].
  - split; [apply map_Forall_empty|]. intros k1 k2 c1 c2 Hk1. done.
  - exact IH.
  - by apply run_keeps_deduplicated.
Qed.

(** In a deduplicated store the conversation of a pair is the one found. *)
Lemma findConversationBetween_stored a b st k c :
  deduplicated st →
  conversations st !! k = Some c → Repo.betweenUsers a b c →
  Repo.findConversationBetween a b st = Some c.
Proof.
  intros [_ Huniq] Hk Hc. unfold Repo.findConversationBetween.
  apply firstMatch_unique; [apply elem_of_rows; eauto|done|].
  intros c' [k' Hk']%elem_of_rows Hc'.
  assert (k = k') as <-; [|congruence].
  apply (Huniq k k' c c' Hk Hk'). clear -Hc Hc'.
  unfold Repo.betweenUsers in *.
  destruct Hc as [[<- <-]|[<- <-]], Hc' as [[? ?]|[? ?]]; auto.
Qed.

(** What an accepted [sendMessage] stores. *)
Lemma send_accepted socket receiverId content now st receiver :
  userId socket ≠ receiverId →
  Repo.findUser receiverId st = Some receiver →
  let resolved :=
    Repo.findOrCreateConversation (userId socket) receiverId now st in
  let after := (SocketHandler.handleSendMessage socket receiverId content now st).1 in
  users after = users st
  ∧ conversations after
    = <[Conversation.id resolved.1 := Conversation.set_updatedAt now resolved.1]>
        (conversations resolved.2)
  ∧ ∃ m, Repo.findMessage (messageSeq st) after = Some m
         ∧ Message.conversationId m = Conversation.id resolved.1.
Proof.
  intros Hne Hreceiver. simpl. unfold SocketHandler.handleSendMessage.
  rewrite decide_False, Hreceiver by done.
  pose proof (findOrCreateConversation_between (userId socket) receiverId now st)
    as Hbetween.
  pose proof (findOrCreateConversation_users (userId socket) receiverId now st)
    as Husers.
  assert (messageSeq (Repo.findOrCreateConversation (userId socket) receiverId
                        now st).2 = messageSeq st) as Hseq.
  { unfold Repo.findOrCreateConversation.
    by destruct (Repo.findConversationBetween _ _ _). }
  destruct (Repo.findOrCreateConversation _ _ _ _) as [c st1]. simpl in *.
  rewrite decide_False by (intros [? ?]; destruct Hbetween as [[? ?]|[? ?]]; done).
  simpl. unfold Repo.findMessage.
  destruct (userSockets st1 !! receiverId) as [[|? ?]|]; simpl;
    rewrite Hseq, lookup_insert_eq; eauto.
Qed.

(** X27.  A message from [a] to [b] and then one from [b] to [a] land in the
    same conversation. *)
Lemma send_both_ways a b content content' now now' st ua ub :
  deduplicated st →
  userId a ≠ userId b →
  Repo.findUser (userId a) st = Some ua →
  Repo.findUser (userId b) st = Some ub →
  let first := (SocketHandler.handleSendMessage a (userId b) content now st).1 in
  let second :=
    (SocketHandler.handleSendMessage b (userId a) content' now' first).1 in
  ∃ m m',
    Repo.findMessage (messageSeq st) first = Some m
    ∧ Repo.findMessage (messageSeq first) second = Some m'
    ∧ Message.conversationId m' = Message.conversationId m.
Proof.
  intros Hst Hne Hua Hub. simpl.
  destruct (send_accepted a (userId b) content now st ub Hne Hub)
    as (Husers & Hconvs & m & Hm & Hcid).
  assert (Repo.findUser (userId a)
            (SocketHandler.handleSendMessage a (userId b) content now st).1
          = Some ua) as Hua'.
  { unfold Repo.findUser in *. by rewrite Husers. }
  destruct (send_accepted b (userId a) content' now' _ ua (not_eq_sym Hne) Hua')
    as (_ & _ & m' & Hm' & Hcid').
  exists m, m'. split; [done|]. split; [done|].
  rewrite Hcid, Hcid'. clear Hm Hm' Hcid Hcid' Hua'.
  assert (deduplicated
            (SocketHandler.handleSendMessage a (userId b) content now st).1)
    as Hfirst.
  { apply (run_keeps_deduplicated (socketEvent a (sendMessage (userId b) content))
             now st Hst). }
  pose proof (findOrCreateConversation_between (userId a) (userId b) now st)
    as Hbetween.
  set (c := (Repo.findOrCreateConversation (userId a) (userId b) now st).1) in *.
  unfold Repo.findOrCreateConversation at 1.
  rewrite (findConversationBetween_stored (userId b) (userId a) _
             (Conversation.id c) (Conversation.set_updatedAt now c) Hfirst).
  - done.
  - rewrite Hconvs. apply lookup_insert_eq.
  - apply betweenUsers_sym. exact Hbetween.
Qed.

(** * Further properties *)

(** ** The passes over selected rows *)

Lemma saveAll_selected (P : Message.t → Prop) `{!∀ m, Decision (P m)}
    (g : Message.t → Message.t) (table : gmap Z Message.t) :
  map_Forall (λ k m, Message.id m = k) table →
  (∀ m, Message.id (g m) = Message.id m) →
  saveAll Message.id g (filter P (rows table)) table = rewriteWhere P g table.
Proof.
  intros Hkey Hid. apply map_eq. intros k.
  unfold rewriteWhere. rewrite lookup_fmap.
  assert (∀ x, x ∈ filter P (rows table) → table !! Message.id x = Some x ∧ P x)
    as Hsel.
  { intros x [HP [k' Hk']%elem_of_rows]%list_elem_of_filter.
    by rewrite (Hkey _ _ Hk'). }
  destruct (table !! k) as [m|] eqn:Hk; simpl.
  - pose proof (Hkey _ _ Hk) as Hm. simpl in Hm.
    destruct (saveAll_is_Some Message.id g (filter P (rows table)) table k)
      as [y Hy]; [by eexists|].
    rewrite Hy. f_equal.
    apply saveAll_lookup in Hy as [(x & Hx & Hkx & ->)|[Hy Hfresh]].
    + destruct (Hsel _ Hx) as [Hx' HPx]. rewrite Hid in Hkx.
      rewrite Hkx, Hk in Hx'. injection Hx' as <-. by rewrite decide_True.
    + rewrite Hk in Hy. injection Hy as <-.
      case_decide as HP; [|done]. exfalso. apply (Hfresh m).
      * apply list_elem_of_filter. split; [done|]. apply elem_of_rows. eauto.
      * by rewrite Hid.
  - destruct (saveAll Message.id g (filter P (rows table)) table !! k)
      as [y|] eqn:Hy; [|done]. exfalso.
    apply saveAll_lookup in Hy as [(x & Hx & Hkx & _)|[Hy _]]; [|congruence].
    destruct (Hsel _ Hx) as [Hx' _]. rewrite Hid in Hkx. congruence.
Qed.

(** ** The delivery sweep *)

(** X1.  The delivery sweep for a user rewrites exactly the undelivered
    messages addressed to that user, setting [isDelivered] on each and leaving
    every other row as it was, and it emits one [messageDelivered] notice per
    such message, to the room of its sender. *)
Theorem sweep_delivers_pending user st :
  messagesKeyed st →
  SocketHandler.markPendingMessagesAsDelivered user st
  = (with_messages
       (rewriteWhere (SocketHandler.undeliveredTo user)
                     (Message.set_isDelivered true) (messages st)) st,
     deliveryNotice <$> Repo.findMessages (SocketHandler.undeliveredTo user) st).
Proof.
  intros Hkey. unfold SocketHandler.markPendingMessagesAsDelivered.
  rewrite deliverOne_foldl. simpl. unfold Repo.findMessages.
  by rewrite saveAll_selected.
Qed.

Lemma sweep_delivers_pending_witness :
  SocketHandler.markPendingMessagesAsDelivered 2 Sample.chatting
  = (with_messages
       (rewriteWhere (SocketHandler.undeliveredTo 2)
                     (Message.set_isDelivered true) (messages Sample.chatting))
       Sample.chatting,
     deliveryNotice
       <$> Repo.findMessages (SocketHandler.undeliveredTo 2) Sample.chatting).
Proof.
  assert (messagesKeyed Sample.chatting) as Hkey by compute_done.
  exact (sweep_delivers_pending 2 Sample.chatting Hkey).
Defined.

#[local] Arguments stripBackupFields : simpl never.
#[local] Arguments messageObject : simpl never.

(** X2.  Once the sweep has run for a user, no message addressed to that
    user is undelivered, and a second sweep changes nothing and emits
    nothing. *)
Theorem sweep_twice user st :
  messagesKeyed st →
  let once := SocketHandler.markPendingMessagesAsDelivered user st in
  Repo.findMessages (SocketHandler.undeliveredTo user) once.1 = []
  ∧ SocketHandler.markPendingMessagesAsDelivered user once.1 = (once.1, []).
Proof.
  intros Hkey. simpl.
  assert (Repo.findMessages (SocketHandler.undeliveredTo user)
            (SocketHandler.markPendingMessagesAsDelivered user st).1 = [])
    as Hnone.
  { unfold SocketHandler.markPendingMessagesAsDelivered.
    rewrite deliverOne_foldl. simpl. unfold Repo.findMessages. simpl.
    rewrite saveAll_selected by done. unfold rewriteWhere.
    rewrite rows_fmap. apply filter_none.
    intros y (m & -> & _)%list_elem_of_fmap.
    case_decide as Hm; [by intros [_ ?]|done]. }
  split; [done|].
  unfold SocketHandler.markPendingMessagesAsDelivered at 1. by rewrite Hnone.
Qed.

Lemma sweep_twice_witness :
  SocketHandler.markPendingMessagesAsDelivered 2
    (SocketHandler.markPendingMessagesAsDelivered 2 Sample.chatting).1
  = ((SocketHandler.markPendingMessagesAsDelivered 2 Sample.chatting).1, []).
Proof.
  assert (messagesKeyed Sample.chatting) as Hkey by compute_done.
  exact (proj2 (sweep_twice 2 Sample.chatting Hkey)).
Defined.

(** ** The conversation form of [markAsRead] *)

(** X3.  The conversation form of the socket [markAsRead] rewrites exactly
    the unread messages of that conversation that are addressed to the
    caller, setting [isRead] and [isDelivered] on each and leaving every
    other row as it was (messages of other conversations, messages the
    caller sent), and emits one [messageRead] notice per such message to the
    room of its sender. *)
Theorem markAsRead_conversation socket messageId conversationId st :
  messagesKeyed st →
  conversationId ≠ 0 →
  SocketHandler.handleMarkAsRead socket messageId (Some conversationId) st
  = (with_messages
       (rewriteWhere (SocketHandler.unreadIn conversationId (userId socket))
                     markRead (messages st)) st,
     readNotice conversationId
       <$> Repo.findMessages
             (SocketHandler.unreadIn conversationId (userId socket)) st).
Proof.
  intros Hkey Hc. unfold SocketHandler.handleMarkAsRead. simpl.
  rewrite decide_False by done.
  rewrite markOneAsRead_foldl. simpl. unfold Repo.findMessages.
  by rewrite saveAll_selected.
Qed.

Lemma markAsRead_conversation_witness :
  SocketHandler.handleMarkAsRead Sample.bob 0 (Some 1) Sample.chatting
  = (with_messages
       (rewriteWhere (SocketHandler.unreadIn 1 2) markRead
                     (messages Sample.chatting)) Sample.chatting,
     readNotice 1 <$> Repo.findMessages (SocketHandler.unreadIn 1 2) Sample.chatting).
Proof.
  assert (messagesKeyed Sample.chatting) as Hkey by compute_done.
  assert (1 ≠ 0) as Hc by lia.
  exact (markAsRead_conversation Sample.bob 0 1 Sample.chatting Hkey Hc).
Defined.

(** ** What an accepted [sendMessage] does *)

Lemma findOrCreateConversation_frame a b now st :
  let resolved := Repo.findOrCreateConversation a b now st in
  users resolved.2 = users st
  ∧ messages resolved.2 = messages st
  ∧ messageSeq resolved.2 = messageSeq st
  ∧ userSockets resolved.2 = userSockets st.
Proof.
  simpl. unfold Repo.findOrCreateConversation.
  by destruct (Repo.findConversationBetween a b st).
Qed.

Lemma send_outcome socket receiverId content now st receiver :
  userId socket ≠ receiverId →
  Repo.findUser receiverId st = Some receiver →
  let resolved :=
    Repo.findOrCreateConversation (userId socket) receiverId now st in
  let stored delivered :=
    Message.mk (messageSeq st) content (Some content) (Some []) (userId socket)
               receiverId (Conversation.id resolved.1) false delivered
               false None false None now now in
  let after := SocketHandler.handleSendMessage socket receiverId content now st in
  Repo.findMessage (messageSeq st) after.1 = Some (stored (isOnline receiverId st))
  ∧ messageSeq after.1 = messageSeq st + 1
  ∧ Repo.findConversation (Conversation.id resolved.1) after.1
    = Some (Conversation.set_updatedAt now resolved.1)
  ∧ after.2
    = emit (ToSocket socket)
           (newMessage (stripBackupFields (messageObject (stored false))))
      :: (if isOnline receiverId st
          then [emit (ToRoom receiverId)
                     (newMessage (stripBackupFields (messageObject (stored true))));
                emit (ToSocket socket)
                     (messageDelivered (messageSeq st)
                                       (Conversation.id resolved.1))]
          else []).
Proof.
  intros Hne Hreceiver. simpl. unfold SocketHandler.handleSendMessage.
  rewrite decide_False, Hreceiver by done.
  pose proof (findOrCreateConversation_between (userId socket) receiverId now st)
    as Hbetween.
  destruct (findOrCreateConversation_frame (userId socket) receiverId now st)
    as (_ & _ & Hseq & Hsockets).
  destruct (Repo.findOrCreateConversation _ _ _ _) as [c st1]. simpl in *.
  rewrite decide_False by (intros [? ?]; destruct Hbetween as [[? ?]|[? ?]]; done).
  unfold isOnline. simpl. rewrite Hsockets, Hseq.
  unfold Repo.findMessage, Repo.findConversation, SocketHandler.sanitizeMessage.
  destruct (userSockets st !! receiverId) as [[|? ?]|]; simpl;
    rewrite ?lookup_insert_eq; done.
Qed.


(** X4.  A [sendMessage] to another, existing user, with a content that
    the database stores as sent, stores one new message under the next id of
    the sequence, with [originalContent] equal to the content as sent, an
    empty history and [isRead] false, in the conversation of the pair, whose
    [updatedAt] becomes the time of sending.  The sender's connection gets
    the [newMessage] echo, which always shows the message as undelivered.
    If the receiver is on record as connected, the stored message is
    delivered, the receiver's room gets [newMessage] and the sender's
    connection gets [messageDelivered]; otherwise the message is stored
    undelivered and nothing else is emitted. *)
Theorem send_stores_and_routes socket receiverId content now st receiver :
  Db.text content →
  userId socket ≠ receiverId →
  Repo.findUser receiverId st = Some receiver →
  let resolved :=
    Repo.findOrCreateConversation (userId socket) receiverId now st in
  let stored delivered :=
    Message.mk (messageSeq st) content (Some content) (Some []) (userId socket)
               receiverId (Conversation.id resolved.1) false delivered
               false None false None now now in
  let after := SocketHandler.handleSendMessage socket receiverId content now st in
  Repo.findMessage (messageSeq st) after.1 = Some (stored (isOnline receiverId st))
  ∧ messageSeq after.1 = messageSeq st + 1
  ∧ Repo.findConversation (Conversation.id resolved.1) after.1
    = Some (Conversation.set_updatedAt now resolved.1)
  ∧ after.2
    = emit (ToSocket socket)
           (newMessage (stripBackupFields (messageObject (stored false))))
      :: (if isOnline receiverId st
          then [emit (ToRoom receiverId)
                     (newMessage (stripBackupFields (messageObject (stored true))));
                emit (ToSocket socket)
                     (messageDelivered (messageSeq st)
                                       (Conversation.id resolved.1))]
          else []).
Proof. intros _. apply send_outcome. Qed.

Lemma send_stores_and_routes_witness :
  (SocketHandler.handleSendMessage Sample.alice 2 (Js.lit "yo") 20 Sample.chatting).2
  = [emit (ToSocket Sample.alice)
          (newMessage
             (stripBackupFields
                (messageObject
                   (Message.mk 2 (Js.lit "yo") (Some (Js.lit "yo")) (Some []) 1 2
                               1 false false false None false None 20 20))))].
Proof.
  assert (Db.text (Js.lit "yo")) as Htext by (split; [compute_done|reflexivity]).
  assert (userId Sample.alice ≠ 2) as Hne by (simpl; lia).
  assert (Repo.findUser 2 Sample.chatting = Some (Sample.user 2 "bob")) as Hbob
    by reflexivity.
  exact (proj2 (proj2 (proj2
           (send_stores_and_routes Sample.alice 2 (Js.lit "yo") 20 Sample.chatting
              _ Htext Hne Hbob)))).
Defined.

(** ** Delivery on reconnection *)

Lemma updateUserStatus_frame user status seen st :
  let after := SocketHandler.updateUserStatus user status seen st in
  messages after = messages st
  ∧ conversations after = conversations st
  ∧ userSockets after = userSockets st
  ∧ messageSeq after = messageSeq st
  ∧ conversationSeq after = conversationSeq st.
Proof.
  simpl. unfold SocketHandler.updateUserStatus.
  by destruct (Repo.findUser user st).
Qed.

Lemma connection_messages socket now st :
  messagesKeyed st →
  userId socket ≠ 0 →
  messages (SocketHandler.onConnection socket now st).1
  = rewriteWhere (SocketHandler.undeliveredTo (userId socket))
                 (Message.set_isDelivered true) (messages st)
  ∧ ∀ m, m ∈ rows (messages st) →
         SocketHandler.undeliveredTo (userId socket) m →
         deliveryNotice m ∈ (SocketHandler.onConnection socket now st).2.
Proof.
  intros Hkey Hne. unfold SocketHandler.onConnection.
  rewrite decide_False by done.
  set (st1 := SocketHandler.updateUserStatus _ _ _ _).
  assert (messages st1 = messages st) as Hsame.
  { unfold st1. by rewrite (proj1 (updateUserStatus_frame _ _ _ _)). }
  unfold SocketHandler.markPendingMessagesAsDelivered.
  rewrite deliverOne_foldl. simpl. unfold Repo.findMessages. rewrite Hsame.
  split; [by rewrite saveAll_selected|].
  intros m Hm Hpending. right. apply list_elem_of_fmap. exists m.
  split; [done|]. by apply list_elem_of_filter.
Qed.

(** X5.  A message sent while the receiver has no connection on record is
    stored undelivered; when the receiver then connects, the sweep of the
    [connection] callback marks it delivered and emits [messageDelivered],
    with its id and conversation, to the room of the sender. *)
Theorem offline_message_delivered_on_connect sender receiver content now now'
    st r :
  messagesKeyed st →
  userId sender ≠ userId receiver →
  userId receiver ≠ 0 →
  Repo.findUser (userId receiver) st = Some r →
  isOnline (userId receiver) st = false →
  let conversation :=
    (Repo.findOrCreateConversation (userId sender) (userId receiver) now st).1 in
  let sent :=
    (SocketHandler.handleSendMessage sender (userId receiver) content now st).1 in
  let connected := SocketHandler.onConnection receiver now' sent in
  Message.isDelivered <$> Repo.findMessage (messageSeq st) sent = Some false
  ∧ Message.isDelivered <$> Repo.findMessage (messageSeq st) connected.1
    = Some true
  ∧ emit (ToRoom (userId sender))
         (messageDelivered (messageSeq st) (Conversation.id conversation))
    ∈ connected.2.
Proof.
  intros Hkey Hne Hreceiver Hr Hoffline. simpl.
  destruct (send_outcome sender (userId receiver) content now st r Hne Hr)
    as (Hstored & _).
  rewrite Hoffline in Hstored.
  assert (messagesKeyed
            (SocketHandler.handleSendMessage sender (userId receiver) content
               now st).1) as Hsent.
  { apply (run_keeps_messagesKeyed
             (socketEvent sender (sendMessage (userId receiver) content))
             now st Hkey). }
  destruct (connection_messages receiver now' _ Hsent Hreceiver)
    as [Hmessages Hnotices].
  split; [by rewrite Hstored|]. split.
  - unfold Repo.findMessage in *. rewrite Hmessages. unfold rewriteWhere.
    rewrite lookup_fmap, Hstored. simpl. by rewrite decide_True.
  - apply (Hnotices _ (proj2 (elem_of_rows _ _) (ex_intro _ _ Hstored))).
    done.
Qed.

Lemma offline_message_delivered_on_connect_witness :
  Message.isDelivered
    <$> Repo.findMessage 2
          (SocketHandler.onConnection Sample.bob 30
             (SocketHandler.handleSendMessage Sample.alice 2 (Js.lit "yo") 20
                Sample.chatting).1).1
  = Some true.
Proof.
  assert (messagesKeyed Sample.chatting) as Hkey by compute_done.
  assert (userId Sample.alice ≠ userId Sample.bob) as Hne by (simpl; lia).
  assert (userId Sample.bob ≠ 0) as Hbob by (simpl; lia).
  assert (Repo.findUser (userId Sample.bob) Sample.chatting
          = Some (Sample.user 2 "bob")) as Hr by reflexivity.
  assert (isOnline (userId Sample.bob) Sample.chatting = false) as Hoff
    by reflexivity.
  exact (proj1 (proj2
           (offline_message_delivered_on_connect Sample.alice Sample.bob
              (Js.lit "yo") 20 30 Sample.chatting _ Hkey Hne Hbob Hr Hoff))).
Defined.

(** ** Typing indicators *)

(** X6.  [typing] never changes the store and emits at most one event.  It
    emits one exactly when the conversation exists and the caller is one of
    its two participants, and that event goes to the room of the other
    participant. *)
Theorem typing_reaches_other_participant socket conversationId st :
  let result := SocketHandler.handleTyping socket conversationId st in
  result.1 = st
  ∧ (length result.2 ≤ 1)%nat
  ∧ (result.2 ≠ []
     ↔ ∃ c, Repo.findConversation conversationId st = Some c
            ∧ ConversationController.involves (userId socket) c)
  ∧ ∀ e, e ∈ result.2 →
      ∃ c other,
        Repo.findConversation conversationId st = Some c
        ∧ Repo.betweenUsers (userId socket) other c
        ∧ e = emit (ToRoom other) (typing (userId socket) conversationId).
Proof.
  simpl. unfold SocketHandler.handleTyping, ConversationController.involves.
  destruct (Repo.findConversation conversationId st) as [c|]; simpl.
  - destruct (decide (Conversation.user1Id c ≠ userId socket
                      ∧ Conversation.user2Id c ≠ userId socket)) as [Hout|Hin];
      simpl.
    + split; [done|]. split; [lia|]. split.
      * split; [done|]. intros (c' & [= <-] & [?|?]); tauto.
      * intros e He. by apply not_elem_of_nil in He.
    + split; [done|]. split; [lia|]. split.
      * split; [|done]. intros _. exists c. split; [done|].
        destruct (decide (Conversation.user1Id c = userId socket)); [by left|].
        destruct (decide (Conversation.user2Id c = userId socket)); [by right|].
        tauto.
      * intros e ->%list_elem_of_singleton. exists c. eexists.
        split; [done|]. split; [|done]. unfold Repo.betweenUsers.
        case_decide as Hfirst; [by left|]. right. split; [done|].
        destruct (decide (Conversation.user2Id c = userId socket)); [done|tauto].
  - split; [done|]. split; [lia|]. split.
    + split; [done|]. by intros (c & [=] & _).
    + intros e He. by apply not_elem_of_nil in He.
Qed.

(** ** Who may edit and delete *)

(** X7.  Only the sender can edit or delete a message: for anyone else both
    delete paths answer "Access denied" (403 over REST) and both edit paths
    are rejected, and none of the four changes the store. *)
Theorem only_sender_edits_or_deletes socket messageId content now st m :
  Repo.findMessage messageId st = Some m →
  Message.senderId m ≠ userId socket →
  SocketHandler.handleDeleteMessage socket messageId now st
  = (st, [emit (ToSocket socket) (error "Access denied")])
  ∧ MessageController.deleteMessage (userId socket) messageId now st
    = (st, respond 403 (JMessage "Access denied"))
  ∧ (SocketHandler.handleUpdateMessage socket messageId content now st).1 = st
  ∧ reportsError (SocketHandler.handleUpdateMessage socket messageId content now st).2
  ∧ (MessageController.updateMessage (userId socket) messageId content now st).1
    = st
  ∧ status (MessageController.updateMessage (userId socket) messageId content
              now st).2 ∈ [400; 403].
Proof.
  intros Hfind Hother.
  unfold SocketHandler.handleDeleteMessage, MessageController.deleteMessage,
    SocketHandler.handleUpdateMessage, MessageController.updateMessage,
    reportsError.
  rewrite Hfind, !decide_True by done.
  destruct (_ || _); simpl; repeat split; try (apply Exists_cons_hd; by eexists);
    set_solver.
Qed.

Lemma only_sender_edits_or_deletes_witness :
  SocketHandler.handleDeleteMessage Sample.bob 1 20 Sample.chatting
  = (Sample.chatting, [emit (ToSocket Sample.bob) (error "Access denied")]).
Proof.
  assert (Repo.findMessage 1 Sample.chatting = Some Sample.hi) as Hfind
    by reflexivity.
  assert (Message.senderId Sample.hi ≠ userId Sample.bob) as Hother
    by (simpl; lia).
  exact (proj1 (only_sender_edits_or_deletes Sample.bob 1 [] 20 Sample.chatting
                  Sample.hi Hfind Hother)).
Defined.

(** ** Deleted is terminal for edits *)

Lemma update_of_deleted editor messageId content now st m :
  Repo.findMessage messageId st = Some m →
  Message.isDeleted m = true →
  (SocketHandler.handleUpdateMessage editor messageId content now st).1 = st
  ∧ reportsError (SocketHandler.handleUpdateMessage editor messageId content now st).2
  ∧ (MessageController.updateMessage (userId editor) messageId content now st).1
    = st
  ∧ status (MessageController.updateMessage (userId editor) messageId content
              now st).2 ≠ 200.
Proof.
  intros Hfind Hdeleted.
  unfold SocketHandler.handleUpdateMessage, MessageController.updateMessage,
    reportsError.
  rewrite Hfind, Hdeleted.
  destruct (_ || _); [|case_decide]; simpl; repeat split;
    try (apply Exists_cons_hd; by eexists); done.
Qed.

(** X8.  Once its sender has deleted a message, over the socket or over
    REST, no edit of it is accepted any more, whoever asks and whatever the
    new content: the socket handler emits an [error], the REST controller
    answers with a failure status, and the store stays as the delete left
    it. *)
Theorem no_edit_after_delete sender editor messageId content now now' st m
    deleted :
  messagesKeyed st →
  Repo.findMessage messageId st = Some m →
  Message.senderId m = userId sender →
  deleted = (SocketHandler.handleDeleteMessage sender messageId now st).1
  ∨ deleted
    = (MessageController.deleteMessage (userId sender) messageId now st).1 →
  (SocketHandler.handleUpdateMessage editor messageId content now' deleted).1
  = deleted
  ∧ reportsError
      (SocketHandler.handleUpdateMessage editor messageId content now' deleted).2
  ∧ (MessageController.updateMessage (userId editor) messageId content now'
       deleted).1 = deleted
  ∧ status (MessageController.updateMessage (userId editor) messageId content
              now' deleted).2 ≠ 200.
Proof.
  intros Hkey Hfind Hsender Hdeleted.
  destruct (delete_by_sender sender messageId now st m Hkey Hfind Hsender)
    as [Hsocket Hrest].
  assert (deleted
          = with_messages (<[messageId := softDeleted now m]> (messages st)) st)
    as ->.
  { destruct Hdeleted as [->| ->]; [by rewrite Hsocket|by rewrite Hrest]. }
  apply (update_of_deleted editor messageId content now' _ (softDeleted now m)).
  - apply lookup_insert_eq.
  - done.
Qed.

Lemma no_edit_after_delete_witness :
  let deleted :=
    (SocketHandler.handleDeleteMessage Sample.alice 1 20 Sample.chatting).1 in
  (SocketHandler.handleUpdateMessage Sample.alice 1 (Js.lit "again") 30 deleted).1
  = deleted.
Proof.
  assert (messagesKeyed Sample.chatting) as Hkey by compute_done.
  assert (Repo.findMessage 1 Sample.chatting = Some Sample.hi) as Hfind
    by reflexivity.
  assert (Message.senderId Sample.hi = userId Sample.alice) as Hsender
    by reflexivity.
  exact (proj1 (no_edit_after_delete Sample.alice Sample.alice 1 (Js.lit "again")
                  20 30 Sample.chatting Sample.hi _ Hkey Hfind Hsender
                  (or_introl eq_refl))).
Defined.

(** ** Blank content *)

Lemma trimStart_nil_iff s : Js.trimStart s = [] ↔ blank s.
Proof.
  unfold blank. induction s as [|c s IH]; simpl; [by split|].
  destruct (Js.isWhiteSpace c) eqn:Hc.
  - rewrite IH. split; [by constructor|by inversion 1].
  - split; [done|]. inversion 1; congruence.
Qed.

Lemma trimStart_blank_iff s : blank (Js.trimStart s) ↔ blank s.
Proof.
  unfold blank. induction s as [|c s IH]; simpl; [done|].
  destruct (Js.isWhiteSpace c) eqn:Hc; [|done].
  rewrite IH. split; [by constructor|by inversion 1].
Qed.

Lemma trim_nil_iff s : Js.trim s = [] ↔ blank s.
Proof.
  unfold Js.trim, Js.trimEnd.
  rewrite <-(reverse_involutive []), (inj_iff reverse). simpl.
  rewrite trimStart_nil_iff. unfold blank.
  rewrite Forall_reverse. apply trimStart_blank_iff.
Qed.

Lemma content_refused_iff content :
  Js.falsy content || Js.falsy (Js.trim content) = true ↔ blank content.
Proof.
  rewrite <-trim_nil_iff. destruct content as [|c content]; [done|]. simpl.
  by destruct (Js.trim (c :: content)).
Qed.

(** X9.  An edit is refused with "Content is required", the store left as it
    is, exactly when the new content is empty or consists of whitespace code
    units only; this is so over the socket and over REST (status 400), and
    the check comes before every other one. *)
Theorem blank_edit_refused socket messageId content now st :
  (SocketHandler.handleUpdateMessage socket messageId content now st
   = (st, [emit (ToSocket socket) (error "Content is required")])
   ↔ blank content)
  ∧ (MessageController.updateMessage (userId socket) messageId content now st
     = (st, respond 400 (JMessage "Content is required"))
     ↔ blank content).
Proof.
  rewrite <-content_refused_iff.
  unfold SocketHandler.handleUpdateMessage, MessageController.updateMessage.
  destruct (_ || _); [done|].
  destruct (Repo.findMessage messageId st) as [m|];
    [|by split; (split; [intros [=]|done])].
  case_decide; [by split; (split; [intros [=]|done])|].
  destruct (Message.isDeleted m); by split; (split; [intros [=]|done]).
Qed.

(** ** The two edit paths and the two delete paths *)

(** X10.  The socket handlers and the REST controllers for editing and for
    deleting a message are the same transformation of the store, on every
    input; the REST answer is 200 exactly when the socket handler emits no
    [error]. *)
Theorem rest_and_socket_agree socket messageId content now st :
  (SocketHandler.handleUpdateMessage socket messageId content now st).1
  = (MessageController.updateMessage (userId socket) messageId content now st).1
  ∧ (status (MessageController.updateMessage (userId socket) messageId content
               now st).2 = 200
     ↔ ¬ reportsError
           (SocketHandler.handleUpdateMessage socket messageId content now st).2)
  ∧ (SocketHandler.handleDeleteMessage socket messageId now st).1
    = (MessageController.deleteMessage (userId socket) messageId now st).1
  ∧ (status (MessageController.deleteMessage (userId socket) messageId now st).2
     = 200
     ↔ ¬ reportsError (SocketHandler.handleDeleteMessage socket messageId now st).2).
Proof.
  assert (∀ t s, reportsError [emit t (error s)]) as Herr.
  { intros t s. apply Exists_cons_hd. by eexists. }
  assert (∀ t t' o, ¬ reportsError [emit t (messageUpdated o);
                                   emit t' (messageUpdated o)]) as Hup.
  { intros t t' o Hex. unfold reportsError in Hex.
    rewrite !Exists_cons, Exists_nil in Hex.
    destruct Hex as [[? [=]]|[[? [=]]|[]]]. }
  assert (∀ t t' o, ¬ reportsError [emit t (messageDeleted o);
                                   emit t' (messageDeleted o)]) as Hdel.
  { intros t t' o Hex. unfold reportsError in Hex.
    rewrite !Exists_cons, Exists_nil in Hex.
    destruct Hex as [[? [=]]|[[? [=]]|[]]]. }
  unfold SocketHandler.handleUpdateMessage, MessageController.updateMessage,
    SocketHandler.handleDeleteMessage, MessageController.deleteMessage.
  destruct (Repo.findMessage messageId st) as [m|].
  - destruct (Js.falsy content || Js.falsy (Js.trim content));
      destruct (decide (Message.senderId m ≠ userId socket));
      try destruct (Message.isDeleted m); simpl;
      repeat split; try done; try (intros Hno; by destruct Hno);
      try (intros _; by auto).
  - destruct (Js.falsy content || Js.falsy (Js.trim content)); simpl;
      repeat split; try done; intros Hno; by destruct Hno.
Qed.

(** ** How operations rewrite stored messages *)

Lemma save_rewrites (table : gmap Z Message.t) j m0 x k m :
  table !! j = Some m0 → rewritten m0 x →
  table !! k = Some m →
  ∃ m', <[j := x]> table !! k = Some m' ∧ rewritten m m'.
Proof.
  intros Hj Hx Hk. destruct (decide (j = k)) as [->|Hne].
  - rewrite lookup_insert_eq. exists x. split; [done|]. congruence.
  - rewrite lookup_insert_ne by done. exists m. split; [done|constructor].
Qed.

Lemma rewriteWhere_rewrites (P : Message.t → Prop) `{!∀ m, Decision (P m)}
    (g : Message.t → Message.t) (table : gmap Z Message.t) k m :
  (∀ m, rewritten m (g m)) →
  table !! k = Some m →
  ∃ m', rewriteWhere P g table !! k = Some m' ∧ rewritten m m'.
Proof.
  intros Hg Hk. unfold rewriteWhere. rewrite lookup_fmap, Hk. simpl.
  eexists. split; [done|]. case_decide; [apply Hg|constructor].
Qed.

Ltac kept := eexists; split; [eassumption|constructor].

Ltac saved Hkey Hfind :=
  let Hid := fresh "Hid" in
  pose proof (Hkey _ _ Hfind) as Hid; simpl in Hid;
  unfold Repo.saveMessage; simpl; rewrite Hid;
  eapply save_rewrites; [exact Hfind| |eassumption].

(** Every operation leaves each stored message in place, rewritten in one of
    the five ways at most. *)
Lemma run_rewrites op now st k m :
  messagesKeyed st → messagesFresh st →
  messages st !! k = Some m →
  ∃ m', messages (run op now st).1 !! k = Some m' ∧ rewritten m m'.
Proof.
  intros Hkey Hfresh Hk.
  destruct op as [socket [| | | |]| | | | | | | |]; simpl.
  - unfold SocketHandler.handleSendMessage.
    case_decide; [kept|]. destruct (Repo.findUser _ _); [|kept].
    destruct (findOrCreateConversation_frame (userId socket) receiverId now st)
      as (_ & Hmessages & Hseq & _).
    destruct (Repo.findOrCreateConversation _ _ _ _) as [c st1]. simpl in *.
    case_decide; [simpl; rewrite Hmessages; kept|]. simpl.
    assert (messageSeq st ≠ k) as Hne.
    { pose proof (Hfresh _ _ Hk) as Hlt. simpl in Hlt. lia. }
    destruct (userSockets st1 !! receiverId) as [[|? ?]|]; simpl;
      rewrite Hmessages, Hseq, ?lookup_insert_ne by done; kept.
  - unfold SocketHandler.handleMarkAsRead.
    destruct (Js.truthyNumber conversationId).
    + rewrite markOneAsRead_foldl. simpl. unfold Repo.findMessages.
      rewrite saveAll_selected by done.
      apply rewriteWhere_rewrites; [constructor|done].
    + destruct (Repo.findMessage _ _) as [m0|] eqn:Hfind; [|kept].
      case_decide; [kept|]. saved Hkey Hfind. constructor.
  - unfold SocketHandler.handleTyping.
    destruct (Repo.findConversation _ _); [|kept]. case_decide; kept.
  - unfold SocketHandler.handleUpdateMessage.
    destruct (_ || _) eqn:Hcontent; [kept|].
    destruct (Repo.findMessage _ _) as [m0|] eqn:Hfind; [|kept].
    case_decide; [kept|]. destruct (Message.isDeleted m0) eqn:Hlive; [kept|].
    saved Hkey Hfind. apply (rewritten_edited m0 content now Hlive).
    intros Hblank. apply trim_nil_iff, content_refused_iff in Hblank. congruence.
  - unfold SocketHandler.handleDeleteMessage.
    destruct (Repo.findMessage _ _) as [m0|] eqn:Hfind; [|kept].
    case_decide; [kept|]. saved Hkey Hfind. apply (rewritten_deleted m0 now).
  - destruct (decide (userId socket = 0)) as [Hzero|Hzero].
    + unfold SocketHandler.onConnection. rewrite decide_True by done. kept.
    + rewrite (proj1 (connection_messages socket now st Hkey Hzero)).
      apply rewriteWhere_rewrites; [constructor|done].
  - unfold SocketHandler.onDisconnect. case_decide; [kept|]. simpl.
    rewrite (proj1 (updateUserStatus_frame _ _ _ _)). kept.
  - unfold MessageController.getMessages.
    destruct (Repo.findConversation _ _); [|kept]. repeat case_decide; kept.
  - unfold MessageController.markAsRead.
    destruct (Repo.findMessage _ _) as [m0|] eqn:Hfind; [|kept].
    case_decide; [kept|]. saved Hkey Hfind. constructor.
  - unfold MessageController.updateMessage.
    destruct (_ || _) eqn:Hcontent; [kept|].
    destruct (Repo.findMessage _ _) as [m0|] eqn:Hfind; [|kept].
    case_decide; [kept|]. destruct (Message.isDeleted m0) eqn:Hlive; [kept|].
    saved Hkey Hfind. apply (rewritten_edited m0 content now Hlive).
    intros Hblank. apply trim_nil_iff, content_refused_iff in Hblank. congruence.
  - unfold MessageController.deleteMessage.
    destruct (Repo.findMessage _ _) as [m0|] eqn:Hfind; [|kept].
    case_decide; [kept|]. saved Hkey Hfind. apply (rewritten_deleted m0 now).
  - unfold ConversationController.getConversations.
    destruct (Conversation.id <$> _); kept.
  - unfold ConversationController.createConversation.
    case_decide; [kept|]. destruct (Repo.findUser _ _); [|kept].
    destruct (findOrCreateConversation_frame user participantId now st)
      as (_ & Hmessages & _).
    destruct (Repo.findOrCreateConversation _ _ _ _) as [c st1]. simpl in *.
    rewrite Hmessages. kept.
Qed.

Lemma rewritten_sameIdentity m m' : rewritten m m' → sameIdentity m m'.
Proof.
  destruct 1; repeat split; try done.
  unfold editedWith, Message.historyOrEmpty. simpl. by apply prefix_app_r.
Qed.

Lemma rewritten_flagsKept m m' : rewritten m m' → flagsKept m m'.
Proof. destruct 1; repeat split; done. Qed.

(** X11.  No operation removes a stored message or changes its id, sender,
    receiver, conversation, creation time or [originalContent]; the edit
    history it had remains, as a prefix of the history it has afterwards. *)
Theorem stored_messages_persist op now st k m :
  messagesKeyed st → messagesFresh st →
  messages st !! k = Some m →
  ∃ m', messages (run op now st).1 !! k = Some m' ∧ sameIdentity m m'.
Proof.
  intros Hkey Hfresh Hk.
  destruct (run_rewrites op now st k m Hkey Hfresh Hk) as (m' & Hk' & Hm').
  exists m'. split; [done|]. by apply rewritten_sameIdentity.
Qed.

Lemma stored_messages_persist_witness :
  ∃ m',
    messages (run (restDeleteMessage 1 1) 20 Sample.chatting).1 !! 1 = Some m'
    ∧ sameIdentity Sample.hi m'.
Proof.
  assert (messagesKeyed Sample.chatting) as Hkey by compute_done.
  assert (messagesFresh Sample.chatting) as Hfresh by compute_done.
  assert (messages Sample.chatting !! 1 = Some Sample.hi) as Hk by reflexivity.
  exact (stored_messages_persist (restDeleteMessage 1 1) 20 Sample.chatting 1
           Sample.hi Hkey Hfresh Hk).
Defined.

(** X12.  No operation clears a flag of a stored message: a message that is
    delivered, read, edited or deleted stays so. *)
Theorem flags_never_reset op now st k m :
  messagesKeyed st → messagesFresh st →
  messages st !! k = Some m →
  ∃ m', messages (run op now st).1 !! k = Some m' ∧ flagsKept m m'.
Proof.
  intros Hkey Hfresh Hk.
  destruct (run_rewrites op now st k m Hkey Hfresh Hk) as (m' & Hk' & Hm').
  exists m'. split; [done|]. by apply rewritten_flagsKept.
Qed.

Lemma flags_never_reset_witness :
  ∃ m',
    messages (run (socketConnect Sample.bob) 20 Sample.chatting).1 !! 1 = Some m'
    ∧ flagsKept Sample.hi m'.
Proof.
  assert (messagesKeyed Sample.chatting) as Hkey by compute_done.
  assert (messagesFresh Sample.chatting) as Hfresh by compute_done.
  assert (messages Sample.chatting !! 1 = Some Sample.hi) as Hk by reflexivity.
  exact (flags_never_reset (socketConnect Sample.bob) 20 Sample.chatting 1
           Sample.hi Hkey Hfresh Hk).
Defined.

(** ** Where new messages come from *)

Lemma save_keeps_absent (table : gmap Z Message.t) j m0 x k :
  table !! j = Some m0 → table !! k = None → <[j := x]> table !! k = None.
Proof. intros Hj Hk. rewrite lookup_insert_ne; [done|congruence]. Qed.

Ltac absent Hkey Hfind :=
  let Hid := fresh "Hid" in
  pose proof (Hkey _ _ Hfind) as Hid; simpl in Hid;
  unfold Repo.saveMessage; simpl; rewrite Hid;
  erewrite save_keeps_absent by eassumption; done.

(** The only operation that adds a message is an accepted [sendMessage]. *)
Lemma run_creates op now st k m' :
  messagesKeyed st → messagesFresh st →
  messages st !! k = None →
  messages (run op now st).1 !! k = Some m' →
  ∃ socket receiverId content delivered,
    op = socketEvent socket (sendMessage receiverId content)
    ∧ userId socket ≠ receiverId
    ∧ is_Some (Repo.findUser receiverId st)
    ∧ k = messageSeq st
    ∧ messageSeq (run op now st).1 = messageSeq st + 1
    ∧ m' = sentMessage socket receiverId content now delivered st.
Proof.
  intros Hkey Hfresh Hk.
  destruct op as [socket [| | | |]| | | | | | | |]; simpl.
  - unfold SocketHandler.handleSendMessage.
    case_decide as Hne; [simpl; congruence|].
    destruct (Repo.findUser _ _) as [receiver|] eqn:Hreceiver;
      [|simpl; congruence].
    destruct (findOrCreateConversation_frame (userId socket) receiverId now st)
      as (_ & Hmessages & Hseq & _).
    destruct (Repo.findOrCreateConversation _ _ _ _) as [c st1] eqn:Hresolved.
    simpl in *. case_decide; [simpl; congruence|]. simpl.
    destruct (decide (messageSeq st = k)) as [<-|Hother].
    + destruct (userSockets st1 !! receiverId) as [[|? ?]|]; simpl;
        rewrite Hseq, !lookup_insert_eq; intros [= <-];
        eexists socket, receiverId, content, _;
        (split; [reflexivity|]); unfold sentMessage; rewrite Hresolved;
        repeat split; eauto.
    + destruct (userSockets st1 !! receiverId) as [[|? ?]|]; simpl;
        rewrite Hmessages, Hseq, ?lookup_insert_ne by done; congruence.
  - unfold SocketHandler.handleMarkAsRead.
    destruct (Js.truthyNumber conversationId).
    + rewrite markOneAsRead_foldl. simpl. unfold Repo.findMessages.
      rewrite saveAll_selected by done. unfold rewriteWhere.
      by rewrite lookup_fmap, Hk.
    + destruct (Repo.findMessage _ _) as [m0|] eqn:Hfind; [|simpl; congruence].
      case_decide; [simpl; congruence|]. absent Hkey Hfind.
  - unfold SocketHandler.handleTyping.
    destruct (Repo.findConversation _ _); [|simpl; congruence].
    case_decide; simpl; congruence.
  - unfold SocketHandler.handleUpdateMessage.
    destruct (_ || _); [simpl; congruence|].
    destruct (Repo.findMessage _ _) as [m0|] eqn:Hfind; [|simpl; congruence].
    case_decide; [simpl; congruence|].
    destruct (Message.isDeleted m0); [simpl; congruence|]. absent Hkey Hfind.
  - unfold SocketHandler.handleDeleteMessage.
    destruct (Repo.findMessage _ _) as [m0|] eqn:Hfind; [|simpl; congruence].
    case_decide; [simpl; congruence|]. absent Hkey Hfind.
  - destruct (decide (userId socket = 0)) as [Hzero|Hzero].
    + unfold SocketHandler.onConnection. rewrite decide_True by done.
      simpl. congruence.
    + rewrite (proj1 (connection_messages socket now st Hkey Hzero)).
      unfold rewriteWhere. by rewrite lookup_fmap, Hk.
  - unfold SocketHandler.onDisconnect. case_decide; [simpl; congruence|]. simpl.
    rewrite (proj1 (updateUserStatus_frame _ _ _ _)). simpl. congruence.
  - unfold MessageController.getMessages.
    destruct (Repo.findConversation _ _); [|simpl; congruence].
    repeat case_decide; simpl; congruence.
  - unfold MessageController.markAsRead.
    destruct (Repo.findMessage _ _) as [m0|] eqn:Hfind; [|simpl; congruence].
    case_decide; [simpl; congruence|]. absent Hkey Hfind.
  - unfold MessageController.updateMessage.
    destruct (_ || _); [simpl; congruence|].
    destruct (Repo.findMessage _ _) as [m0|] eqn:Hfind; [|simpl; congruence].
    case_decide; [simpl; congruence|].
    destruct (Message.isDeleted m0); [simpl; congruence|]. absent Hkey Hfind.
  - unfold MessageController.deleteMessage.
    destruct (Repo.findMessage _ _) as [m0|] eqn:Hfind; [|simpl; congruence].
    case_decide; [simpl; congruence|]. absent Hkey Hfind.
  - unfold ConversationController.getConversations.
    destruct (Conversation.id <$> _); simpl; congruence.
  - unfold ConversationController.createConversation.
    case_decide; [simpl; congruence|].
    destruct (Repo.findUser _ _); [|simpl; congruence].
    destruct (findOrCreateConversation_frame user participantId now st)
      as (_ & Hmessages & _).
    destruct (Repo.findOrCreateConversation _ _ _ _) as [c st1]. simpl in *.
    congruence.
Qed.

Lemma run_messageSeq op now st : messageSeq st ≤ messageSeq (run op now st).1.
Proof.
  destruct op as [socket [| | | |]| | | | | | | |]; simpl.
  - unfold SocketHandler.handleSendMessage.
    case_decide; [done|]. destruct (Repo.findUser _ _); [|done].
    destruct (findOrCreateConversation_frame (userId socket) receiverId now st)
      as (_ & _ & Hseq & _).
    destruct (Repo.findOrCreateConversation _ _ _ _) as [c st1]. simpl in *.
    case_decide; [simpl; lia|]. simpl.
    destruct (userSockets st1 !! receiverId) as [[|? ?]|]; simpl; lia.
  - unfold SocketHandler.handleMarkAsRead.
    destruct (Js.truthyNumber conversationId).
    + by rewrite markOneAsRead_foldl.
    + destruct (Repo.findMessage _ _); [|done]. by case_decide.
  - unfold SocketHandler.handleTyping.
    destruct (Repo.findConversation _ _); [|done]. by case_decide.
  - unfold SocketHandler.handleUpdateMessage.
    destruct (_ || _); [done|]. destruct (Repo.findMessage _ _) as [m0|]; [|done].
    case_decide; [done|]. by destruct (Message.isDeleted m0).
  - unfold SocketHandler.handleDeleteMessage.
    destruct (Repo.findMessage _ _); [|done]. by case_decide.
  - unfold SocketHandler.onConnection. case_decide; [done|].
    unfold SocketHandler.markPendingMessagesAsDelivered.
    rewrite deliverOne_foldl. simpl.
    by rewrite (proj1 (proj2 (proj2 (proj2 (updateUserStatus_frame _ _ _ _))))).
  - unfold SocketHandler.onDisconnect. case_decide; [done|]. simpl.
    by rewrite (proj1 (proj2 (proj2 (proj2 (updateUserStatus_frame _ _ _ _))))).
  - unfold MessageController.getMessages.
    destruct (Repo.findConversation _ _); [|done]. by repeat case_decide.
  - unfold MessageController.markAsRead.
    destruct (Repo.findMessage _ _); [|done]. by case_decide.
  - unfold MessageController.updateMessage.
    destruct (_ || _); [done|]. destruct (Repo.findMessage _ _) as [m0|]; [|done].
    case_decide; [done|]. by destruct (Message.isDeleted m0).
  - unfold MessageController.deleteMessage.
    destruct (Repo.findMessage _ _); [|done]. by case_decide.
  - unfold ConversationController.getConversations.
    by destruct (Conversation.id <$> _).
  - unfold ConversationController.createConversation.
    case_decide; [done|]. destruct (Repo.findUser _ _); [|done].
    destruct (findOrCreateConversation_frame user participantId now st)
      as (_ & _ & Hseq & _).
    destruct (Repo.findOrCreateConversation _ _ _ _) as [c st1]. simpl in *. lia.
Qed.

Lemma run_keeps_messagesFresh op now st :
  messagesKeyed st → messagesFresh st → messagesFresh (run op now st).1.
Proof.
  intros Hkey Hfresh k m' Hk'. simpl.
  destruct (messages st !! k) as [m|] eqn:Hk.
  - pose proof (Hfresh _ _ Hk) as Hlt. simpl in Hlt.
    pose proof (run_messageSeq op now st). lia.
  - destruct (run_creates op now st k m' Hkey Hfresh Hk Hk')
      as (? & ? & ? & ? & _ & _ & _ & -> & -> & _). lia.
Qed.

(** ** Versions of a message *)

Lemma rewritten_versionsConsistent m m' :
  rewritten m m' → versionsConsistent m → versionsConsistent m'.
Proof.
  intros Hm' (Hfirst & Hedited & Hdeleted).
  destruct Hm' as [| | | |content now Hlive Hcontent|now]; try done.
  - unfold versionsConsistent, editedWith, Message.historyOrEmpty in *. simpl.
    split; [|split].
    + destruct (default [] (Message.editHistory m)) as [|first rest]; simpl;
        [by apply Hfirst|done].
    + split; [|done]. intros _. by destruct (default [] (Message.editHistory m)).
    + congruence.
  - unfold versionsConsistent, softDeleted, Message.historyOrEmpty in *. simpl.
    split; [|split].
    + by destruct (default [] (Message.editHistory m)).
    + done.
    + intros _. split; [done|by eexists].
Qed.

Lemma sentMessage_versionsConsistent socket receiverId content now delivered st :
  versionsConsistent (sentMessage socket receiverId content now delivered st).
Proof. split; [done|]. split; [|done]. split; [done|]. by intros []. Qed.

Lemma run_keeps_versionsConsistent op now st :
  messagesKeyed st → messagesFresh st →
  map_Forall (λ _, versionsConsistent) (messages st) →
  map_Forall (λ _, versionsConsistent) (messages (run op now st).1).
Proof.
  intros Hkey Hfresh Hst k m' Hk'. simpl.
  destruct (messages st !! k) as [m|] eqn:Hk.
  - destruct (run_rewrites op now st k m Hkey Hfresh Hk) as (m'' & Hk'' & Hm'').
    assert (m'' = m') as -> by congruence.
    eapply rewritten_versionsConsistent; [done|]. by apply (Hst k).
  - destruct (run_creates op now st k m' Hkey Hfresh Hk Hk')
      as (? & ? & ? & ? & _ & _ & _ & _ & _ & ->).
    apply sentMessage_versionsConsistent.
Qed.

Lemma reachable_messages st :
  reachable st →
  messagesKeyed st ∧ messagesFresh st
  ∧ map_Forall (λ _, versionsConsistent) (messages st).
Proof.
  induction 1 as [|u st _ IH|op now st _ (Hkey & Hfresh & Hversions)].
  - split; [|split]; apply map_Forall_empty.
  - exact IH.
  - split; [by apply run_keeps_messagesKeyed|].
    split; [by apply run_keeps_messagesFresh|].
    by apply run_keeps_versionsConsistent.
Qed.

Lemma hiSent_reachable : reachable Sample.hiSent.
Proof.
  apply (reachable_run (socketEvent Sample.alice (sendMessage 2 (Js.lit "hi"))) 10).
  apply (reachable_run (socketConnect Sample.alice) 5).
  change (reachable
            (Repo.saveUser (Sample.user 1 "alice")
               (Repo.saveUser (Sample.user 2 "bob")
                  (Repo.saveUser (Sample.user 3 "carol")
                     (mkState ∅ ∅ ∅ 1 1 ∅))))).
  repeat apply reachable_register. apply reachable_empty.
Qed.

(** X13.  In every reachable store, every message has in [originalContent]
    its first version (the content of its first history entry if it was ever
    edited, else its current content unless it is deleted), is flagged edited
    exactly when its history is not empty, and, if deleted, shows the
    placeholder and carries its deletion time. *)
Theorem reachable_versionsConsistent st k m :
  reachable st → messages st !! k = Some m → versionsConsistent m.
Proof.
  intros Hst Hk. by apply (proj2 (proj2 (reachable_messages st Hst)) k).
Qed.

Lemma reachable_versionsConsistent_witness :
  ∃ m, messages Sample.hiSent !! 1 = Some m ∧ versionsConsistent m.
Proof.
  eexists. split; [reflexivity|].
  exact (reachable_versionsConsistent Sample.hiSent 1 _ hiSent_reachable eq_refl).
Defined.

(** ** Conversations persist *)

Lemma findOrCreateConversation_persist a b now st j c :
  conversationsFresh st →
  conversations st !! j = Some c →
  conversations (Repo.findOrCreateConversation a b now st).2 !! j = Some c
  ∧ conversationSeq st
    ≤ conversationSeq (Repo.findOrCreateConversation a b now st).2.
Proof.
  intros Hfresh Hj. unfold Repo.findOrCreateConversation.
  destruct (Repo.findConversationBetween a b st); simpl; [done|].
  pose proof (Hfresh _ _ Hj) as Hlt. simpl in Hlt.
  rewrite lookup_insert_ne by lia. split; [done|lia].
Qed.

Lemma findOrCreateConversation_fresh a b now st :
  conversationsFresh st →
  conversationsFresh (Repo.findOrCreateConversation a b now st).2.
Proof.
  intros Hfresh. unfold Repo.findOrCreateConversation.
  destruct (Repo.findConversationBetween a b st); simpl; [done|].
  apply map_Forall_insert_2; simpl; [lia|].
  intros k c Hk. pose proof (Hfresh _ _ Hk) as Hlt. simpl in *. lia.
Qed.

Lemma touch_persist c0 now (table : gmap Z Conversation.t) j c :
  table !! Conversation.id c0 = Some c0 →
  table !! j = Some c →
  ∃ c', <[Conversation.id c0 := Conversation.set_updatedAt now c0]> table !! j
        = Some c'
        ∧ sameConversation c c'.
Proof.
  intros Hc0 Hj. destruct (decide (Conversation.id c0 = j)) as [<-|Hne].
  - rewrite lookup_insert_eq. eexists. split; [done|].
    assert (c = c0) as -> by congruence. done.
  - rewrite lookup_insert_ne by done. by exists c.
Qed.

Ltac same_conversation := eexists; split; [eassumption|done].

Lemma run_conversations_persist op now st j c :
  deduplicated st → conversationsFresh st →
  conversations st !! j = Some c →
  ∃ c', conversations (run op now st).1 !! j = Some c' ∧ sameConversation c c'.
Proof.
  intros Hst Hfresh Hj.
  destruct op as [socket [| | | |]| | | | | | | |]; simpl.
  - unfold SocketHandler.handleSendMessage.
    case_decide; [same_conversation|].
    destruct (Repo.findUser _ _); [|same_conversation].
    destruct (findOrCreateConversation_deduplicated (userId socket) receiverId
                now st Hst) as [_ Hc0].
    destruct (findOrCreateConversation_persist (userId socket) receiverId now
                st j c Hfresh Hj) as [Hj1 _].
    destruct (Repo.findOrCreateConversation _ _ _ _) as [c0 st1]. simpl in *.
    case_decide; [same_conversation|]. simpl.
    destruct (userSockets st1 !! receiverId) as [[|? ?]|]; simpl;
      by apply touch_persist.
  - unfold SocketHandler.handleMarkAsRead.
    destruct (Js.truthyNumber conversationId).
    + rewrite markOneAsRead_foldl. same_conversation.
    + destruct (Repo.findMessage _ _); [|same_conversation].
      case_decide; same_conversation.
  - unfold SocketHandler.handleTyping.
    destruct (Repo.findConversation _ _); [|same_conversation].
    case_decide; same_conversation.
  - unfold SocketHandler.handleUpdateMessage.
    destruct (_ || _); [same_conversation|].
    destruct (Repo.findMessage _ _) as [m0|]; [|same_conversation].
    case_decide; [same_conversation|].
    destruct (Message.isDeleted m0); same_conversation.
  - unfold SocketHandler.handleDeleteMessage.
    destruct (Repo.findMessage _ _); [|same_conversation].
    case_decide; same_conversation.
  - unfold SocketHandler.onConnection. case_decide; [same_conversation|].
    unfold SocketHandler.markPendingMessagesAsDelivered.
    rewrite deliverOne_foldl. simpl.
    rewrite (proj1 (proj2 (updateUserStatus_frame _ _ _ _))). same_conversation.
  - unfold SocketHandler.onDisconnect. case_decide; [same_conversation|]. simpl.
    rewrite (proj1 (proj2 (updateUserStatus_frame _ _ _ _))). same_conversation.
  - unfold MessageController.getMessages.
    destruct (Repo.findConversation _ _); [|same_conversation].
    repeat case_decide; same_conversation.
  - unfold MessageController.markAsRead.
    destruct (Repo.findMessage _ _); [|same_conversation].
    case_decide; same_conversation.
  - unfold MessageController.updateMessage.
    destruct (_ || _); [same_conversation|].
    destruct (Repo.findMessage _ _) as [m0|]; [|same_conversation].
    case_decide; [same_conversation|].
    destruct (Message.isDeleted m0); same_conversation.
  - unfold MessageController.deleteMessage.
    destruct (Repo.findMessage _ _); [|same_conversation].
    case_decide; same_conversation.
  - unfold ConversationController.getConversations.
    destruct (Conversation.id <$> _); same_conversation.
  - unfold ConversationController.createConversation.
    case_decide; [same_conversation|].
    destruct (Repo.findUser _ _); [|same_conversation].
    destruct (findOrCreateConversation_persist user participantId now st j c
                Hfresh Hj) as [Hj1 _].
    destruct (Repo.findOrCreateConversation _ _ _ _) as [c0 st1]. simpl in *.
    same_conversation.
Qed.

(** X14.  No operation removes a stored conversation or changes its id, its
    two participants or its creation time. *)
Theorem conversations_persist op now st j c :
  deduplicated st → conversationsFresh st →
  conversations st !! j = Some c →
  ∃ c', conversations (run op now st).1 !! j = Some c' ∧ sameConversation c c'.
Proof. apply run_conversations_persist. Qed.

Lemma run_keeps_conversationsFresh op now st :
  deduplicated st → conversationsFresh st →
  conversationsFresh (run op now st).1.
Proof.
  intros Hst Hfresh.
  destruct op as [socket [| | | |]| | | | | | | |]; simpl.
  - unfold SocketHandler.handleSendMessage.
    case_decide; [done|]. destruct (Repo.findUser _ _); [|done].
    pose proof (findOrCreateConversation_fresh (userId socket) receiverId now st
                  Hfresh) as Hfresh1.
    destruct (findOrCreateConversation_deduplicated (userId socket) receiverId
                now st Hst) as [_ Hc0].
    destruct (Repo.findOrCreateConversation _ _ _ _) as [c0 st1]. simpl in *.
    case_decide; [done|]. simpl.
    pose proof (Hfresh1 _ _ Hc0) as Hlt. simpl in Hlt.
    destruct (userSockets st1 !! receiverId) as [[|? ?]|]; simpl;
      (apply map_Forall_insert_2; [exact Hlt|exact Hfresh1]).
  - unfold SocketHandler.handleMarkAsRead.
    destruct (Js.truthyNumber conversationId).
    + by rewrite markOneAsRead_foldl.
    + destruct (Repo.findMessage _ _); [|done]. by case_decide.
  - unfold SocketHandler.handleTyping.
    destruct (Repo.findConversation _ _); [|done]. by case_decide.
  - unfold SocketHandler.handleUpdateMessage.
    destruct (_ || _); [done|]. destruct (Repo.findMessage _ _) as [m0|]; [|done].
    case_decide; [done|]. by destruct (Message.isDeleted m0).
  - unfold SocketHandler.handleDeleteMessage.
    destruct (Repo.findMessage _ _); [|done]. by case_decide.
  - unfold SocketHandler.onConnection. case_decide; [done|].
    unfold SocketHandler.markPendingMessagesAsDelivered,
      SocketHandler.updateUserStatus.
    rewrite deliverOne_foldl. simpl. by destruct (Repo.findUser _ _).
  - unfold SocketHandler.onDisconnect, SocketHandler.updateUserStatus.
    case_decide; [done|]. simpl. by destruct (Repo.findUser _ _).
  - unfold MessageController.getMessages.
    destruct (Repo.findConversation _ _); [|done]. by repeat case_decide.
  - unfold MessageController.markAsRead.
    destruct (Repo.findMessage _ _); [|done]. by case_decide.
  - unfold MessageController.updateMessage.
    destruct (_ || _); [done|]. destruct (Repo.findMessage _ _) as [m0|]; [|done].
    case_decide; [done|]. by destruct (Message.isDeleted m0).
  - unfold MessageController.deleteMessage.
    destruct (Repo.findMessage _ _); [|done]. by case_decide.
  - unfold ConversationController.getConversations.
    by destruct (Conversation.id <$> _).
  - unfold ConversationController.createConversation.
    case_decide; [done|]. destruct (Repo.findUser _ _); [|done].
    pose proof (findOrCreateConversation_fresh user participantId now st Hfresh).
    by destruct (Repo.findOrCreateConversation _ _ _ _).
Qed.

Lemma conversations_persist_witness :
  ∃ c',
    conversations
      (run (socketEvent Sample.bob (sendMessage 1 (Js.lit "yo"))) 20
           Sample.chatting).1 !! 1 = Some c'
    ∧ sameConversation (Conversation.mk 1 1 2 10 10) c'.
Proof.
  assert (deduplicated Sample.chatting) as Hst.
  { split; [compute_done|]. intros k1 k2 c1 c2 Hk1 Hk2 _.
    unfold Sample.chatting in Hk1, Hk2. simpl in Hk1, Hk2.
    destruct (decide (k1 = 1)) as [->|Hne1];
      [|by rewrite lookup_insert_ne in Hk1].
    destruct (decide (k2 = 1)) as [->|Hne2]; [done|].
    by rewrite lookup_insert_ne in Hk2. }
  assert (conversationsFresh Sample.chatting) as Hfresh by compute_done.
  exact (conversations_persist
           (socketEvent Sample.bob (sendMessage 1 (Js.lit "yo"))) 20
           Sample.chatting 1 _ Hst Hfresh eq_refl).
Defined.

(** ** Messages and their conversations *)

Lemma rewritten_parties m m' :
  rewritten m m' →
  Message.senderId m' = Message.senderId m
  ∧ Message.receiverId m' = Message.receiverId m
  ∧ Message.conversationId m' = Message.conversationId m.
Proof. by destruct 1. Qed.

Lemma run_keeps_inItsConversation op now st :
  messagesKeyed st → messagesFresh st →
  deduplicated st → conversationsFresh st →
  map_Forall (λ _, inItsConversation st) (messages st) →
  map_Forall (λ _, inItsConversation (run op now st).1)
             (messages (run op now st).1).
Proof.
  intros Hkey Hfresh Hdedup Hcfresh Hst k m' Hk'. simpl.
  destruct (messages st !! k) as [m|] eqn:Hk.
  - destruct (run_rewrites op now st k m Hkey Hfresh Hk) as (m'' & Hk'' & Hm'').
    assert (m'' = m') as -> by congruence.
    destruct (rewritten_parties _ _ Hm'') as (Hs & Hr & Hc).
    destruct (Hst _ _ Hk) as (Hne & c & Hconv & Hbetween).
    destruct (run_conversations_persist op now st _ c Hdedup Hcfresh Hconv)
      as (c' & Hconv' & _ & Hu1 & Hu2 & _).
    unfold inItsConversation. rewrite Hs, Hr, Hc. split; [done|].
    exists c'. split; [done|]. unfold Repo.betweenUsers in *.
    by rewrite Hu1, Hu2.
  - destruct (run_creates op now st k m' Hkey Hfresh Hk Hk')
      as (socket & receiverId & content & delivered & -> & Hne & [r Hr] & _ & _
          & ->).
    split; [done|]. simpl.
    destruct (send_outcome socket receiverId content now st r Hne Hr)
      as (_ & _ & Hconv & _).
    eexists. split; [exact Hconv|].
    apply findOrCreateConversation_between.
Qed.

Lemma reachable_consistent st :
  reachable st →
  messagesKeyed st ∧ messagesFresh st ∧ deduplicated st ∧ conversationsFresh st
  ∧ map_Forall (λ _, inItsConversation st) (messages st).
Proof.
  induction 1 as [|u st _ IH|op now st _ (Hkey & Hfresh & Hdedup & Hcfresh & Hin)].
  - split; [apply map_Forall_empty|]. split; [apply map_Forall_empty|].
    split; [|split; apply map_Forall_empty].
    split; [apply map_Forall_empty|]. by intros k1 k2 c1 c2 Hk1.
  - exact IH.
  - split; [by apply run_keeps_messagesKeyed|].
    split; [by apply run_keeps_messagesFresh|].
    split; [by apply run_keeps_deduplicated|].
    split; [by apply run_keeps_conversationsFresh|].
    by apply run_keeps_inItsConversation.
Qed.

(** X15.  In every reachable store, every message is between two different
    users and its [conversationId] names a stored conversation whose two
    participants are exactly its sender and its receiver. *)
Theorem reachable_inItsConversation st k m :
  reachable st → messages st !! k = Some m → inItsConversation st m.
Proof.
  intros Hst Hk.
  by apply (proj2 (proj2 (proj2 (proj2 (reachable_consistent st Hst)))) k).
Qed.

Lemma reachable_inItsConversation_witness :
  ∃ m, messages Sample.hiSent !! 1 = Some m ∧ inItsConversation Sample.hiSent m.
Proof.
  eexists. split; [reflexivity|].
  exact (reachable_inItsConversation Sample.hiSent 1 _ hiSent_reachable eq_refl).
Defined.

(** ** Where [isRead ⇒ isDelivered] is kept *)

(** X16.  Every operation other than the REST mark-as-read endpoint keeps
    the invariant that a read message is a delivered one: the socket events,
    connection (with its sweep) and disconnection, the REST edit and delete,
    and the read-only and conversation endpoints. *)
Theorem readImpliesDelivered_kept op now st :
  notRestMarkAsRead op →
  readImpliesDelivered st → readImpliesDelivered (run op now st).1.
Proof.
  intros Hop Hst. destruct op; simpl; try done.
  - by apply socket_keeps_readImpliesDelivered.
  - unfold SocketHandler.onConnection. case_decide; [done|].
    set (st1 := SocketHandler.updateUserStatus _ _ _ _).
    assert (readImpliesDelivered st1) as Hst1.
    { unfold readImpliesDelivered, st1.
      by rewrite (proj1 (updateUserStatus_frame _ _ _ _)). }
    pose proof (sweep_keeps_readImpliesDelivered (userId socket) st1 Hst1).
    by destruct (SocketHandler.markPendingMessagesAsDelivered _ _).
  - unfold SocketHandler.onDisconnect. case_decide; [done|]. simpl.
    unfold readImpliesDelivered.
    by rewrite (proj1 (updateUserStatus_frame _ _ _ _)).
  - unfold MessageController.getMessages.
    destruct (Repo.findConversation _ _); [|done]. by repeat case_decide.
  - unfold MessageController.updateMessage.
    destruct (_ || _); [done|].
    destruct (Repo.findMessage _ _) as [m|] eqn:Hm; [|done].
    case_decide; [done|]. destruct (Message.isDeleted m); [done|].
    apply saveMessage_readImpliesDelivered; [|done]. simpl. by apply (Hst _ _ Hm).
  - unfold MessageController.deleteMessage.
    destruct (Repo.findMessage _ _) as [m|] eqn:Hm; [|done].
    case_decide; [done|].
    apply saveMessage_readImpliesDelivered; [|done]. simpl. by apply (Hst _ _ Hm).
  - unfold ConversationController.getConversations.
    by destruct (Conversation.id <$> _).
  - unfold ConversationController.createConversation.
    case_decide; [done|]. destruct (Repo.findUser _ _); [|done].
    destruct (findOrCreateConversation_frame user participantId now st)
      as (_ & Hmessages & _).
    destruct (Repo.findOrCreateConversation _ _ _ _) as [c st1]. simpl in *.
    unfold readImpliesDelivered. by rewrite Hmessages.
Qed.

Lemma readImpliesDelivered_kept_witness :
  readImpliesDelivered (run (socketConnect Sample.bob) 20 Sample.chatting).1.
Proof.
  assert (notRestMarkAsRead (socketConnect Sample.bob)) as Hop by exact I.
  assert (readImpliesDelivered Sample.chatting) as Hst by compute_done.
  exact (readImpliesDelivered_kept (socketConnect Sample.bob) 20 Sample.chatting
           Hop Hst).
Defined.

(** ** Who may mark a message as read *)

(** X17.  Nobody but its receiver can mark a message as read: for any other
    caller the single-message form of the socket event does nothing and
    emits nothing, the REST endpoint answers 403 and changes nothing, and the
    conversation form of the socket event leaves that message as it was. *)
Theorem only_receiver_marks_read socket messageId conversationId st m :
  messagesKeyed st →
  Repo.findMessage messageId st = Some m →
  Message.receiverId m ≠ userId socket →
  SocketHandler.handleMarkAsRead socket messageId None st = (st, [])
  ∧ MessageController.markAsRead (userId socket) messageId st
    = (st, respond 403 (JMessage "Access denied"))
  ∧ Repo.findMessage messageId
      (SocketHandler.handleMarkAsRead socket messageId conversationId st).1
    = Some m.
Proof.
  intros Hkey Hfind Hother.
  assert (SocketHandler.handleMarkAsRead socket messageId None st = (st, []))
    as Hsingle.
  { unfold SocketHandler.handleMarkAsRead. simpl.
    by rewrite Hfind, decide_True. }
  split; [done|]. split.
  - unfold MessageController.markAsRead. by rewrite Hfind, decide_True.
  - unfold SocketHandler.handleMarkAsRead in *.
    destruct (Js.truthyNumber conversationId) as [c|]; simpl in *.
    + rewrite markOneAsRead_foldl. unfold Repo.findMessage, Repo.findMessages.
      simpl. rewrite saveAll_selected by done.
      unfold rewriteWhere, Repo.findMessage in *. rewrite lookup_fmap, Hfind.
      simpl. rewrite decide_False; [done|]. by intros (_ & ? & _).
    + by rewrite Hsingle.
Qed.

Lemma only_receiver_marks_read_witness :
  Repo.findMessage 1
    (SocketHandler.handleMarkAsRead Sample.alice 1 (Some 1) Sample.chatting).1
  = Some Sample.hi.
Proof.
  assert (messagesKeyed Sample.chatting) as Hkey by compute_done.
  assert (Repo.findMessage 1 Sample.chatting = Some Sample.hi) as Hfind
    by reflexivity.
  assert (Message.receiverId Sample.hi ≠ userId Sample.alice) as Hother
    by (simpl; lia).
  exact (proj2 (proj2 (only_receiver_marks_read Sample.alice 1 (Some 1)
                         Sample.chatting Sample.hi Hkey Hfind Hother))).
Defined.

(** ** Reading the history *)

(** X18.  For a message id in the range of the id column,
    [getMessageHistory] never changes the store, and it answers 200 exactly
    when the message exists and the caller is its sender or its receiver:
    no history is returned to anyone else.  The history returned is that of
    the stored message: its [originalContent], current content, edits and
    flags.  Anyone else gets 403, and an id that no message has gets 404. *)
Theorem history_only_for_parties user messageId st :
  Db.int4 messageId →
  let result := MessageController.getMessageHistory user messageId st in
  let party m := user = Message.senderId m ∨ user = Message.receiverId m in
  result.1 = st
  ∧ (status result.2 = 200
     ↔ ∃ m, Repo.findMessage messageId st = Some m ∧ party m)
  ∧ (∀ h, body result.2 = JHistory h →
       ∃ m, Repo.findMessage messageId st = Some m ∧ party m ∧ h = historyOf m)
  ∧ (∀ m, Repo.findMessage messageId st = Some m → party m →
       result.2 = respond 200 (JHistory (historyOf m)))
  ∧ (∀ m, Repo.findMessage messageId st = Some m → ¬ party m →
       result.2 = respond 403 (JMessage "Access denied"))
  ∧ (Repo.findMessage messageId st = None →
     result.2 = respond 404 (JMessage "Message not found")).
Proof.
  intros _. cbv zeta. unfold MessageController.getMessageHistory.
  destruct (Repo.findMessage messageId st) as [m|].
  - destruct (decide (user = Message.senderId m ∨ user = Message.receiverId m))
      as [Hparty|Hother].
    + rewrite decide_False by (intros [? ?]; destruct Hparty; congruence).
      simpl. split; [done|]. split; [split; [eauto|done]|].
      split; [intros h [= <-]; eauto|].
      split; [by intros ? [= <-] _|].
      split; [by intros ? [= <-] ?|]. done.
    + rewrite decide_True by (split; intros ?; apply Hother; auto).
      simpl. split; [done|].
      split; [split; [done|by intros (? & [= <-] & ?)]|].
      split; [done|]. split; [by intros ? [= <-] ?|].
      split; [by intros ? [= <-] _|]. done.
  - simpl. split; [done|]. split; [split; [done|by intros (? & ? & ?)]|].
    done.
Qed.

Lemma history_only_for_parties_witness :
  (MessageController.getMessageHistory 2 1 Sample.chatting).2
  = respond 200 (JHistory (historyOf Sample.hi)).
Proof.
  assert (Db.int4 1) as Hrange by (unfold Db.int4; lia).
  destruct (history_only_for_parties 2 1 Sample.chatting Hrange)
    as (_ & _ & _ & Hparty & _).
  apply Hparty; [reflexivity|]. by right.
Defined.

(** ** Existing leaves about conversations, with their witnesses *)

Lemma reachable_deduplicated_witness : deduplicated Sample.hiSent.
Proof. exact (reachable_deduplicated Sample.hiSent hiSent_reachable). Defined.

Lemma chatting_deduplicated : deduplicated Sample.chatting.
Proof.
  split; [compute_done|]. intros k1 k2 c1 c2 Hk1 Hk2 _.
  unfold Sample.chatting in Hk1, Hk2. simpl in Hk1, Hk2.
  destruct (decide (k1 = 1)) as [->|Hne1];
    [|by rewrite lookup_insert_ne in Hk1].
  destruct (decide (k2 = 1)) as [->|Hne2]; [done|].
  by rewrite lookup_insert_ne in Hk2.
Qed.

Lemma send_both_ways_witness :
  ∃ m m',
    Repo.findMessage 2
      (SocketHandler.handleSendMessage Sample.alice 2 (Js.lit "hi") 20
         Sample.chatting).1 = Some m
    ∧ Repo.findMessage 3
        (SocketHandler.handleSendMessage Sample.bob 1 (Js.lit "yo") 30
           (SocketHandler.handleSendMessage Sample.alice 2 (Js.lit "hi") 20
              Sample.chatting).1).1 = Some m'
    ∧ Message.conversationId m' = Message.conversationId m.
Proof.
  assert (userId Sample.alice ≠ userId Sample.bob) as Hne by (simpl; lia).
  exact (send_both_ways Sample.alice Sample.bob (Js.lit "hi") (Js.lit "yo") 20 30
           Sample.chatting (Sample.user 1 "alice") (Sample.user 2 "bob")
           chatting_deduplicated Hne eq_refl eq_refl).
Defined.

Lemma createConversation_symmetric_witness :
  (ConversationController.createConversation 2 1 30
     (ConversationController.createConversation 1 2 20 Sample.empty).1).1
  = (ConversationController.createConversation 1 2 20 Sample.empty).1.
Proof.
  assert (1 ≠ 0) as H1 by lia. assert (2 ≠ 0) as H2 by lia.
  exact (proj1 (createConversation_symmetric 1 2 20 30 Sample.empty
                  (Sample.user 1 "alice") (Sample.user 2 "bob") H1 H2
                  eq_refl eq_refl)).
Defined.

(** ** Presence *)

Lemma sweep_frame user st :
  let after := (SocketHandler.markPendingMessagesAsDelivered user st).1 in
  users after = users st ∧ userSockets after = userSockets st
  ∧ conversations after = conversations st.
Proof.
  simpl. unfold SocketHandler.markPendingMessagesAsDelivered.
  by rewrite deliverOne_foldl.
Qed.

Lemma connection_presence socket now st :
  userId socket ≠ 0 →
  let after := (SocketHandler.onConnection socket now st).1 in
  userSockets after = <[userId socket := socketId socket]> (userSockets st)
  ∧ users after
    = users (SocketHandler.updateUserStatus (userId socket) (Js.lit "online")
               now st).
Proof.
  intros Hne. simpl. unfold SocketHandler.onConnection.
  rewrite decide_False by done.
  set (st1 := SocketHandler.updateUserStatus _ _ _ _).
  destruct (sweep_frame (userId socket) st1) as (Husers & Hsockets & _).
  destruct (SocketHandler.markPendingMessagesAsDelivered _ st1) as [st2 out].
  simpl in *. rewrite Husers, Hsockets. unfold st1. split.
  - by rewrite (proj1 (proj2 (proj2 (updateUserStatus_frame _ _ _ _)))).
  - unfold SocketHandler.updateUserStatus, Repo.findUser. simpl.
    by destruct (users st !! userId socket).
Qed.

(** X19.  Presence is kept per user, not per connection.  A connection
    records its socket id for its user, replacing whatever was recorded, and
    sets the user online; a disconnection of any connection of that user
    removes the record and sets the user offline with the time as
    [lastSeen], even when the record is that of another, still open
    connection.  The records of other users are not touched. *)
Theorem disconnect_unregisters_whatever_socket old new now now' st u :
  userId old = userId new →
  userId new ≠ 0 →
  Repo.findUser (userId new) st = Some u →
  User.id u = userId new →
  let connected := (SocketHandler.onConnection new now st).1 in
  let disconnected := (SocketHandler.onDisconnect old now' connected).1 in
  userSockets connected !! userId new = Some (socketId new)
  ∧ Repo.findUser (userId new) connected
    = Some (User.set_presence (Js.lit "online") now u)
  ∧ userSockets disconnected !! userId new = None
  ∧ isOnline (userId new) disconnected = false
  ∧ Repo.findUser (userId new) disconnected
    = Some (User.set_presence (Js.lit "offline") now'
              (User.set_presence (Js.lit "online") now u))
  ∧ ∀ other, other ≠ userId new →
      userSockets disconnected !! other = userSockets st !! other
      ∧ Repo.findUser other disconnected = Repo.findUser other st.
Proof.
  intros Hsame Hne Hu Hid. simpl.
  destruct (connection_presence new now st Hne) as [Hsockets Husers].
  assert (users (SocketHandler.onConnection new now st).1
          = <[userId new := User.set_presence (Js.lit "online") now u]> (users st))
    as Husers'.
  { rewrite Husers. unfold SocketHandler.updateUserStatus. rewrite Hu.
    simpl. by rewrite Hid. }
  clear Husers.
  unfold SocketHandler.onDisconnect, isOnline. rewrite Hsame.
  rewrite decide_False by done.
  unfold SocketHandler.updateUserStatus, Repo.findUser in *. simpl.
  rewrite Husers', Hsockets, !lookup_insert_eq. simpl.
  rewrite Hid, Husers', !lookup_insert_eq, lookup_delete_eq.
  repeat split; try done.
  - rewrite lookup_delete_ne, lookup_insert_ne by done. done.
  - rewrite !lookup_insert_ne by done. done.
Qed.

Lemma disconnect_unregisters_whatever_socket_witness :
  isOnline 1
    (SocketHandler.onDisconnect (mkSocket "socket-old" 1) 30
       (SocketHandler.onConnection Sample.alice 20 Sample.chatting).1).1
  = false.
Proof.
  assert (userId (mkSocket "socket-old" 1) = userId Sample.alice) as Hsame
    by reflexivity.
  assert (userId Sample.alice ≠ 0) as Hne by (simpl; lia).
  assert (Repo.findUser (userId Sample.alice) Sample.chatting
          = Some (Sample.user 1 "alice")) as Hu by reflexivity.
  assert (User.id (Sample.user 1 "alice") = userId Sample.alice) as Hid
    by reflexivity.
  exact (proj1 (proj2 (proj2 (proj2
           (disconnect_unregisters_whatever_socket (mkSocket "socket-old" 1)
              Sample.alice 20 30 Sample.chatting _ Hsame Hne Hu Hid))))).
Defined.

(** ** Creating a conversation over REST *)

(** X20.  For a participant id in the range of the id column,
    [createConversation] answers 400 for the id 0 and 404 for a participant
    that does not exist, changing nothing.  Otherwise it answers 200 with
    the id of a conversation between the caller and the participant, which
    is stored after the call, together with the participant's public
    columns; the preview it returns has no last message and an unread count
    of 0 whatever the conversation holds, and no message is touched. *)
Theorem createConversation_outcome user participantId now st :
  Db.int4 participantId →
  let result := ConversationController.createConversation user participantId now st in
  (participantId = 0 →
   result = (st, respond 400 (JMessage "Participant ID is required")))
  ∧ (participantId ≠ 0 → Repo.findUser participantId st = None →
     result = (st, respond 404 (JMessage "User not found")))
  ∧ (participantId ≠ 0 →
     ∀ participant, Repo.findUser participantId st = Some participant →
     ∃ c,
       result.2
       = respond 200
           (JConversation
              (ConversationView.mk (Conversation.id c) (User.select participant)
                                   None 0 (Conversation.updatedAt c)))
       ∧ Repo.betweenUsers user participantId c
       ∧ messages result.1 = messages st
       ∧ (deduplicated st →
          Repo.findConversation (Conversation.id c) result.1 = Some c)).
Proof.
  intros _. simpl. split; [|split].
  - intros ->. unfold ConversationController.createConversation.
    by rewrite decide_True.
  - intros Hp Hnone. unfold ConversationController.createConversation.
    by rewrite decide_False, Hnone.
  - intros Hp participant Hfound.
    rewrite (createConversation_found user participantId now st participant)
      by done. simpl.
    exists (Repo.findOrCreateConversation user participantId now st).1.
    split; [done|]. split; [apply findOrCreateConversation_between|].
    split; [apply findOrCreateConversation_messages|].
    intros Hst.
    by destruct (findOrCreateConversation_deduplicated user participantId now
                   st Hst).
Qed.

Lemma createConversation_outcome_witness :
  ConversationController.createConversation 1 7 20 Sample.chatting
  = (Sample.chatting, respond 404 (JMessage "User not found")).
Proof.
  assert (Db.int4 7) as Hrange by (unfold Db.int4; lia).
  destruct (createConversation_outcome 1 7 20 Sample.chatting Hrange)
    as (_ & Hunknown & _).
  apply Hunknown; [lia|reflexivity].
Defined.

(** ** Pages of messages *)

Section Ordering.
Context {A : Type} (key : A → Z).

Lemma insertDesc_perm x (l : list A) : insertDesc key x l ≡ₚ x :: l.
Proof.
  induction l as [|y l IH]; simpl; [done|].
  case_decide; [done|]. by rewrite IH, Permutation_swap.
Qed.

Lemma orderByDesc_perm (l : list A) : orderByDesc key l ≡ₚ l.
Proof.
  induction l as [|x l IH]; [done|].
  change (orderByDesc key (x :: l))
    with (insertDesc key x (orderByDesc key l)).
  by rewrite insertDesc_perm, IH.
Qed.

Lemma insertDesc_sorted x (l : list A) :
  StronglySorted (λ a b, key b ≤ key a) l →
  StronglySorted (λ a b, key b ≤ key a) (insertDesc key x l).
Proof.
  induction 1 as [|y l Hl IH Hy]; simpl.
  - repeat constructor.
  - case_decide as Hle.
    + constructor; [by constructor|].
      constructor; [done|]. eapply Forall_impl; [exact Hy|].
      intros z Hz. simpl in Hz. lia.
    + constructor; [done|].
      rewrite insertDesc_perm. constructor; [lia|done].
Qed.

Lemma orderByDesc_sorted (l : list A) :
  StronglySorted (λ a b, key b ≤ key a) (orderByDesc key l).
Proof.
  induction l as [|x l IH]; [constructor|].
  change (orderByDesc key (x :: l))
    with (insertDesc key x (orderByDesc key l)).
  by apply insertDesc_sorted.
Qed.

Lemma page_sorted (R : relation A) n k (l : list A) :
  StronglySorted R l → StronglySorted R (take n (drop k l)).
Proof.
  intros Hl.
  rewrite <-(take_drop k l) in Hl. apply StronglySorted_app_1_r in Hl.
  rewrite <-(take_drop n (drop k l)) in Hl.
  by apply StronglySorted_app_1_l in Hl.
Qed.

End Ordering.

(** X21.  [getMessages] never changes the store.  For a conversation id in
    the range of the id column it answers 404 when the conversation does not
    exist, 403 when the caller is not one of its two participants, and 500
    when the requested page size or offset is negative. *)
Theorem getMessages_refusals user conversationId page limit st :
  Db.int4 conversationId →
  let result :=
    MessageController.getMessages user conversationId page limit st in
  result.1 = st
  ∧ (Repo.findConversation conversationId st = None →
     result.2 = respond 404 (JMessage "Conversation not found"))
  ∧ (∀ c, Repo.findConversation conversationId st = Some c →
     (¬ ConversationController.involves user c →
      result.2 = respond 403 (JMessage "Access denied"))
     ∧ (ConversationController.involves user c →
        parseIntOr 50 limit < 0
        ∨ (parseIntOr 1 page - 1) * parseIntOr 50 limit < 0 →
        result.2 = respond 500 (JMessage "Internal server error"))).
Proof.
  intros _.
  simpl. unfold MessageController.getMessages, ConversationController.involves.
  destruct (Repo.findConversation conversationId st) as [c|]; simpl.
  - split; [by repeat case_decide|]. split; [done|].
    intros c' [= <-]. split.
    + intros Hout. rewrite decide_True; [done|].
      split; intros ?; apply Hout; auto.
    + intros Hin Hneg. rewrite decide_False by (intros [? ?]; destruct Hin; done).
      by rewrite decide_True.
  - split; [done|]. split; [done|]. by intros c [=].
Qed.

Lemma getMessages_refusals_witness :
  (MessageController.getMessages 3 1 None None Sample.chatting).2
  = respond 403 (JMessage "Access denied").
Proof.
  assert (Db.int4 1) as Hrange by (unfold Db.int4; lia).
  destruct (getMessages_refusals 3 1 None None Sample.chatting Hrange)
    as (_ & _ & Hfound).
  destruct (Hfound (Conversation.mk 1 1 2 10 10) eq_refl) as [Hdenied _].
  apply Hdenied. unfold ConversationController.involves. simpl. lia.
Defined.

(** X22.  For a participant, and a page size and an offset that are not
    negative and not above [Number.MAX_SAFE_INTEGER], [getMessages] answers
    200 with the sanitized objects of a list of stored messages that all
    belong to that conversation and involve the caller, newest first, at
    most the page size long (50 when none is given); the first page holds
    every such message when the page size allows. *)
Theorem getMessages_page user conversationId page limit st c :
  Repo.findConversation conversationId st = Some c →
  ConversationController.involves user c →
  Db.count (parseIntOr 50 limit) →
  Db.count ((parseIntOr 1 page - 1) * parseIntOr 50 limit) →
  let matching :=
    Repo.findMessages
      (MessageController.inConversationOf conversationId user) st in
  ∃ l,
    (MessageController.getMessages user conversationId page limit st).2
    = respond 200 (JList (stripBackupFields <$> (messageObject <$> l)))
    ∧ (length l ≤ Z.to_nat (parseIntOr 50 limit))%nat
    ∧ StronglySorted newerFirst l
    ∧ (∀ m, m ∈ l →
         m ∈ rows (messages st)
         ∧ Message.conversationId m = conversationId
         ∧ (Message.senderId m = user ∨ Message.receiverId m = user))
    ∧ (parseIntOr 1 page = 1 →
       (length matching ≤ Z.to_nat (parseIntOr 50 limit))%nat →
       l ≡ₚ matching).
Proof.
  intros Hfind Hin [Hlimit _] [Hoffset _]. simpl.
  unfold MessageController.getMessages. rewrite Hfind.
  rewrite decide_False
    by (intros [? ?]; destruct Hin; done).
  rewrite decide_False by lia. simpl.
  set (matching := Repo.findMessages _ st).
  set (sorted := orderByDesc Message.createdAt matching).
  exists (take (Z.to_nat (parseIntOr 50 limit))
            (drop (Z.to_nat ((parseIntOr 1 page - 1) * parseIntOr 50 limit))
                  sorted)).
  split; [done|]. split; [rewrite length_take; lia|]. split; [|split].
  - apply page_sorted, orderByDesc_sorted.
  - intros m Hm.
    apply subseteq_take, subseteq_drop in Hm.
    unfold sorted in Hm. rewrite orderByDesc_perm in Hm.
    unfold matching, Repo.findMessages in Hm.
    apply list_elem_of_filter in Hm as [[? ?] ?]. done.
  - intros Hfirst Hall. rewrite Hfirst. simpl.
    rewrite take_ge.
    + apply orderByDesc_perm.
    + unfold sorted. by rewrite orderByDesc_perm.
Qed.

Lemma getMessages_page_witness :
  ∃ l,
    (MessageController.getMessages 2 1 None None Sample.chatting).2
    = respond 200 (JList (stripBackupFields <$> (messageObject <$> l)))
    ∧ (length l ≤ 50)%nat.
Proof.
  assert (Repo.findConversation 1 Sample.chatting
          = Some (Conversation.mk 1 1 2 10 10)) as Hfind by reflexivity.
  assert (ConversationController.involves 2 (Conversation.mk 1 1 2 10 10))
    as Hin by (right; reflexivity).
  assert (Db.count (parseIntOr 50 None)) as Hlimit
    by (unfold Db.count; simpl; lia).
  assert (Db.count ((parseIntOr 1 None - 1) * parseIntOr 50 None)) as Hoffset
    by (unfold Db.count; simpl; lia).
  destruct (getMessages_page 2 1 None None Sample.chatting _ Hfind Hin Hlimit
              Hoffset) as (l & Hl & Hlen & _).
  exists l. split; [exact Hl|exact Hlen].
Defined.

(** ** Conversation previews *)

Lemma maxZ_spec l x :
  ConversationController.maxZ l = Some x → x ∈ l ∧ ∀ y, y ∈ l → y ≤ x.
Proof.
  destruct l as [|z l]; [done|]. simpl. intros [= <-].
  induction l as [|w l IH]; simpl.
  - split; [by left|]. intros y ->%list_elem_of_singleton. lia.
  - destruct IH as [Hin Hmax]. split.
    + destruct (Z.max_spec w (foldr Z.max z l)) as [[_ ->]|[_ ->]].
      * apply elem_of_cons in Hin as [->|Hin]; [by left|].
        right. by right.
      * right. by left.
    + intros y [->|[->|Hy]%elem_of_cons]%elem_of_cons.
      * pose proof (Hmax z (list_elem_of_here _ _)). lia.
      * lia.
      * pose proof (Hmax y (list_elem_of_further _ _ _ Hy)). lia.
Qed.

Lemma maxZ_is_Some l : l ≠ [] → is_Some (ConversationController.maxZ l).
Proof. destruct l; [done|]. by eexists. Qed.

Lemma count_of_group l g :
  from_option snd 0
    (List.find (λ u, bool_decide (u.1 = g))
               (ConversationController.countPerGroup l))
  = Z.of_nat (length (filter (ConversationController.inGroup g) l)).
Proof.
  unfold ConversationController.countPerGroup.
  assert (∀ gs,
    List.find (λ u : Z * Z, bool_decide (u.1 = g))
      ((λ g', (g', Z.of_nat (length (filter (ConversationController.inGroup g') l))))
         <$> gs)
    = if decide (g ∈ gs)
      then Some (g, Z.of_nat (length (filter (ConversationController.inGroup g) l)))
      else None) as Hfind.
  { induction gs as [|g' gs IH]; [done|]. rewrite fmap_cons. simpl.
    destruct (decide (g' = g)) as [->|Hne].
    - rewrite bool_decide_eq_true_2 by done.
      by rewrite decide_True by (by left).
    - rewrite bool_decide_eq_false_2 by done. rewrite IH.
      destruct (decide (g ∈ gs)).
      + by rewrite decide_True by (by right).
      + rewrite decide_False; [done|].
        intros [?|?]%elem_of_cons; congruence. }
  rewrite Hfind. case_decide as Hg; [done|]. simpl.
  rewrite filter_none; [done|].
  intros m Hm Hgroup. apply Hg. unfold ConversationController.groups.
  apply elem_of_remove_dups, list_elem_of_fmap. by exists m.
Qed.

Lemma listed_conversation user st conv :
  conv ∈ orderByDesc Conversation.updatedAt
           (filter (ConversationController.involves user) (rows (conversations st))) →
  conv ∈ rows (conversations st) ∧ ConversationController.involves user conv.
Proof.
  rewrite orderByDesc_perm. intros [? ?]%list_elem_of_filter. done.
Qed.

Lemma find_Some_elem {A} (p : A → bool) (l : list A) x :
  List.find p l = Some x → x ∈ l ∧ p x = true.
Proof.
  intros [Hin Hp]%List.find_some. split; [|done]. by apply list_elem_of_In.
Qed.

Lemma find_None_elem {A} (p : A → bool) (l : list A) x :
  List.find p l = None → x ∈ l → p x = false.
Proof.
  intros Hnone Hin. apply (List.find_none p l Hnone). by apply list_elem_of_In.
Qed.

(** X23.  Every conversation that [getConversations] returns is a stored
    conversation of the caller, with its id and [updatedAt]; the participant
    shown is the stored user on the other side, in the public columns only;
    and the unread count is the number of stored messages of that
    conversation that are addressed to the caller and not read. *)
Theorem conversation_previews_count user st views view :
  (ConversationController.getConversations user st).2
  = respond 200 (JConversations views) →
  view ∈ views →
  ∃ conv other,
    conv ∈ rows (conversations st)
    ∧ ConversationController.involves user conv
    ∧ ConversationView.id view = Conversation.id conv
    ∧ ConversationView.updatedAt view = Conversation.updatedAt conv
    ∧ other ∈ rows (users st)
    ∧ User.id other = ConversationController.otherParticipant user conv
    ∧ ConversationView.participant view = User.select other
    ∧ ConversationView.unreadCount view
      = Z.of_nat
          (length (filter (unreadOf (Conversation.id conv) user)
                          (rows (messages st)))).
Proof.
  unfold ConversationController.getConversations.
  set (conversations := orderByDesc _ _).
  destruct (Conversation.id <$> conversations) as [|cid cids] eqn:Hids;
    [done|]. rewrite <-Hids. simpl. intros [= <-] Hview.
  apply list_elem_of_omap in Hview as (conv & Hconv & Hview).
  destruct (listed_conversation user st conv Hconv) as [Hstored Hin].
  unfold ConversationController.formatConversation in Hview.
  rewrite count_of_group in Hview.
  destruct (match List.find _ (filter _ _) with Some _ => _ | None => _ end);
    [|done].
  destruct (List.find _ (User.select <$> _)) as [p|] eqn:Hp; [|done].
  injection Hview as <-. simpl.
  apply find_Some_elem in Hp as [(other & -> & Hother)%list_elem_of_fmap Hpid].
  apply list_elem_of_filter in Hother as [_ Hother].
  apply bool_decide_eq_true_1 in Hpid. simpl in Hpid.
  exists conv, other. repeat split; try done.
  rewrite list_filter_filter. do 2 f_equal.
  apply list_filter_iff. intros m.
  unfold ConversationController.inGroup, ConversationController.unreadFor,
    unreadOf.
  split; [tauto|]. intros (Hc & ? & ?). repeat split; try done.
  rewrite Hc. apply list_elem_of_fmap. by exists conv.
Qed.

Lemma newest_of_group (table : gmap Z Message.t) (visible : list Message.t) m :
  map_Forall (λ k m, Message.id m = k) table →
  (∀ m, m ∈ visible → m ∈ rows table) →
  m ∈ visible →
  Message.id m ∈ ConversationController.maxIdPerGroup visible →
  ∀ m', m' ∈ visible →
        Message.conversationId m' = Message.conversationId m →
        Message.id m' ≤ Message.id m.
Proof.
  intros Hkey Hrows Hm Hmax m' Hm' Hsame.
  apply list_elem_of_omap in Hmax as (g & _ & Hmax).
  apply maxZ_spec in Hmax as [Hin Hmax].
  apply list_elem_of_fmap in Hin as (m0 & Hid & Hm0).
  apply list_elem_of_filter in Hm0 as [Hg Hm0].
  assert (m0 = m) as ->.
  { apply Hrows, elem_of_rows in Hm0 as [k0 Hk0].
    apply Hrows, elem_of_rows in Hm as [k Hk].
    pose proof (Hkey _ _ Hk0). pose proof (Hkey _ _ Hk). simpl in *.
    congruence. }
  apply Hmax, list_elem_of_fmap. exists m'. split; [done|].
  apply list_elem_of_filter. split; [|done].
  unfold ConversationController.inGroup in *. congruence.
Qed.

Lemma group_has_newest (visible : list Message.t) m :
  m ∈ visible →
  ∃ m', m' ∈ visible
        ∧ Message.conversationId m' = Message.conversationId m
        ∧ Message.id m' ∈ ConversationController.maxIdPerGroup visible.
Proof.
  intros Hm.
  set (g := Message.conversationId m).
  assert (m ∈ filter (ConversationController.inGroup g) visible) as Hgroup.
  { by apply list_elem_of_filter. }
  destruct (maxZ_is_Some
              (Message.id <$> filter (ConversationController.inGroup g) visible))
    as [x Hx].
  { intros Hnil. apply fmap_nil_inv in Hnil. rewrite Hnil in Hgroup.
    by apply not_elem_of_nil in Hgroup. }
  destruct (maxZ_spec _ _ Hx) as [Hin _].
  apply list_elem_of_fmap in Hin as (m' & -> & Hm').
  apply list_elem_of_filter in Hm' as [Hg Hm'].
  exists m'. split; [done|]. split; [done|].
  apply list_elem_of_omap. exists g. split; [|done].
  unfold ConversationController.groups.
  apply elem_of_remove_dups, list_elem_of_fmap. by exists m.
Qed.

(** X24.  The last message that [getConversations] shows for a conversation
    is the sanitized object of the stored message with the greatest id among
    those of that conversation that involve the caller, and it is absent
    exactly when there is no such message. *)
Theorem conversation_previews_newest user st views view :
  messagesKeyed st →
  (ConversationController.getConversations user st).2
  = respond 200 (JConversations views) →
  view ∈ views →
  ∃ conv,
    conv ∈ rows (conversations st)
    ∧ ConversationView.id view = Conversation.id conv
    ∧ showsNewest st user conv (ConversationView.lastMessage view).
Proof.
  intros Hkey. unfold ConversationController.getConversations.
  set (conversations := orderByDesc _ _).
  destruct (Conversation.id <$> conversations) as [|cid cids] eqn:Hids;
    [done|]. rewrite <-Hids. simpl. intros [= <-] Hview.
  apply list_elem_of_omap in Hview as (conv & Hconv & Hview).
  destruct (listed_conversation user st conv Hconv) as [Hstored _].
  set (ids := Conversation.id <$> conversations) in *.
  set (visible := filter (ConversationController.visibleIn ids user)
                         (rows (messages st))) in *.
  assert (∀ m, m ∈ visible ∧ Message.conversationId m = Conversation.id conv
               ↔ m ∈ rows (messages st)
                 ∧ MessageController.inConversationOf (Conversation.id conv)
                     user m) as Hvisible.
  { intros m. unfold visible. rewrite list_elem_of_filter.
    unfold ConversationController.visibleIn, MessageController.inConversationOf.
    split; [tauto|]. intros (? & Hc & ?). repeat split; try done.
    rewrite Hc. apply list_elem_of_fmap. by exists conv. }
  assert (∀ m, m ∈ visible → m ∈ rows (messages st)) as Hrows.
  { intros m [_ ?]%list_elem_of_filter. done. }
  exists conv. split; [done|].
  unfold ConversationController.formatConversation in Hview.
  destruct (List.find _ (filter _ visible)) as [m|] eqn:Hlast.
  - destruct (bool_decide _); [|done].
    destruct (List.find _ (User.select <$> _)); [|done].
    injection Hview as <-. simpl. split; [done|].
    apply find_Some_elem in Hlast as [Hm Hc].
    apply list_elem_of_filter in Hm as [Hmax Hm].
    apply bool_decide_eq_true_1 in Hc.
    exists m. split; [done|].
    destruct (proj1 (Hvisible m) (conj Hm Hc)) as [? ?].
    split; [done|]. split; [done|].
    intros m' Hm' Hin'.
    destruct (proj2 (Hvisible m') (conj Hm' Hin')) as [Hv' Hc'].
    apply (newest_of_group (messages st) visible m Hkey Hrows Hm Hmax m' Hv').
    congruence.
  - destruct (List.find _ (User.select <$> _)); [|done].
    injection Hview as <-. simpl. split; [done|].
    intros m Hm Hin.
    destruct (proj2 (Hvisible m) (conj Hm Hin)) as [Hv Hc].
    destruct (group_has_newest visible m Hv) as (m' & Hm' & Hc' & Hmax').
    assert (bool_decide (Message.conversationId m' = Conversation.id conv)
            = false) as Hno.
    { apply (find_None_elem _ _ m' Hlast).
      by apply list_elem_of_filter. }
    apply bool_decide_eq_false_1 in Hno. congruence.
Qed.

(** X25.  [getConversations] never changes the store; it lists the
    conversations most recently updated first; and for a user who is in no
    conversation it answers 500, not an empty list. *)
Theorem getConversations_shape user st :
  let result := ConversationController.getConversations user st in
  result.1 = st
  ∧ (filter (ConversationController.involves user) (rows (conversations st)) = [] →
     result.2 = respond 500 (JMessage "Internal server error"))
  ∧ ∀ views, result.2 = respond 200 (JConversations views) →
      StronglySorted (λ a b, ConversationView.updatedAt b
                             ≤ ConversationView.updatedAt a) views.
Proof.
  simpl. unfold ConversationController.getConversations.
  set (conversations := orderByDesc _ _).
  assert (StronglySorted (λ a b, Conversation.updatedAt b ≤ Conversation.updatedAt a)
            conversations) as Hsorted by apply orderByDesc_sorted.
  split; [by destruct (Conversation.id <$> conversations)|]. split.
  - intros Hnone. unfold conversations. by rewrite Hnone.
  - destruct (Conversation.id <$> conversations) as [|cid cids]; [done|].
    simpl. intros views [= <-].
    set (format := ConversationController.formatConversation _ _ _ _).
    assert (∀ conv view, format conv = Some view →
              ConversationView.updatedAt view = Conversation.updatedAt conv)
      as Hformat.
    { intros conv view. unfold format,
        ConversationController.formatConversation.
      destruct (match List.find _ (filter _ _) with Some _ => _ | None => _ end);
        [|done].
      destruct (List.find _ (User.select <$> _)); [|done]. by intros [= <-]. }
    clearbody format. clear -Hsorted Hformat.
    induction Hsorted as [|conv l Hl IH Hconv]; [constructor|]. simpl.
    destruct (format conv) as [view|] eqn:Hview; [|done].
    constructor; [done|]. apply Forall_forall. intros view' Hview'.
    apply list_elem_of_omap in Hview' as (conv' & Hconv' & Hview').
    rewrite (Hformat _ _ Hview), (Hformat _ _ Hview').
    by apply (proj1 (Forall_forall _ _) Hconv).
Qed.

Lemma samplePreview_returned :
  (ConversationController.getConversations 2 Sample.chatting).2
  = respond 200 (JConversations [samplePreview]).
Proof. vm_compute. reflexivity. Qed.

Lemma conversation_previews_count_witness :
  ∃ conv,
    ConversationView.id samplePreview = Conversation.id conv
    ∧ ConversationView.unreadCount samplePreview
      = Z.of_nat
          (length (filter (unreadOf (Conversation.id conv) 2)
                          (rows (messages Sample.chatting)))).
Proof.
  assert (samplePreview ∈ [samplePreview]) as Hin by left.
  destruct (conversation_previews_count 2 Sample.chatting [samplePreview]
              samplePreview samplePreview_returned Hin)
    as (conv & other & _ & _ & Hid & _ & _ & _ & _ & Hcount).
  exists conv. split; [exact Hid|exact Hcount].
Defined.

Lemma conversation_previews_newest_witness :
  ∃ conv,
    ConversationView.id samplePreview = Conversation.id conv
    ∧ showsNewest Sample.chatting 2 conv
        (ConversationView.lastMessage samplePreview).
Proof.
  assert (messagesKeyed Sample.chatting) as Hkey by compute_done.
  assert (samplePreview ∈ [samplePreview]) as Hin by left.
  destruct (conversation_previews_newest 2 Sample.chatting [samplePreview]
              samplePreview Hkey samplePreview_returned Hin)
    as (conv & _ & Hid & Hshown).
  exists conv. split; [exact Hid|exact Hshown].
Defined.

(** ** Refusals of [sendMessage] *)

Lemma reportsError_singleton target message :
  reportsError [emit target (error message)].
Proof. apply Exists_cons_hd. by eexists. Qed.

Lemma accepted_send_is_clean socket receiverId (o o' : JsObject) mid cid
    (online : bool) :
  let out :=
    emit (ToSocket socket) (newMessage o)
    :: (if online
        then [emit (ToRoom receiverId) (newMessage o');
              emit (ToSocket socket) (messageDelivered mid cid)]
        else []) in
  ¬ reportsError out
  ∧ emit (ToSocket socket) (error "Invalid conversation access") ∉ out.
Proof.
  simpl. unfold reportsError. split.
  - destruct online; rewrite ?Exists_cons, Exists_nil; simpl;
      intros Hex; repeat destruct Hex as [[? [=]]|Hex]; done.
  - destruct online; rewrite ?not_elem_of_cons; repeat split;
      try done; apply not_elem_of_nil.
Qed.

(** X29.  For a receiver id in the range of the id column and a content
    that the database stores as sent, [sendMessage] is refused exactly when
    the receiver is the sender or does not exist: the caller's connection
    then gets one [error] and the store is left as it was.  In every other
    case no [error] is emitted; in particular the "Invalid conversation
    access" answer never occurs. *)
Theorem send_refused_iff socket receiverId content now st :
  Db.int4 receiverId →
  Db.text content →
  let result := SocketHandler.handleSendMessage socket receiverId content now st in
  (reportsError result.2
   ↔ userId socket = receiverId ∨ Repo.findUser receiverId st = None)
  ∧ (reportsError result.2 → result.1 = st ∧ length result.2 = 1%nat)
  ∧ emit (ToSocket socket) (error "Invalid conversation access") ∉ result.2.
Proof.
  intros _ _. cbv zeta.
  destruct (decide (userId socket = receiverId)) as [Hself|Hne].
  - subst receiverId. rewrite send_rejects_self. simpl.
    split; [split; [by left | intros _; apply reportsError_singleton]|].
    split; [done|]. by intros [=]%list_elem_of_singleton.
  - destruct (Repo.findUser receiverId st) as [r|] eqn:Hr.
    + destruct (send_outcome socket receiverId content now st r Hne Hr)
        as (_ & _ & _ & Hout).
      cbv zeta in Hout. rewrite Hout.
      match goal with
      | |- context [emit _ (newMessage ?o) :: (if ?b then [emit _ (newMessage ?o'); emit _ (messageDelivered ?mid ?cid)] else [])] =>
        destruct (accepted_send_is_clean socket receiverId o o' mid cid b)
          as [Hclean Habsent]
      end.
      cbv zeta in Hclean, Habsent.
      split; [split; [done | intros [?|?]; congruence]|].
      split; done.
    + rewrite send_rejects_unknown_receiver by done. simpl.
      split; [split; [by right | intros _; apply reportsError_singleton]|].
      split; [done|]. by intros [=]%list_elem_of_singleton.
Qed.

Lemma send_refused_iff_witness :
  reportsError
    (SocketHandler.handleSendMessage Sample.alice 7 (Js.lit "hi") 20
                                     Sample.chatting).2.
Proof.
  assert (Db.int4 7) as Hrange by (unfold Db.int4; lia).
  assert (Db.text (Js.lit "hi")) as Htext by (split; [compute_done|reflexivity]).
  destruct (send_refused_iff Sample.alice 7 (Js.lit "hi") 20 Sample.chatting
              Hrange Htext) as ([_ Hrefused] & _).
  apply Hrefused. right. reflexivity.
Defined.

(** ** Searching users *)


